(** * ANDE Chain genesis data: record encoding and Merkle commitment

    A shallow embedding of [scripts/generate-genesis-plants.py] (seed
    derivation, slot packing, Merkle root and proofs, storage layout, the
    dict of the proofs file) and of [scripts/generate-genesis-seeds.py] (the
    parser of the plant list, the seed formula, the seed slots).

    Python values are modelled as follows.
    - [bytes] / [bytearray]: [list byte].
    - [str]: the list of its Unicode code points, [list N].
    - [int]: [Z].
    - an operation that can raise: a value of [result], with the exception.
    - the storage [dict]: a [gmap] keyed by [list N]; the constant lookup
      tables: association lists with [dict_get].
    - a [while] loop: a function by well-founded recursion on the length of the
      level, so that it is total.
    - the hash [eth_utils.keccak] and [str.lower] belong to the runtime and are
      section variables; the reading of [time.time()] is an argument.
      [Keccak.keccak256] and [lower_ascii] instantiate them on the plants of
      the source. *)

From Stdlib Require Import Strings.Byte.
From Stdlib Require Import ZArith List Lia Ascii String.
From Stdlib Require Import DecimalString HexadecimalString DecimalZ HexadecimalZ.
From stdpp Require Import base list gmap.
From Equations Require Import Equations.

Open Scope Z_scope.

(** [lia] with division and remainder by constants. *)
Ltac div_lia := zify; Z.to_euclidean_division_equations; lia.

Abbreviation bytes := (list byte).
Abbreviation str := (list N).

#[global] Instance byte_eq_decision : EqDecision byte := byte_eq_dec.

(** ** Exceptions and the error monad *)

Inductive exn : Type :=
| ValueError
| IndexError
| OverflowError
| UnicodeEncodeError.

Inductive result (A : Type) : Type :=
| Ok (a : A)
| Raise (e : exn).
Arguments Ok {A} a.
Arguments Raise {A} e.

Definition bind {A B : Type} (m : result A) (k : A -> result B) : result B :=
  match m with
  | Ok a => k a
  | Raise e => Raise e
  end.

Notation "'let*' x ':=' m 'in' k" := (bind m (fun x => k))
  (at level 10, x pattern, m at level 100, k at level 200).

Definition returns {A : Type} (m : result A) : Prop := exists a, m = Ok a.

Definition is_ok {A : Type} (m : result A) : bool :=
  match m with
  | Ok _ => true
  | Raise _ => false
  end.

(** [for x in xs: acc = body(acc, x)] with a body that can raise. *)
Fixpoint for_each {A S : Type} (body : S -> A -> result S) (xs : list A) (acc : S)
  : result S :=
  match xs with
  | [] => Ok acc
  | x :: rest => let* acc' := body acc x in for_each body rest acc'
  end.

(** ** Strings and bytes of the runtime *)

(** A string literal of the source, as code points. *)
Definition py (s : string) : str :=
  List.map N_of_ascii (list_ascii_of_string s).

Definition byte_of_N (n : N) : byte :=
  match Byte.of_N (n mod 256) with
  | Some b => b
  | None => x00
  end.

Definition Z_of_byte (b : byte) : Z := Z.of_N (Byte.to_N b).
Definition byte_of_Z (z : Z) : byte := byte_of_N (Z.to_N (z mod 256)).

(** A bytes literal of the source. *)
Definition pyb (s : string) : bytes :=
  List.map byte_of_ascii (list_ascii_of_string s).

(** [s.encode('utf-8')]: surrogate code points cannot be encoded. *)
Definition is_surrogate (c : N) : bool := ((0xD800 <=? c) && (c <=? 0xDFFF))%N.

Definition utf8_char (c : N) : result bytes :=
  if (c <? 0x80)%N then Ok [byte_of_N c]
  else if (c <? 0x800)%N then
    Ok [byte_of_N (0xC0 + c / 64); byte_of_N (0x80 + c mod 64)]
  else if (c <? 0x10000)%N then
    if is_surrogate c then Raise UnicodeEncodeError
    else Ok [byte_of_N (0xE0 + c / 4096); byte_of_N (0x80 + (c / 64) mod 64);
             byte_of_N (0x80 + c mod 64)]
  else
    Ok [byte_of_N (0xF0 + (c / 262144) mod 8); byte_of_N (0x80 + (c / 4096) mod 64);
        byte_of_N (0x80 + (c / 64) mod 64); byte_of_N (0x80 + c mod 64)].

Fixpoint encode_utf8 (s : str) : result bytes :=
  match s with
  | [] => Ok []
  | c :: rest =>
      let* b := utf8_char c in
      let* bs := encode_utf8 rest in
      Ok (b ++ bs)
  end.

(** [b.ljust(width, b'\x00')] *)
Definition ljust (width : nat) (b : bytes) : bytes :=
  b ++ replicate (width - length b) x00.

(** [sep.join(parts)] *)
Fixpoint join (sep : str) (parts : list str) : str :=
  match parts with
  | [] => []
  | [p] => p
  | p :: rest => p ++ sep ++ join sep rest
  end.

(** [n.to_bytes(length, 'big')]: raises [OverflowError] on a negative [n] and
    on an [n] that needs more than [length] bytes. *)
Fixpoint be_bytes (len : nat) (n : Z) : bytes :=
  match len with
  | O => []
  | S k => be_bytes k (n / 256) ++ [byte_of_Z n]
  end.

Definition to_bytes_big (len : nat) (n : Z) : result bytes :=
  if (n <? 0) || (256 ^ Z.of_nat len <=? n) then Raise OverflowError
  else Ok (be_bytes len n).

(** [int.from_bytes(b, 'big')] *)
Definition from_bytes_big (b : bytes) : Z :=
  fold_left (fun acc x => acc * 256 + Z_of_byte x) b 0.

(** [buf[i] = v] on a bytearray, for a constant index [i >= 0]. *)
Definition set_item (i : nat) (v : Z) (buf : bytes) : result bytes :=
  if (v <? 0) || (256 <=? v) then Raise ValueError
  else if decide (i < length buf)%nat then Ok (<[i := byte_of_Z v]> buf)
  else Raise IndexError.

(** [buf[lo:hi] = v] on a bytearray, for constants [0 <= lo <= hi]: the slice is
    replaced by [v], whatever the length of [v]. *)
Definition set_slice (lo hi : nat) (v : bytes) (buf : bytes) : bytes :=
  take lo buf ++ v ++ drop hi buf.

(** [l[0]] *)
Definition item0 {A : Type} (l : list A) : result A :=
  match l with
  | x :: _ => Ok x
  | [] => Raise IndexError
  end.

(** *** Hexadecimal text *)

Definition hex_digit (n : N) : N :=
  if (n <? 10)%N then (48 + n)%N else (87 + n)%N.

Definition hex_of_byte (b : byte) : str :=
  [hex_digit (Byte.to_N b / 16); hex_digit (Byte.to_N b mod 16)].

(** [eth_utils.to_hex(b)] on bytes, and ['0x' + b.hex()]. *)
Definition to_hex (b : bytes) : str :=
  py "0x" ++ flat_map hex_of_byte b.

(** [hex(n)] *)
Definition hex (n : Z) : str :=
  match Z.to_hex_int n with
  | Hexadecimal.Pos d => py "0x" ++ py (HexadecimalString.NilZero.string_of_uint d)
  | Hexadecimal.Neg d => py "-0x" ++ py (HexadecimalString.NilZero.string_of_uint d)
  end.

(** [str(n)], also what an f-string does with an int. *)
Definition str_of_int (n : Z) : str :=
  py (DecimalString.NilZero.string_of_int (Z.to_int n)).

(** Modelled from the spec: the reading of a proof element by the verifier,
    which the source does not have; the inverse of [to_hex]. *)
Definition hex_value (c : N) : option N :=
  if ((48 <=? c) && (c <=? 57))%N then Some (c - 48)%N
  else if ((97 <=? c) && (c <=? 102))%N then Some (c - 87)%N
  else None.

Fixpoint unhex (s : str) : option bytes :=
  match s with
  | [] => Some []
  | hi :: lo :: rest =>
      match hex_value hi, hex_value lo, unhex rest with
      | Some h, Some l, Some bs => Some (byte_of_N (16 * h + l) :: bs)
      | _, _, _ => None
      end
  | [_] => None
  end.

Definition from_hex (s : str) : option bytes :=
  match s with
  | 48%N :: 120%N :: digits => unhex digits
  | _ => None
  end.

Fixpoint from_hex_all (proof : list str) : option (list bytes) :=
  match proof with
  | [] => Some []
  | e :: rest =>
      match from_hex e, from_hex_all rest with
      | Some b, Some bs => Some (b :: bs)
      | _, _ => None
      end
  end.

(** ** Merkle tree over the plant seeds *)

Section Merkle.

Variable keccak : bytes -> bytes.

(** One pass of [for i in range(0, len(current_level), 2)] of
    [calculate_merkle_root]: the pair at [i], [i + 1] is hashed, a last node
    without a partner is appended as it is. The result is [next_level]. *)
Fixpoint next_level (current_level : list bytes) : list bytes :=
  match current_level with
  | left_ :: right_ :: rest => keccak (left_ ++ right_) :: next_level rest
  | [odd] => [odd]
  | [] => []
  end.

Lemma next_level_length (l : list bytes) :
  length (next_level l) = ((length l + 1) / 2)%nat.
Proof.
  induction l as [l IH] using (induction_ltof1 _ (@length _)); unfold ltof in IH.
  destruct l as [|a [|b rest]]; simpl next_level; simpl length; try reflexivity.
  rewrite IH by (simpl; lia).
  replace (S (S (length rest)) + 1)%nat with ((length rest + 1) + 1 * 2)%nat by lia.
  rewrite Nat.div_add by lia. lia.
Qed.

Lemma next_level_shorter (a b : bytes) (rest : list bytes) :
  (length (next_level (a :: b :: rest)) < length (a :: b :: rest))%nat.
Proof.
  rewrite next_level_length. simpl length.
  apply Nat.Div0.div_lt_upper_bound. lia.
Qed.

(** [while len(current_level) > 1: ...; current_level = next_level] *)
Equations? merkle_loop (current_level : list bytes) : list bytes
  by wf (length current_level) lt :=
  merkle_loop (a :: b :: rest) := merkle_loop (next_level (a :: b :: rest));
  merkle_loop current_level := current_level.
Proof. exact (next_level_shorter a b rest). Qed.

Definition calculate_merkle_root (leaves : list bytes) : result bytes :=
  match leaves with
  | [] => Ok (replicate 32 x00)
  | [leaf] => Ok leaf
  | _ => item0 (merkle_loop leaves)
  end.

(** One pass of the [for] loop of [generate_merkle_proof], from position [i]:
    where [current_index] is [i] or [i + 1] of a pair, the sibling is appended
    to [proof]. Returns the proof and [next_level]. *)
Fixpoint proof_pass (current_index : Z) (i : Z) (current_level : list bytes)
  (proof : list str) : list str * list bytes :=
  match current_level with
  | left_ :: right_ :: rest =>
      let proof :=
        if current_index =? i then proof ++ [to_hex right_]
        else if current_index =? i + 1 then proof ++ [to_hex left_]
        else proof in
      let combined := keccak (left_ ++ right_) in
      let '(proof, next) := proof_pass current_index (i + 2) rest proof in
      (proof, combined :: next)
  | [odd] => (proof, [odd])
  | [] => (proof, [])
  end.

Lemma proof_pass_next (ci i : Z) (l : list bytes) (proof : list str) :
  snd (proof_pass ci i l proof) = next_level l.
Proof.
  revert i proof.
  induction l as [l IH] using (induction_ltof1 _ (@length _)); unfold ltof in IH.
  intros i proof. destruct l as [|a [|b rest]]; simpl; try reflexivity.
  specialize (IH rest ltac:(simpl; lia) (i + 2)).
  match goal with |- context [proof_pass ci (i + 2) rest ?p] =>
    specialize (IH p); destruct (proof_pass ci (i + 2) rest p) end.
  simpl in *. congruence.
Qed.

Equations? proof_loop (proof : list str) (current_index : Z)
  (current_level : list bytes) : list str by wf (length current_level) lt :=
  proof_loop proof current_index (a :: b :: rest) :=
    proof_loop (fst (proof_pass current_index 0 (a :: b :: rest) proof))
               (current_index / 2)
               (snd (proof_pass current_index 0 (a :: b :: rest) proof));
  proof_loop proof current_index current_level := proof.
Proof.
  pose proof (next_level_shorter a b rest) as Hlt.
  rewrite <- (proof_pass_next current_index 0 (a :: b :: rest) proof) in Hlt.
  exact Hlt.
Qed.

Definition generate_merkle_proof (leaves : list bytes) (index : Z) : list str :=
  if Z.of_nat (length leaves) <=? index then []
  else proof_loop [] index leaves.

(** Modelled from the spec: [verify(leaf, index, proof, root, total_leaf_count)],
    which the source does not have. It replays the pairing implied by [index]
    and the node count of each level: an odd index takes the next proof element
    as its left sibling, an even index with a right neighbour takes it as its
    right sibling, the unpaired last node takes none. A proof that is too short
    or too long fails. *)
Equations? verify_loop (running : bytes) (index : Z) (proof : list bytes)
  (count : Z) : option bytes by wf (Z.to_nat count) lt :=
  verify_loop running index proof count with decide (1 < count) := {
    | right _ := match proof with [] => Some running | _ :: _ => None end
    | left _ :=
        if Z.odd index then
          match proof with
          | sibling :: rest =>
              verify_loop (keccak (sibling ++ running)) (index / 2) rest
                          ((count + 1) / 2)
          | [] => None
          end
        else if index + 1 <? count then
          match proof with
          | sibling :: rest =>
              verify_loop (keccak (running ++ sibling)) (index / 2) rest
                          ((count + 1) / 2)
          | [] => None
          end
        else verify_loop running (index / 2) proof ((count + 1) / 2) }.
Proof.
  all: assert ((count + 1) / 2 < count) by (apply Z.div_lt_upper_bound; lia).
  all: lia.
Qed.

Definition verify (leaf : bytes) (index : Z) (proof : list str) (root : bytes)
  (total_leaf_count : Z) : bool :=
  if (index <? 0) || (total_leaf_count <=? index) then false
  else
    match from_hex_all proof with
    | None => false
    | Some siblings =>
        match verify_loop leaf index siblings total_leaf_count with
        | Some computed => bool_decide (computed = root)
        | None => false
        end
    end.

End Merkle.

(** ** Keccak-256 *)

(** The hash behind [eth_utils.keccak]: Keccak-f[1600] sponge with rate 136
    bytes, padding byte [0x01], 32 bytes of output. The theorems below hold for
    any hash function; this one evaluates the model on concrete plants. *)
Module Keccak.

Definition mask64 : Z := 0xFFFFFFFFFFFFFFFF.

Definition rol (x n : Z) : Z :=
  Z.land (Z.lor (Z.shiftl x n) (Z.shiftr x (64 - n))) mask64.

(** The state: 25 lanes of 64 bits, lane [(x, y)] at position [x + 5 * y]. *)
Definition lane (A : list Z) (x y : Z) : Z :=
  nth (Z.to_nat (x mod 5 + 5 * (y mod 5))) A 0.

Definition round_constants : list Z :=
  [ 0x0000000000000001; 0x0000000000008082; 0x800000000000808a;
    0x8000000080008000; 0x000000000000808b; 0x0000000080000001;
    0x8000000080008081; 0x8000000000008009; 0x000000000000008a;
    0x0000000000000088; 0x0000000080008009; 0x000000008000000a;
    0x000000008000808b; 0x800000000000008b; 0x8000000000008089;
    0x8000000000008003; 0x8000000000008002; 0x8000000000000080;
    0x000000000000800a; 0x800000008000000a; 0x8000000080008081;
    0x8000000000008080; 0x0000000080000001; 0x8000000080008008 ].

Definition rotation_offsets : list Z :=
  [ 0; 1; 62; 28; 27; 36; 44; 6; 55; 20; 3; 10; 43; 25; 39; 41; 45; 15; 21; 8;
    18; 2; 61; 56; 14 ].

Definition positions : list Z := seqZ 0 25.

Definition theta (A : list Z) : list Z :=
  let C := List.map (fun x => Z.lxor (lane A x 0) (Z.lxor (lane A x 1)
             (Z.lxor (lane A x 2) (Z.lxor (lane A x 3) (lane A x 4)))))
             (seqZ 0 5) in
  let c x := nth (Z.to_nat (x mod 5)) C 0 in
  let D := List.map (fun x => Z.lxor (c (x + 4)) (rol (c (x + 1)) 1)) (seqZ 0 5) in
  List.map (fun i => Z.lxor (nth (Z.to_nat i) A 0) (nth (Z.to_nat (i mod 5)) D 0))
    positions.

Definition rho_pi (A : list Z) : list Z :=
  List.map (fun i =>
              let X := i mod 5 in
              let Y := i / 5 in
              let x := (X + 3 * Y) mod 5 in
              rol (lane A x X) (nth (Z.to_nat (x + 5 * X)) rotation_offsets 0))
    positions.

Definition chi (B : list Z) : list Z :=
  List.map (fun i =>
              let x := i mod 5 in
              let y := i / 5 in
              Z.lxor (lane B x y)
                (Z.land (Z.lxor (lane B (x + 1) y) mask64) (lane B (x + 2) y)))
    positions.

Definition iota (rc : Z) (A : list Z) : list Z :=
  match A with
  | a :: rest => Z.lxor a rc :: rest
  | [] => []
  end.

Definition round (A : list Z) (rc : Z) : list Z := iota rc (chi (rho_pi (theta A))).

Definition f1600 (A : list Z) : list Z := fold_left round round_constants A.

Definition rate : nat := 136.

Definition pad (data : bytes) : list Z :=
  let msg := List.map Z_of_byte data in
  let q := (rate - length data mod rate)%nat in
  if (q =? 1)%nat then msg ++ [0x81]
  else msg ++ [0x01] ++ replicate (q - 2) 0 ++ [0x80].

Definition le_lane (block : list Z) (i : nat) : Z :=
  fold_right (fun b acc => b + 256 * acc) 0 (take 8 (drop (8 * i) block)).

Definition absorb_block (A : list Z) (block : list Z) : list Z :=
  f1600 (imap (fun i a => if (i <? 17)%nat then Z.lxor a (le_lane block i) else a) A).

Fixpoint absorb (blocks : nat) (data : list Z) (A : list Z) : list Z :=
  match blocks with
  | O => A
  | S n => absorb n (drop rate data) (absorb_block A (take rate data))
  end.

Definition keccak256 (data : bytes) : bytes :=
  let padded := pad data in
  let A := absorb (length padded / rate) padded (replicate 25 0) in
  List.map (fun i : nat => byte_of_Z (Z.shiftr (nth (i / 8) A 0) (8 * Z.of_nat (i mod 8))))
    (seq 0 32).

End Keccak.

(** ** CRC-32 of zlib *)

(** [zlib.crc32]: the CRC-32 of ISO 3309, reflected polynomial [0xEDB88320],
    register started at and finally inverted with [0xFFFFFFFF], one bit at a
    time. *)
Definition crc_poly : Z := 0xEDB88320.

Definition crc_shift (c : Z) : Z :=
  if Z.odd c then Z.lxor (Z.shiftr c 1) crc_poly else Z.shiftr c 1.

Definition crc_byte (c : Z) (b : byte) : Z :=
  Nat.iter 8 crc_shift (Z.lxor c (Z_of_byte b)).

Definition crc_update (c : Z) (data : bytes) : Z := fold_left crc_byte data c.

Definition crc32 (data : bytes) : Z :=
  Z.lxor (crc_update 0xFFFFFFFF data) 0xFFFFFFFF.

(** ** JSON text of the metadata object *)

(** The values of the metadata dict are strings and lists of strings. *)
Inductive json_value : Type :=
| JStr (s : str)
| JList (l : list str).

Definition hex4 (n : N) : str :=
  [hex_digit ((n / 4096) mod 16); hex_digit ((n / 256) mod 16);
   hex_digit ((n / 16) mod 16); hex_digit (n mod 16)]%N.

(** [json.dumps] escapes with [ensure_ascii=True]: the quote, the backslash and
    the short control escapes; other characters outside [' '..'~'] as
    [\uXXXX], above [0xFFFF] as a surrogate pair. *)
Definition json_escape (c : N) : str :=
  if (c =? 34)%N then [92; 34]%N
  else if (c =? 92)%N then [92; 92]%N
  else if (c =? 10)%N then [92; 110]%N
  else if (c =? 13)%N then [92; 114]%N
  else if (c =? 9)%N then [92; 116]%N
  else if (c =? 12)%N then [92; 102]%N
  else if (c =? 8)%N then [92; 98]%N
  else if ((32 <=? c) && (c <=? 126))%N then [c]
  else if (c <? 0x10000)%N then [92; 117]%N ++ hex4 c
  else
    let v := (c - 0x10000)%N in
    [92; 117]%N ++ hex4 (0xD800 + (v / 1024) mod 1024)
    ++ [92; 117]%N ++ hex4 (0xDC00 + v mod 1024).

Definition json_string (s : str) : str :=
  [34%N] ++ flat_map json_escape s ++ [34%N].

Definition json_dumps_value (v : json_value) : str :=
  match v with
  | JStr s => json_string s
  | JList l => py "[" ++ join (py ", ") (List.map json_string l) ++ py "]"
  end.

(** Order of strings: by code points, a proper prefix first. *)
Fixpoint str_leb (a b : str) : bool :=
  match a, b with
  | [], _ => true
  | _ :: _, [] => false
  | x :: a', y :: b' =>
      if (x <? y)%N then true else if (y <? x)%N then false else str_leb a' b'
  end.

Fixpoint insert_item (kv : str * json_value) (sorted : list (str * json_value))
  : list (str * json_value) :=
  match sorted with
  | [] => [kv]
  | kv' :: rest =>
      if str_leb (fst kv) (fst kv') then kv :: kv' :: rest
      else kv' :: insert_item kv rest
  end.

Definition sort_items (items : list (str * json_value)) : list (str * json_value) :=
  fold_right insert_item [] items.

(** [json.dumps(d, sort_keys=True)] on a dict given by its items. *)
Definition json_dumps_sorted (items : list (str * json_value)) : str :=
  py "{"
  ++ join (py ", ")
       (List.map (fun kv => json_string (fst kv) ++ py ": " ++ json_dumps_value (snd kv))
          (sort_items items))
  ++ py "}".

(** ** Plant records *)

Record PlantData : Type := {
  plant_id : Z;
  scientific_name : str;
  common_names : list str;
  genus : str;
  family : str;
  ncbi_code : str;
  properties : list str;
  conservation_status : str;
  rarity_tier : Z
}.

(** A dict literal with distinct string keys, and [d.get(key)] on it. *)
Fixpoint dict_get {V : Type} (d : list (str * V)) (key : str) : option V :=
  match d with
  | [] => None
  | (k, v) :: rest => if decide (k = key) then Some v else dict_get rest key
  end.

Definition property_map : list (str * Z) :=
  [ (py "psychoactive", 0); (py "medicinal", 1); (py "toxic", 2);
    (py "entheogenic", 3); (py "stimulant", 4); (py "sedative", 5);
    (py "hallucinogenic", 6); (py "dissociative", 7); (py "empathogenic", 8);
    (py "analgesic", 9); (py "anti-inflammatory", 10); (py "antibacterial", 11);
    (py "antifungal", 12); (py "antiviral", 13); (py "antioxidant", 14);
    (py "neuroprotective", 15); (py "traditional", 16); (py "visionary", 17);
    (py "ceremonial", 18); (py "sacred", 19) ].

Definition status_map : list (str * Z) :=
  [ (py "EX", 0); (py "EW", 1); (py "CR", 2); (py "EN", 3); (py "VU", 4);
    (py "NT", 5); (py "LC", 6); (py "DD", 7); (py "NE", 8) ].

Definition template_map : list (str * Z) :=
  [ (py "Lophophora", 0); (py "Trichocereus", 0); (py "Echinopsis", 0);
    (py "Carnegia", 0); (py "Ariocarpus", 0); (py "Epithelantha", 0);
    (py "Cannabis", 1); (py "Banisteriopsis", 1); (py "Erythroxylum", 1);
    (py "Mitragyna", 1);
    (py "Psilocybe", 2); (py "Amanita", 2); (py "Panaeolus", 2);
    (py "Conocybe", 2);
    (py "Brugmansia", 3); (py "Datura", 3); (py "Solandra", 3);
    (py "Brunfelsia", 3);
    (py "Ipomoea", 4); (py "Argyreia", 4); (py "Turbina", 4);
    (py "Phalaris", 5);
    (py "Salvia", 6); (py "Heimia", 6);
    (py "Nymphaea", 7);
    (py "Mesembryanthemum", 8) ].

(** [enumerate(l, start)] *)
Fixpoint enumerate_from {A : Type} (start : nat) (l : list A) : list (nat * A) :=
  match l with
  | [] => []
  | x :: rest => (start, x) :: enumerate_from (S start) rest
  end.

Definition enumerate {A : Type} (l : list A) : list (nat * A) :=
  enumerate_from 0 l.

Section Plants.

(** [eth_utils.keccak] on bytes, and [str.lower]. *)
Variable keccak : bytes -> bytes.
Variable lower : str -> str.

(** [keccak(text=s)] hashes the UTF-8 encoding of [s]. *)
Definition keccak_text (s : str) : result bytes :=
  let* b := encode_utf8 s in Ok (keccak b).

Definition generate_seed (self : PlantData) : result bytes :=
  let data := scientific_name self ++ py ":" ++ ncbi_code self
              ++ py ":ANDE:Genesis:2024:Block0" in
  keccak_text data.

Definition generate_traits (self : PlantData) : result (list Z) :=
  let* seed := generate_seed self in
  Ok (List.map
        (fun i : Z =>
           let trait_seed := keccak (seed ++ [byte_of_Z i]) in
           from_bytes_big (take 1 trait_seed))
        (seqZ 0 8)).

Definition pack_slot1 (self : PlantData) : result bytes := generate_seed self.

Definition pack_slot2 (self : PlantData) : result bytes :=
  let* encoded := encode_utf8 (scientific_name self) in
  let name_bytes := take 32 encoded in
  Ok (ljust 32 name_bytes).

Definition _encode_properties (self : PlantData) : Z :=
  fold_left
    (fun bitfield prop =>
       match dict_get property_map (lower prop) with
       | Some bit_index => Z.lor bitfield (Z.shiftl 1 bit_index)
       | None => bitfield
       end)
    (properties self) 0.

Definition _encode_conservation (self : PlantData) : Z :=
  match dict_get status_map (conservation_status self) with
  | Some code => code
  | None => 8
  end.

Definition _get_template_id (self : PlantData) : Z :=
  match dict_get template_map (genus self) with
  | Some template => template
  | None => 9
  end.

Definition pack_slot3 (self : PlantData) : result bytes :=
  let packed := replicate 32 x00 in
  (* bytes 0-7: NCBI code *)
  let* encoded := encode_utf8 (ncbi_code self) in
  let ncbi_bytes := take 8 encoded in
  let packed := set_slice 0 8 (ljust 8 ncbi_bytes) packed in
  (* bytes 8-11: hash of the common names *)
  let common_text := join (py ",") (common_names self) in
  let* digest := keccak_text common_text in
  let common_hash := take 4 digest in
  let packed := set_slice 8 12 common_hash packed in
  (* bytes 12-19: 8 traits *)
  let* traits := generate_traits self in
  let* packed :=
    for_each (fun buf it => set_item (12 + fst it) (snd it) buf)
      (enumerate traits) packed in
  (* bytes 20-23: properties bitfield *)
  let properties_bits := _encode_properties self in
  let* field := to_bytes_big 4 properties_bits in
  let packed := set_slice 20 24 field packed in
  (* byte 24: rarity tier; byte 25: conservation status *)
  let* packed := set_item 24 (rarity_tier self) packed in
  let* packed := set_item 25 (_encode_conservation self) packed in
  (* bytes 26-27: reserved *)
  let packed := set_slice 26 28 [x00; x00] packed in
  (* bytes 28-31: CRC32 of bytes 0-27 *)
  let checksum := Z.land (crc32 (take 28 packed)) 0xFFFFFFFF in
  let* field := to_bytes_big 4 checksum in
  let packed := set_slice 28 32 field packed in
  Ok packed.

Definition metadata (self : PlantData) : list (str * json_value) :=
  [ (py "scientificName", JStr (scientific_name self));
    (py "commonNames", JList (common_names self));
    (py "genus", JStr (genus self));
    (py "family", JStr (family self));
    (py "properties", JList (properties self)) ].

Definition pack_slot4 (self : PlantData) : result bytes :=
  let metadata_json := json_dumps_sorted (metadata self) in
  let* metadata_hash := keccak_text metadata_json in
  let packed := metadata_hash in
  let* packed := set_item 0 (_get_template_id self) packed in
  Ok packed.

Definition base_slot (self : PlantData) : Z := 0x10 + (plant_id self - 1) * 4.

Definition to_storage_slots (self : PlantData) : result (gmap str str) :=
  let base_slot := base_slot self in
  let* slot1 := pack_slot1 self in
  let* slot2 := pack_slot2 self in
  let* slot3 := pack_slot3 self in
  let* slot4 := pack_slot4 self in
  Ok (<[hex (base_slot + 3) := to_hex slot4]>
      (<[hex (base_slot + 2) := to_hex slot3]>
       (<[hex (base_slot + 1) := to_hex slot2]>
        (<[hex (base_slot + 0) := to_hex slot1]> ∅)))).

(** [[plant.generate_seed() for plant in plants]] *)
Fixpoint plant_seeds (plants : list PlantData) : result (list bytes) :=
  match plants with
  | [] => Ok []
  | plant :: rest =>
      let* seed := generate_seed plant in
      let* seeds := plant_seeds rest in
      Ok (seed :: seeds)
  end.

(** [generate_genesis_storage]; [now] is the reading of [time.time()]. *)
Definition generate_genesis_storage (now : Z) (plants : list PlantData)
  : result (gmap str str) :=
  let storage : gmap str str := ∅ in
  let storage := <[py "0x0" := to_hex (ljust 32 (pyb "Sonk'o wachary"))]> storage in
  let storage := <[py "0x1" := to_hex (ljust 32 (pyb "NCBI.nlm.nih.gov"))]> storage in
  let* count := to_bytes_big 32 (Z.of_nat (length plants)) in
  let storage := <[py "0x2" := to_hex count]> storage in
  let* seeds := plant_seeds plants in
  let* merkle_root := calculate_merkle_root keccak seeds in
  let storage := <[py "0x3" := to_hex merkle_root]> storage in
  let genesis_time := now in
  let* stamp := to_bytes_big 32 genesis_time in
  let storage := <[py "0x4" := to_hex stamp]> storage in
  let version := 1 in
  let flags := 0 in
  let version_data := Z.lor (Z.shiftl version 8) flags in
  let* vbytes := to_bytes_big 32 version_data in
  let storage := <[py "0x5" := to_hex vbytes]> storage in
  for_each
    (fun storage plant =>
       let* plant_slots := to_storage_slots plant in
       Ok (plant_slots ∪ storage))
    plants storage.

End Plants.

(** ** Strings of the runtime, as the parser of the seeds script uses them *)

(** [str.isspace] of a code point: the white space that [str.strip()] takes
    off. *)
Definition is_space (c : N) : bool :=
  ((0x09 <=? c) && (c <=? 0x0D) || (0x1C <=? c) && (c <=? 0x20)
   || (c =? 0x85) || (c =? 0xA0) || (c =? 0x1680)
   || (0x2000 <=? c) && (c <=? 0x200A)
   || (c =? 0x2028) || (c =? 0x2029) || (c =? 0x202F) || (c =? 0x205F)
   || (c =? 0x3000))%N.

Fixpoint lstrip (s : str) : str :=
  match s with
  | c :: rest => if is_space c then lstrip rest else s
  | [] => []
  end.

Definition rstrip (s : str) : str := rev (lstrip (rev s)).

(** [s.strip()] *)
Definition strip (s : str) : str := rstrip (lstrip s).

(** [s.startswith(prefix)] *)
Fixpoint startswith (s prefix : str) : bool :=
  match prefix, s with
  | [], _ => true
  | p :: prefix', c :: s' => (c =? p)%N && startswith s' prefix'
  | _ :: _, [] => false
  end.

(** [sub in s] *)
Fixpoint contains (s sub : str) : bool :=
  startswith s sub
  || match s with
     | [] => false
     | _ :: rest => contains rest sub
     end.

(** [s.split(sep)] for a non-empty [sep], scanning from the left: [cur] is the
    piece being read and [skip] counts the characters of a separator just
    found that are still to be passed over. *)
Fixpoint split_loop (sep s : str) (skip : nat) (cur : str) : list str :=
  match s with
  | [] => [cur]
  | c :: rest =>
      match skip with
      | S k => split_loop sep rest k cur
      | O =>
          if startswith s sep
          then cur :: split_loop sep rest (length sep - 1) []
          else split_loop sep rest 0 (cur ++ [c])
      end
  end.

Definition split (s sep : str) : list str := split_loop sep s 0 [].

(** [s.replace(old, new)] for a non-empty [old]. *)
Fixpoint replace_loop (old new s : str) (skip : nat) : str :=
  match s with
  | [] => []
  | c :: rest =>
      match skip with
      | S k => replace_loop old new rest k
      | O =>
          if startswith s old
          then new ++ replace_loop old new rest (length old - 1)
          else c :: replace_loop old new rest 0
      end
  end.

Definition replace (s old new : str) : str := replace_loop old new s 0.

(** [l[i]] for a constant index [i >= 0]. *)
Definition get_item {A : Type} (l : list A) (i : nat) : result A :=
  match l !! i with
  | Some x => Ok x
  | None => Raise IndexError
  end.

(** [x or default] on a string that may be [None]. *)
Definition or_else (x : option str) (default : str) : str :=
  match x with
  | None | Some [] => default
  | Some s => s
  end.

(** A string that neither starts nor ends with white space. *)
Definition trimmed (s : str) : Prop :=
  forall c : N, head s = Some c \/ last s = Some c -> is_space c = false.

(** The characters of [str(n)]: the digits and the minus sign. *)
Definition numeral_char (c : N) : bool :=
  ((c =? 45) || (48 <=? c) && (c <=? 57))%N.

(** ** The proofs file of [export_merkle_proofs] *)

(** An entry of the dict of [export_merkle_proofs]. *)
Record proof_entry : Type := {
  entry_scientificName : str;
  entry_seed : str;
  entry_proof : list str
}.

(** The body of the loop of [export_merkle_proofs] over [enumerate(plants)]. *)
Definition export_merkle_proofs_body (keccak : bytes -> bytes)
  (plant_seeds : list bytes) (proofs : gmap str proof_entry)
  (item : nat * PlantData) : result (gmap str proof_entry) :=
  let i := Z.of_nat (fst item) in
  let plant := snd item in
  let proof := generate_merkle_proof keccak plant_seeds i in
  let* seed := generate_seed keccak plant in
  Ok (<[str_of_int (plant_id plant) :=
          {| entry_scientificName := scientific_name plant;
             entry_seed := to_hex seed;
             entry_proof := proof |}]> proofs).

(** The [proofs] dict that [export_merkle_proofs] builds and dumps; the writing
    of the file is left out. *)
Definition export_merkle_proofs (keccak : bytes -> bytes)
  (plants : list PlantData) : result (gmap str proof_entry) :=
  let* plant_seeds := plant_seeds keccak plants in
  for_each (export_merkle_proofs_body keccak plant_seeds) (enumerate plants) ∅.

(** ** The seed of [generate-genesis-seeds.py] *)

Module Seeds.

(** The [plant] dict, with the keys the parser of the script fills. *)
Record plant_dict : Type := {
  scientific_name : str;
  common_names : list str;
  genus : str;
  family : str
}.

(** The fixed head of [seed_input]: all of it but the id. *)
Definition seed_prefix (plant : plant_dict) : str :=
  scientific_name plant ++ py ":" ++ genus plant ++ py ":"
  ++ py "ANDE:Genesis:2025:Block0:".

Definition seed_input (plant : plant_dict) (plant_id : Z) : str :=
  scientific_name plant ++ py ":" ++ genus plant ++ py ":"
  ++ py "ANDE:Genesis:2025:Block0:" ++ str_of_int plant_id.

(** [generate_seed(plant, plant_id)]: a hex string. *)
Definition generate_seed (keccak : bytes -> bytes) (plant : plant_dict)
  (plant_id : Z) : result str :=
  let* seed_bytes := keccak_text keccak (seed_input plant plant_id) in
  Ok (to_hex seed_bytes).

(** *** The parser and the slots

    [parse_plantas_md] and [generate_all_seeds]. The lines they print are left
    out; [content] is the text that [read_text()] returns, and the exit of the
    script on a missing file is not modelled. *)

Definition TOTAL_PLANTS : Z := 520.

(** The variables of the loop of [parse_plantas_md]. *)
Record parser_state : Type := {
  parsed : list plant_dict;
  current_genus : option str;
  current_family : option str
}.

(** The bullet U+2022 that opens a species line. *)
Definition bullet : str := [8226%N].

(** The body of the loop over the lines of the file. *)
Definition parse_line (state : parser_state) (line : str) : result parser_state :=
  let line := strip line in
  if startswith line (py "##") && contains line (py "Family:") then
    let* part := get_item (split line (py "Family:")) 1 in
    Ok {| parsed := parsed state;
          current_genus := current_genus state;
          current_family := Some (strip part) |}
  else if startswith line (py "###") then
    Ok {| parsed := parsed state;
          current_genus := Some (strip (replace line (py "###") []));
          current_family := current_family state |}
  else if startswith line bullet then
    if contains line (py "*") then
      let parts := split line (py "*") in
      if (3 <=? length parts)%nat then
        let* part := get_item parts 1 in
        let scientific_name := strip part in
        let* common_names :=
          if contains line (py "(") && contains line (py ")") then
            let* opened := get_item (split line (py "(")) 1 in
            let* common_part := item0 (split opened (py ")")) in
            Ok (List.map strip (split common_part (py ",")))
          else Ok [] in
        Ok {| parsed :=
                parsed state
                ++ [ {| scientific_name := scientific_name;
                        common_names := common_names;
                        genus := or_else (current_genus state) (py "Unknown");
                        family := or_else (current_family state) (py "Unknown")
                     |} ];
              current_genus := current_genus state;
              current_family := current_family state |}
      else Ok state
    else Ok state
  else Ok state.

(** The plant that fills position [i] when the file has too few species. *)
Definition filler (i : Z) : plant_dict :=
  {| scientific_name := py "Planta medicinae sp. " ++ str_of_int (i + 1);
     common_names := [py "Medicinal Plant " ++ str_of_int (i + 1)];
     genus := py "Planta";
     family := py "Medicinae" |}.

Definition parse_plantas_md (content : str) : result (list plant_dict) :=
  let* state :=
    for_each parse_line (split content [10%N])
             {| parsed := []; current_genus := None; current_family := None |} in
  let plants := parsed state in
  let plants :=
    if Z.of_nat (length plants) <? TOTAL_PLANTS
    then plants
         ++ List.map filler
              (seqZ (Z.of_nat (length plants))
                    (TOTAL_PLANTS - Z.of_nat (length plants)))
    else plants in
  Ok (take (Z.to_nat TOTAL_PLANTS) plants).

Definition SEED_START_SLOT : Z := 0x100.

(** An entry of [seeds_metadata]. *)
Record seed_metadata : Type := {
  meta_id : Z;
  meta_slot : str;
  meta_seed : str;
  meta_scientific_name : str;
  meta_common_names : list str;
  meta_genus : str;
  meta_family : str
}.

(** The body of the loop over [enumerate(plants, start=1)]. *)
Definition generate_all_seeds_body (keccak : bytes -> bytes)
  (state : gmap str str * list seed_metadata) (item : nat * plant_dict)
  : result (gmap str str * list seed_metadata) :=
  let storage_slots := fst state in
  let seeds_metadata := snd state in
  let i := Z.of_nat (fst item) in
  let plant := snd item in
  let plant_id := i in
  let* seed := generate_seed keccak plant plant_id in
  let slot := hex (SEED_START_SLOT + (i - 1)) in
  let storage_slots := <[slot := seed]> storage_slots in
  let seeds_metadata :=
    seeds_metadata
    ++ [ {| meta_id := plant_id; meta_slot := slot; meta_seed := seed;
            meta_scientific_name := scientific_name plant;
            meta_common_names := common_names plant;
            meta_genus := genus plant;
            meta_family := family plant |} ] in
  Ok (storage_slots, seeds_metadata).

Definition generate_all_seeds (keccak : bytes -> bytes)
  (plants : list plant_dict)
  : result (gmap str str * list seed_metadata) :=
  for_each (generate_all_seeds_body keccak) (enumerate_from 1 plants) (∅, []).

(** The shape of the plants that the parser gives: a genus and a family that
    are not empty, a name without the star that delimits it, common names
    without the comma and the brackets that delimit them, and no white space
    at either end of any of them. *)
Definition well_formed (plant : plant_dict) : Prop :=
  genus plant <> [] /\ family plant <> []
  /\ trimmed (genus plant) /\ trimmed (family plant)
  /\ trimmed (scientific_name plant)
  /\ (42%N ∉ scientific_name plant)
  /\ Forall (fun name : str =>
               trimmed name /\ (44%N ∉ name) /\ (40%N ∉ name) /\ (41%N ∉ name))
            (common_names plant).

(** All characters of the strings of a plant satisfy [P]. *)
Definition plant_chars (P : N -> Prop) (plant : plant_dict) : Prop :=
  Forall P (scientific_name plant) /\ Forall P (genus plant)
  /\ Forall P (family plant)
  /\ Forall (Forall P) (common_names plant).

(** What the loop of the parser keeps true of its variables. *)
Definition state_ok (P : N -> Prop) (state : parser_state) : Prop :=
  Forall (fun plant => well_formed plant /\ plant_chars P plant) (parsed state)
  /\ (forall g, current_genus state = Some g -> trimmed g /\ Forall P g)
  /\ (forall f, current_family state = Some f -> trimmed f /\ Forall P f).

(** The slots that a run over [n] plants numbered from [start] writes. *)
Definition seed_slot_keys (start n : nat) : list str :=
  List.map (fun k : nat => hex (SEED_START_SLOT + (Z.of_nat k - 1)))
           (seq start n).

End Seeds.

(** ** Notions of the statements *)

(** A string that [encode('utf-8')] accepts: no surrogate code point. *)
Definition encodable (s : str) : bool := forallb (fun c => negb (is_surrogate c)) s.

(** A record the packer accepts: a tier that is a byte value, and no surrogate
    in the strings that are encoded. *)
Definition packable (self : PlantData) : Prop :=
  0 <= rarity_tier self < 256
  /\ encodable (scientific_name self) = true
  /\ encodable (ncbi_code self) = true
  /\ forallb encodable (common_names self) = true.

(** The buffer with bit [bit] of byte [i] inverted. *)
Definition flip_bit (i : nat) (bit : Z) (buf : bytes) : bytes :=
  match buf !! i with
  | Some b => <[i := byte_of_Z (Z.lxor (Z_of_byte b) (2 ^ bit))]> buf
  | None => buf
  end.

(** A string of ASCII characters. *)
Definition ascii_only (s : str) : bool := forallb (fun c => (c <? 128)%N) s.

(** The CRC register update on the numeric values of the bytes, and the change
    of the register caused by one inverted bit in a 28-byte buffer. *)
Definition crc_update_Z (c : Z) (zs : list Z) : Z :=
  fold_left (fun c z => Nat.iter 8 crc_shift (Z.lxor c z)) zs c.

Definition crc_syndrome (i : nat) (bit : nat) : Z :=
  crc_update_Z 0 (<[i := 2 ^ Z.of_nat bit]> (replicate 28 0)).

(** The integer slot numbers of the header and of a record. *)
Definition header_slots : list Z := [0; 1; 2; 3; 4; 5].

Definition record_slots (self : PlantData) : list Z :=
  [base_slot self + 0; base_slot self + 1; base_slot self + 2; base_slot self + 3].

Definition storage_slots (plants : list PlantData) : list Z :=
  header_slots ++ concat (List.map record_slots plants).

(** ** The plants of the source *)

(** [str.lower] on the ASCII letters, where it is a shift by 32; the strings of
    [LEGENDARY_PLANTS] are ASCII. *)
Definition lower_ascii (s : str) : str :=
  List.map (fun c => if ((65 <=? c) && (c <=? 90))%N then (c + 32)%N else c) s.

Definition LEGENDARY_PLANTS : list PlantData :=
  [ {| plant_id := 1;
       scientific_name := py "Lophophora williamsii";
       common_names := [py "Peyote"; py "Hikuri"; py "Mescal Button"];
       genus := py "Lophophora";
       family := py "Cactaceae";
       ncbi_code := py "NC030453";
       properties := [py "psychoactive"; py "entheogenic"; py "hallucinogenic";
                      py "medicinal"; py "ceremonial"];
       conservation_status := py "VU";
       rarity_tier := 3 |};
    {| plant_id := 2;
       scientific_name := py "Cannabis sativa";
       common_names := [py "Marijuana"; py "Hemp"; py "Cannabis"; py "Ganja"];
       genus := py "Cannabis";
       family := py "Cannabaceae";
       ncbi_code := py "NC044371";
       properties := [py "psychoactive"; py "medicinal"; py "analgesic";
                      py "anti-inflammatory"];
       conservation_status := py "LC";
       rarity_tier := 2 |};
    {| plant_id := 3;
       scientific_name := py "Banisteriopsis caapi";
       common_names := [py "Ayahuasca"; py "Yage"; py "Caapi"; py "Vine of the Soul"];
       genus := py "Banisteriopsis";
       family := py "Malpighiaceae";
       ncbi_code := py "NC051087";
       properties := [py "psychoactive"; py "entheogenic"; py "visionary";
                      py "medicinal"; py "ceremonial"];
       conservation_status := py "LC";
       rarity_tier := 3 |};
    {| plant_id := 4;
       scientific_name := py "Erythroxylum coca";
       common_names := [py "Coca"; py "Hoja de Coca"; py "Mama Coca"];
       genus := py "Erythroxylum";
       family := py "Erythroxylaceae";
       ncbi_code := py "NC040990";
       properties := [py "stimulant"; py "medicinal"; py "traditional"; py "sacred"];
       conservation_status := py "LC";
       rarity_tier := 3 |};
    {| plant_id := 5;
       scientific_name := py "Psilocybe cubensis";
       common_names := [py "Magic Mushroom"; py "Golden Teacher"; py "Teonanacatl"];
       genus := py "Psilocybe";
       family := py "Hymenogastraceae";
       ncbi_code := py "JAAVMF01";
       properties := [py "psychoactive"; py "entheogenic"; py "hallucinogenic";
                      py "ceremonial"];
       conservation_status := py "LC";
       rarity_tier := 2 |};
    {| plant_id := 6;
       scientific_name := py "Salvia divinorum";
       common_names := [py "Salvia"; py "Ska Maria Pastora"; py "Diviner's Sage"];
       genus := py "Salvia";
       family := py "Lamiaceae";
       ncbi_code := py "MH286334";
       properties := [py "psychoactive"; py "dissociative"; py "visionary";
                      py "ceremonial"];
       conservation_status := py "EN";
       rarity_tier := 3 |};
    {| plant_id := 7;
       scientific_name := py "Brugmansia arborea";
       common_names := [py "Floripondio"; py "Angel's Trumpet"; py "Borrachero"];
       genus := py "Brugmansia";
       family := py "Solanaceae";
       ncbi_code := py "NC";
       properties := [py "psychoactive"; py "toxic"; py "entheogenic";
                      py "medicinal"; py "ceremonial"];
       conservation_status := py "VU";
       rarity_tier := 3 |};
    {| plant_id := 8;
       scientific_name := py "Anadenanthera peregrina";
       common_names := [py "Yopo"; py "Cohoba"; py "Vilca"; py "Cebil"];
       genus := py "Anadenanthera";
       family := py "Fabaceae";
       ncbi_code := py "NC";
       properties := [py "psychoactive"; py "entheogenic"; py "hallucinogenic";
                      py "traditional"; py "ceremonial"];
       conservation_status := py "LC";
       rarity_tier := 3 |} ].

(** The first plant of the source. *)
Definition peyote : PlantData :=
  nth 0 LEGENDARY_PLANTS
    {| plant_id := 0; scientific_name := []; common_names := []; genus := [];
       family := []; ncbi_code := []; properties := []; conservation_status := [];
       rarity_tier := 0 |}.

(** The leaves of the Merkle tree of the source: the seeds of its plants. *)
Definition legendary_seeds : list bytes :=
  match plant_seeds Keccak.keccak256 LEGENDARY_PLANTS with
  | Ok seeds => seeds
  | Raise _ => []
  end.

(** A plant of the seeds script. *)
Definition coca : Seeds.plant_dict :=
  {| Seeds.scientific_name := py "Erythroxylum coca";
     Seeds.common_names := [py "Coca"];
     Seeds.genus := py "Erythroxylum";
     Seeds.family := py "Erythroxylaceae" |}.

(** A record as the first plant, with another value of one field. *)
Definition with_plant_id (id : Z) (p : PlantData) : PlantData :=
  {| plant_id := id; scientific_name := scientific_name p;
     common_names := common_names p; genus := genus p; family := family p;
     ncbi_code := ncbi_code p; properties := properties p;
     conservation_status := conservation_status p; rarity_tier := rarity_tier p |}.

Definition with_scientific_name (name : str) (p : PlantData) : PlantData :=
  {| plant_id := plant_id p; scientific_name := name;
     common_names := common_names p; genus := genus p; family := family p;
     ncbi_code := ncbi_code p; properties := properties p;
     conservation_status := conservation_status p; rarity_tier := rarity_tier p |}.

Definition with_rarity_tier (tier : Z) (p : PlantData) : PlantData :=
  {| plant_id := plant_id p; scientific_name := scientific_name p;
     common_names := common_names p; genus := genus p; family := family p;
     ncbi_code := ncbi_code p; properties := properties p;
     conservation_status := conservation_status p; rarity_tier := tier |}.

(** ** Notions of the further properties *)

(** The strings of a record that are encoded can be encoded. *)
Definition strings_encodable (self : PlantData) : bool :=
  encodable (scientific_name self) && encodable (ncbi_code self)
  && forallb encodable (common_names self).

(** Two plants of the seeds script, and a species line of its input file. *)
Definition seed_plants : list Seeds.plant_dict := [coca; Seeds.filler 1].

Definition species_line : str :=
  Seeds.bullet ++ py " *Erythroxylum coca* (Coca, Hoja de coca)".

(** * Properties *)

(** ** Hexadecimal text *)

Lemma unhex_hex_of_byte (b : byte) (digits : str) :
  unhex (hex_of_byte b ++ digits)
  = match unhex digits with Some bs => Some (b :: bs) | None => None end.
Proof. destruct b; reflexivity. Qed.

Lemma unhex_flat_map (b : bytes) : unhex (flat_map hex_of_byte b) = Some b.
Proof.
  induction b as [|x b IH]; [reflexivity|].
  change (flat_map hex_of_byte (x :: b))
    with (hex_of_byte x ++ flat_map hex_of_byte b).
  rewrite unhex_hex_of_byte, IH. reflexivity.
Qed.

Lemma from_hex_to_hex (b : bytes) : from_hex (to_hex b) = Some b.
Proof. unfold to_hex. simpl. apply unhex_flat_map. Qed.

Lemma to_hex_inj (a b : bytes) : to_hex a = to_hex b -> a = b.
Proof.
  intros H. apply (f_equal from_hex) in H.
  rewrite !from_hex_to_hex in H. congruence.
Qed.

Lemma from_hex_all_to_hex (l : list bytes) :
  from_hex_all (List.map to_hex l) = Some l.
Proof.
  induction l as [|b l IH]; [reflexivity|].
  simpl List.map. cbn [from_hex_all]. rewrite from_hex_to_hex, IH. reflexivity.
Qed.

(** ** Merkle root *)

Section MerkleFacts.

Variable keccak : bytes -> bytes.

Lemma next_level_nonempty (l : list bytes) :
  l <> [] -> next_level keccak l <> [].
Proof. destruct l as [|a [|b rest]]; simpl; congruence. Qed.

Lemma next_level_pair (l : list bytes) (k : nat) (x y : bytes) :
  l !! (2 * k)%nat = Some x -> l !! (2 * k + 1)%nat = Some y ->
  next_level keccak l !! k = Some (keccak (x ++ y)).
Proof.
  revert l. induction k as [|k IH]; intros l Hx Hy.
  - destruct l as [|a [|b rest]]; simpl in *; congruence.
  - destruct l as [|a [|b rest]]; try discriminate.
    replace (2 * S k)%nat with (S (S (2 * k))) in * by lia.
    simpl in *. apply IH; assumption.
Qed.

Lemma next_level_tail (l : list bytes) (k : nat) (x : bytes) :
  l !! (2 * k)%nat = Some x -> l !! (2 * k + 1)%nat = None ->
  next_level keccak l !! k = Some x.
Proof.
  revert l. induction k as [|k IH]; intros l Hx Hy.
  - destruct l as [|a [|b rest]]; simpl in *; congruence.
  - destruct l as [|a [|b rest]]; try discriminate.
    replace (2 * S k)%nat with (S (S (2 * k))) in * by lia.
    simpl in *. apply IH; assumption.
Qed.

(** The loop ends on a single node: the root. *)
Lemma merkle_loop_root (l : list bytes) :
  l <> [] -> exists root, merkle_loop keccak l = [root].
Proof.
  funelim (merkle_loop keccak l); intros Hne.
  - congruence.
  - eexists. reflexivity.
  - match goal with IH : _ -> exists _, _ |- _ => apply IH end.
    discriminate.
Qed.

Lemma calculate_merkle_root_loop (l : list bytes) :
  l <> [] -> calculate_merkle_root keccak l = item0 (merkle_loop keccak l).
Proof.
  destruct l as [|a [|b rest]]; intros Hne; try congruence; reflexivity.
Qed.

Lemma calculate_merkle_root_returns (leaves : list bytes) :
  returns (calculate_merkle_root keccak leaves).
Proof.
  destruct leaves as [|a [|b rest]]; try (eexists; reflexivity).
  destruct (merkle_loop_root (a :: b :: rest)) as [root Hroot]; [discriminate|].
  exists root. unfold calculate_merkle_root. rewrite Hroot. reflexivity.
Qed.

Lemma calculate_merkle_root_step (leaves : list bytes) :
  (2 <= length leaves)%nat ->
  calculate_merkle_root keccak leaves
  = calculate_merkle_root keccak (next_level keccak leaves).
Proof.
  intros Hlen. destruct leaves as [|a [|b rest]]; simpl in Hlen; try lia.
  rewrite (calculate_merkle_root_loop (next_level keccak _))
    by (apply next_level_nonempty; discriminate).
  unfold calculate_merkle_root. simp merkle_loop. reflexivity.
Qed.

(** C8: on no leaves the root is 32 zero bytes; on one leaf it is that leaf,
    not hashed. *)
Theorem calculate_merkle_root_small :
  calculate_merkle_root keccak [] = Ok (replicate 32 x00)
  /\ forall leaf : bytes, calculate_merkle_root keccak [leaf] = Ok leaf.
Proof. split; [reflexivity | intros leaf; reflexivity]. Qed.

(** C2: with two or more leaves the root is the root of the next level, whose
    node [k] is [keccak (left ++ right)] for the full pair at [2k], [2k + 1] and
    the node at [2k] itself when it has no partner, so that the level has
    [(n + 1) / 2] nodes; three leaves [A; B; C] give
    [keccak (keccak (A ++ B) ++ C)]. *)
Theorem calculate_merkle_root_levels (leaves : list bytes) :
  (2 <= length leaves)%nat ->
  (calculate_merkle_root keccak leaves
   = calculate_merkle_root keccak (next_level keccak leaves))
  /\ length (next_level keccak leaves) = ((length leaves + 1) / 2)%nat
  /\ (forall (k : nat) (x y : bytes),
        leaves !! (2 * k)%nat = Some x -> leaves !! (2 * k + 1)%nat = Some y ->
        next_level keccak leaves !! k = Some (keccak (x ++ y)))
  /\ (forall (k : nat) (x : bytes),
        leaves !! (2 * k)%nat = Some x -> leaves !! (2 * k + 1)%nat = None ->
        next_level keccak leaves !! k = Some x)
  /\ (forall A B C : bytes,
        calculate_merkle_root keccak [A; B; C]
        = Ok (keccak (keccak (A ++ B) ++ C))).
Proof.
  intros Hlen. split; [apply calculate_merkle_root_step; exact Hlen|].
  split; [apply next_level_length|].
  split; [intros k x y; apply next_level_pair|].
  split; [intros k x; apply next_level_tail|].
  intros A B C. unfold calculate_merkle_root. simp merkle_loop. reflexivity.
Qed.

(** ** Merkle proofs *)

Lemma proof_pass_cons2 (ci i : Z) (a b : bytes) (rest : list bytes)
  (proof : list str) :
  fst (proof_pass keccak ci i (a :: b :: rest) proof)
  = fst (proof_pass keccak ci (i + 2) rest
           (if ci =? i then proof ++ [to_hex b]
            else if ci =? i + 1 then proof ++ [to_hex a] else proof)).
Proof.
  simpl. destruct (proof_pass keccak ci (i + 2) rest _). reflexivity.
Qed.

(** Positions after [current_index] add nothing to the proof. *)
Lemma proof_pass_before (ci i : Z) (l : list bytes) (proof : list str) :
  ci < i -> fst (proof_pass keccak ci i l proof) = proof.
Proof.
  revert i proof.
  induction l as [l IH] using (induction_ltof1 _ (@length _)); unfold ltof in IH.
  intros i proof Hlt. destruct l as [|a [|b rest]]; try reflexivity.
  rewrite proof_pass_cons2.
  destruct (Z.eqb_spec ci i); [lia|]. destruct (Z.eqb_spec ci (i + 1)); [lia|].
  apply IH; [simpl; lia | lia].
Qed.

Lemma proof_pass_even (i : Z) (l : list bytes) (j : nat) (x y : bytes)
  (proof : list str) :
  l !! (2 * j)%nat = Some x -> l !! (2 * j + 1)%nat = Some y ->
  fst (proof_pass keccak (i + Z.of_nat (2 * j)) i l proof) = proof ++ [to_hex y].
Proof.
  revert i l. induction j as [|j IH]; intros i l Hx Hy.
  - destruct l as [|a [|b rest]]; try discriminate. simpl in Hx, Hy.
    rewrite proof_pass_cons2. replace (i + Z.of_nat (2 * 0)) with i by lia.
    rewrite Z.eqb_refl. rewrite proof_pass_before by lia. congruence.
  - destruct l as [|a [|b rest]]; try discriminate.
    replace (2 * S j)%nat with (S (S (2 * j))) in * by lia. simpl in Hx, Hy.
    rewrite proof_pass_cons2.
    destruct (Z.eqb_spec (i + Z.of_nat (S (S (2 * j)))) i); [lia|].
    destruct (Z.eqb_spec (i + Z.of_nat (S (S (2 * j)))) (i + 1)); [lia|].
    replace (i + Z.of_nat (S (S (2 * j)))) with (i + 2 + Z.of_nat (2 * j)) by lia.
    apply IH; assumption.
Qed.

Lemma proof_pass_odd (i : Z) (l : list bytes) (j : nat) (x y : bytes)
  (proof : list str) :
  l !! (2 * j)%nat = Some y -> l !! (2 * j + 1)%nat = Some x ->
  fst (proof_pass keccak (i + Z.of_nat (2 * j + 1)) i l proof)
  = proof ++ [to_hex y].
Proof.
  revert i l. induction j as [|j IH]; intros i l Hy Hx.
  - destruct l as [|a [|b rest]]; try discriminate. simpl in Hx, Hy.
    rewrite proof_pass_cons2. replace (i + Z.of_nat (2 * 0 + 1)) with (i + 1) by lia.
    destruct (Z.eqb_spec (i + 1) i); [lia|]. rewrite Z.eqb_refl.
    rewrite proof_pass_before by lia. congruence.
  - destruct l as [|a [|b rest]]; try discriminate.
    replace (2 * S j)%nat with (S (S (2 * j))) in * by lia. simpl in Hx, Hy.
    rewrite proof_pass_cons2.
    destruct (Z.eqb_spec (i + Z.of_nat (S (S (2 * j)) + 1)) i); [lia|].
    destruct (Z.eqb_spec (i + Z.of_nat (S (S (2 * j)) + 1)) (i + 1)); [lia|].
    replace (i + Z.of_nat (S (S (2 * j)) + 1))
      with (i + 2 + Z.of_nat (2 * j + 1)) by lia.
    apply IH; assumption.
Qed.

Lemma proof_pass_tail (i : Z) (l : list bytes) (j : nat) (x : bytes)
  (proof : list str) :
  l !! (2 * j)%nat = Some x -> l !! (2 * j + 1)%nat = None ->
  fst (proof_pass keccak (i + Z.of_nat (2 * j)) i l proof) = proof.
Proof.
  revert i l. induction j as [|j IH]; intros i l Hx Hy.
  - destruct l as [|a [|b rest]]; try discriminate. reflexivity.
  - destruct l as [|a [|b rest]]; try discriminate.
    replace (2 * S j)%nat with (S (S (2 * j))) in * by lia. simpl in Hx, Hy.
    rewrite proof_pass_cons2.
    destruct (Z.eqb_spec (i + Z.of_nat (S (S (2 * j)))) i); [lia|].
    destruct (Z.eqb_spec (i + Z.of_nat (S (S (2 * j)))) (i + 1)); [lia|].
    replace (i + Z.of_nat (S (S (2 * j)))) with (i + 2 + Z.of_nat (2 * j)) by lia.
    apply IH; assumption.
Qed.

Lemma verify_loop_stop (running : bytes) (index count : Z) :
  count <= 1 -> verify_loop keccak running index [] count = Some running.
Proof.
  intros Hc. rewrite verify_loop_equation_1. destruct (decide (1 < count)); [lia|reflexivity].
Qed.

Lemma verify_loop_odd (running sibling : bytes) (index count : Z)
  (rest : list bytes) :
  1 < count -> Z.odd index = true ->
  verify_loop keccak running index (sibling :: rest) count
  = verify_loop keccak (keccak (sibling ++ running)) (index / 2) rest
      ((count + 1) / 2).
Proof.
  intros Hc Ho. rewrite verify_loop_equation_1. destruct (decide (1 < count)); [|lia].
  simpl. rewrite Ho. reflexivity.
Qed.

Lemma verify_loop_even (running sibling : bytes) (index count : Z)
  (rest : list bytes) :
  1 < count -> Z.odd index = false -> index + 1 < count ->
  verify_loop keccak running index (sibling :: rest) count
  = verify_loop keccak (keccak (running ++ sibling)) (index / 2) rest
      ((count + 1) / 2).
Proof.
  intros Hc Ho Hlt. rewrite verify_loop_equation_1. destruct (decide (1 < count)); [|lia].
  simpl. rewrite Ho. destruct (Z.ltb_spec (index + 1) count); [reflexivity|lia].
Qed.

Lemma verify_loop_promoted (running : bytes) (index count : Z)
  (proof : list bytes) :
  1 < count -> Z.odd index = false -> count <= index + 1 ->
  verify_loop keccak running index proof count
  = verify_loop keccak running (index / 2) proof ((count + 1) / 2).
Proof.
  intros Hc Ho Hlt. rewrite verify_loop_equation_1. destruct (decide (1 < count)); [|lia].
  simpl. rewrite Ho. destruct (Z.ltb_spec (index + 1) count); [lia|reflexivity].
Qed.

Lemma Z_odd_double (j : nat) : Z.odd (Z.of_nat (2 * j)) = false.
Proof.
  replace (Z.of_nat (2 * j)) with (0 + 2 * Z.of_nat j) by lia.
  rewrite Z.odd_add_mul_2. reflexivity.
Qed.

Lemma Z_odd_double_succ (j : nat) : Z.odd (Z.of_nat (2 * j + 1)) = true.
Proof.
  replace (Z.of_nat (2 * j + 1)) with (1 + 2 * Z.of_nat j) by lia.
  rewrite Z.odd_add_mul_2. reflexivity.
Qed.

Lemma next_level_count (l : list bytes) :
  Z.of_nat (length (next_level keccak l)) = (Z.of_nat (length l) + 1) / 2.
Proof. rewrite next_level_length, Nat2Z.inj_div. f_equal. lia. Qed.

(** The siblings collected by [proof_loop] from a level, replayed by
    [verify_loop] from the node at [k], lead to the node the root loop ends on. *)
Lemma proof_loop_replay (n : nat) :
  forall (l : list bytes), length l = n ->
  forall (k : nat) (x : bytes) (acc : list str), l !! k = Some x ->
  exists (path : list bytes) (root : bytes),
    proof_loop keccak acc (Z.of_nat k) l = acc ++ List.map to_hex path
    /\ merkle_loop keccak l = [root]
    /\ verify_loop keccak x (Z.of_nat k) path (Z.of_nat (length l)) = Some root.
Proof.
  induction n as [n IH] using lt_wf_ind. intros l Hn k x acc Hk.
  destruct l as [|a [|b rest]]; [discriminate| |].
  - destruct k as [|k]; [|discriminate]. injection Hk as ->.
    exists [], x. simp proof_loop merkle_loop. rewrite app_nil_r.
    split; [reflexivity|]. split; [reflexivity|].
    apply verify_loop_stop. simpl. lia.
  - set (L := a :: b :: rest) in *.
    assert (Hshort : (length (next_level keccak L) < n)%nat)
      by (rewrite <- Hn; apply next_level_shorter).
    assert (Hcount : 1 < Z.of_nat (length L)) by (simpl; lia).
    assert (Hloop : forall acc' ci,
               proof_loop keccak acc' ci L
               = proof_loop keccak (fst (proof_pass keccak ci 0 L acc'))
                   (ci / 2) (next_level keccak L)).
    { intros acc' ci. unfold L at 1. simp proof_loop.
      rewrite proof_pass_next. reflexivity. }
    assert (Hroot : merkle_loop keccak L = merkle_loop keccak (next_level keccak L))
      by (unfold L at 1; simp merkle_loop; reflexivity).
    rewrite Hloop, Hroot.
    destruct (Nat.Even_or_Odd k) as [[j ->]|[j ->]].
    + destruct (L !! (2 * j + 1)%nat) as [y|] eqn:Hy.
      * pose proof (proof_pass_even 0 L j x y acc Hk Hy) as Hpass.
        rewrite Z.add_0_l in Hpass. rewrite Hpass.
        destruct (IH _ Hshort (next_level keccak L) eq_refl j
                    (keccak (x ++ y)) (acc ++ [to_hex y])
                    (next_level_pair L j x y Hk Hy))
          as (path & root & Hp & Hr & Hv).
        exists (y :: path), root.
        replace (Z.of_nat (2 * j) / 2) with (Z.of_nat j) by div_lia.
        rewrite Hp, <- app_assoc. repeat split; [exact Hr|].
        rewrite verify_loop_even; [|exact Hcount|apply Z_odd_double|].
        -- replace (Z.of_nat (2 * j) / 2) with (Z.of_nat j) by div_lia.
           rewrite <- next_level_count. exact Hv.
        -- apply lookup_lt_Some in Hy. lia.
      * pose proof (proof_pass_tail 0 L j x acc Hk Hy) as Hpass.
        rewrite Z.add_0_l in Hpass. rewrite Hpass.
        destruct (IH _ Hshort (next_level keccak L) eq_refl j x acc
                    (next_level_tail L j x Hk Hy))
          as (path & root & Hp & Hr & Hv).
        exists path, root.
        replace (Z.of_nat (2 * j) / 2) with (Z.of_nat j) by div_lia.
        repeat split; [exact Hp|exact Hr|].
        rewrite verify_loop_promoted; [|exact Hcount|apply Z_odd_double|].
        -- replace (Z.of_nat (2 * j) / 2) with (Z.of_nat j) by div_lia.
           rewrite <- next_level_count. exact Hv.
        -- apply lookup_ge_None in Hy. lia.
    + destruct (L !! (2 * j)%nat) as [y|] eqn:Hy;
        [|apply lookup_ge_None in Hy; apply lookup_lt_Some in Hk; lia].
      pose proof (proof_pass_odd 0 L j x y acc Hy Hk) as Hpass.
      rewrite Z.add_0_l in Hpass. rewrite Hpass.
      destruct (IH _ Hshort (next_level keccak L) eq_refl j
                  (keccak (y ++ x)) (acc ++ [to_hex y])
                  (next_level_pair L j y x Hy Hk))
        as (path & root & Hp & Hr & Hv).
      exists (y :: path), root.
      replace (Z.of_nat (2 * j + 1) / 2) with (Z.of_nat j) by div_lia.
      rewrite Hp, <- app_assoc. repeat split; [exact Hr|].
      rewrite verify_loop_odd; [|exact Hcount|apply Z_odd_double_succ].
      replace (Z.of_nat (2 * j + 1) / 2) with (Z.of_nat j) by div_lia.
      rewrite <- next_level_count. exact Hv.
Qed.

(** C1: for a non-empty list of leaves and an index in range, the proof of
    [generate_merkle_proof] verifies against the root of
    [calculate_merkle_root]: the root is returned, and replaying the pairing
    from the leaf at the index gives exactly that root. *)
Theorem merkle_proof_verifies (leaves : list bytes) (index : Z) (leaf : bytes) :
  0 <= index < Z.of_nat (length leaves) ->
  leaves !! Z.to_nat index = Some leaf ->
  exists root : bytes,
    calculate_merkle_root keccak leaves = Ok root
    /\ verify keccak leaf index (generate_merkle_proof keccak leaves index) root
         (Z.of_nat (length leaves)) = true.
Proof.
  intros Hrange Hleaf.
  destruct (proof_loop_replay (length leaves) leaves eq_refl (Z.to_nat index)
              leaf [] Hleaf) as (path & root & Hp & Hr & Hv).
  rewrite Z2Nat.id in Hp, Hv by lia. simpl in Hp.
  exists root. split.
  - rewrite calculate_merkle_root_loop by (intros ->; simpl in Hrange; lia).
    rewrite Hr. reflexivity.
  - unfold verify, generate_merkle_proof.
    destruct (Z.ltb_spec index 0); [lia|].
    destruct (Z.leb_spec (Z.of_nat (length leaves)) index); [lia|].
    simpl. rewrite Hp, from_hex_all_to_hex, Hv.
    apply bool_decide_eq_true. reflexivity.
Qed.

(** C7: an index at or beyond the number of leaves gives the empty proof; the
    function has no raising operation, its result is a plain list. *)
Theorem generate_merkle_proof_out_of_range (leaves : list bytes) (index : Z) :
  Z.of_nat (length leaves) <= index ->
  generate_merkle_proof keccak leaves index = [].
Proof.
  intros Hge. unfold generate_merkle_proof.
  destruct (Z.leb_spec (Z.of_nat (length leaves)) index); [reflexivity|lia].
Qed.

End MerkleFacts.

(** ** Lookup tables and the property bitfield *)

Lemma dict_get_In {V : Type} (d : list (str * V)) (key : str) (v : V) :
  dict_get d key = Some v -> In v (List.map snd d).
Proof.
  induction d as [|[k w] d IH]; simpl; [discriminate|].
  destruct (decide (k = key)); [intros [= ->]; left; reflexivity|].
  intros H. right. apply IH. exact H.
Qed.

Lemma property_map_range (key : str) (bit_index : Z) :
  dict_get property_map key = Some bit_index -> 0 <= bit_index < 20.
Proof.
  intros H. apply dict_get_In in H. simpl in H.
  repeat (destruct H as [<-|H]; [lia|]). contradiction.
Qed.

Lemma status_map_range (key : str) (code : Z) :
  dict_get status_map key = Some code -> 0 <= code < 9.
Proof.
  intros H. apply dict_get_In in H. simpl in H.
  repeat (destruct H as [<-|H]; [lia|]). contradiction.
Qed.

Lemma template_map_range (key : str) (template : Z) :
  dict_get template_map key = Some template -> 0 <= template < 9.
Proof.
  intros H. apply dict_get_In in H. simpl in H.
  repeat (destruct H as [<-|H]; [lia|]). contradiction.
Qed.

Lemma Z_lor_below (n a b : Z) :
  0 <= n -> 0 <= a < 2 ^ n -> 0 <= b < 2 ^ n -> 0 <= Z.lor a b < 2 ^ n.
Proof.
  intros Hn Ha Hb.
  assert (Hnn : 0 <= Z.lor a b) by (apply Z.lor_nonneg; lia).
  split; [exact Hnn|].
  destruct (Z.eq_dec (Z.lor a b) 0) as [->|Hne]; [lia|].
  assert (Hpos : 0 < n).
  { destruct (Z.eq_dec n 0) as [->|]; [|lia].
    assert (a = 0) by lia. assert (b = 0) by lia. subst.
    exfalso. apply Hne. reflexivity. }
  apply Z.log2_lt_pow2; [lia|]. rewrite Z.log2_lor by lia.
  apply Z.max_lub_lt.
  - destruct (Z.eq_dec a 0) as [->|]; [exact Hpos|apply Z.log2_lt_pow2; lia].
  - destruct (Z.eq_dec b 0) as [->|]; [exact Hpos|apply Z.log2_lt_pow2; lia].
Qed.

Lemma length_be_bytes (len : nat) (n : Z) : length (be_bytes len n) = len.
Proof.
  revert n. induction len as [|len IH]; intros n; [reflexivity|].
  simpl. rewrite length_app, IH. simpl. lia.
Qed.

Lemma to_bytes_big_in_range (len : nat) (n : Z) :
  0 <= n < 256 ^ Z.of_nat len -> to_bytes_big len n = Ok (be_bytes len n).
Proof.
  intros Hn. unfold to_bytes_big.
  destruct (Z.ltb_spec n 0); [lia|].
  destruct (Z.leb_spec (256 ^ Z.of_nat len) n); [lia|]. reflexivity.
Qed.

Section PropertyBits.

Variable lower : str -> str.

Lemma encode_properties_fold (props : list str) (start : Z) :
  0 <= start < 2 ^ 20 ->
  0 <= fold_left
         (fun bitfield prop =>
            match dict_get property_map (lower prop) with
            | Some bit_index => Z.lor bitfield (Z.shiftl 1 bit_index)
            | None => bitfield
            end) props start < 2 ^ 20.
Proof.
  revert start. induction props as [|prop props IH]; intros start Hs; [exact Hs|].
  cbn [fold_left]. apply IH.
  destruct (dict_get property_map (lower prop)) as [bit_index|] eqn:Hget; [|exact Hs].
  apply property_map_range in Hget.
  apply Z_lor_below; [lia|exact Hs|].
  rewrite Z.shiftl_1_l. split; [apply Z.pow_nonneg; lia|].
  apply Z.pow_lt_mono_r; lia.
Qed.

Lemma encode_properties_range (self : PlantData) :
  0 <= _encode_properties lower self < 2 ^ 20.
Proof. apply encode_properties_fold. lia. Qed.

Lemma encode_properties_fits (self : PlantData) :
  to_bytes_big 4 (_encode_properties lower self)
  = Ok (be_bytes 4 (_encode_properties lower self)).
Proof.
  apply to_bytes_big_in_range. pose proof (encode_properties_range self).
  change (256 ^ Z.of_nat 4) with 4294967296. lia.
Qed.

(** C9: the property bitfield is below [2^20]: only the bits 0 to 19 can be
    set, and its 4-byte big-endian encoding never overflows. *)
Theorem encode_properties_below_2_20 (self : PlantData) :
  0 <= _encode_properties lower self < 2 ^ 20
  /\ (forall k : Z, Z.testbit (_encode_properties lower self) k = true -> 0 <= k < 20)
  /\ to_bytes_big 4 (_encode_properties lower self)
     = Ok (be_bytes 4 (_encode_properties lower self))
  /\ length (be_bytes 4 (_encode_properties lower self)) = 4%nat.
Proof.
  pose proof (encode_properties_range self) as Hb.
  split; [exact Hb|]. split; [|split].
  - intros k Hk. destruct (Z.ltb_spec k 0) as [Hneg|Hnn].
    + rewrite Z.testbit_neg_r in Hk by exact Hneg. discriminate.
    + split; [exact Hnn|]. destruct (Z.ltb_spec k 20) as [|Hge]; [assumption|].
      rewrite Z.bits_above_log2 in Hk; [discriminate|lia|].
      destruct (Z.eq_dec (_encode_properties lower self) 0) as [->|]; [simpl; lia|].
      apply Z.lt_le_trans with 20; [|exact Hge].
      apply Z.log2_lt_pow2; lia.
  - apply encode_properties_fits.
  - apply length_be_bytes.
Qed.

End PropertyBits.

(** ** The error monad, UTF-8 and buffers *)

Lemma bind_Ok {A B : Type} (m : result A) (k : A -> result B) (b : B) :
  bind m k = Ok b -> exists a, m = Ok a /\ k a = Ok b.
Proof. destruct m as [a|e]; simpl; [intros H; exists a; auto | discriminate]. Qed.

Lemma Ok_inj {A : Type} (a b : A) : Ok a = Ok b -> a = b.
Proof. congruence. Qed.

Ltac bind_inv H :=
  let a := fresh "v" in
  let Ha := fresh "Hv" in
  apply bind_Ok in H; destruct H as (a & Ha & H).

Lemma utf8_char_returns (c : N) :
  is_surrogate c = false -> returns (utf8_char c).
Proof.
  intros Hc. unfold utf8_char. rewrite Hc.
  repeat match goal with |- context [if ?b then _ else _] => destruct b end;
    eexists; reflexivity.
Qed.

Lemma encodable_cons (c : N) (s : str) :
  encodable (c :: s) = true <-> is_surrogate c = false /\ encodable s = true.
Proof.
  unfold encodable. simpl. rewrite andb_true_iff, negb_true_iff. reflexivity.
Qed.

Lemma encodable_app (a b : str) :
  encodable (a ++ b) = true <-> encodable a = true /\ encodable b = true.
Proof. unfold encodable. rewrite forallb_app, andb_true_iff. reflexivity. Qed.

Lemma encode_utf8_returns (s : str) :
  encodable s = true -> returns (encode_utf8 s).
Proof.
  induction s as [|c s IH]; intros He; [eexists; reflexivity|].
  apply encodable_cons in He as [Hc Hs].
  destruct (utf8_char_returns c Hc) as [b Hb].
  destruct (IH Hs) as [bs Hbs].
  exists (b ++ bs). simpl. rewrite Hb. simpl. rewrite Hbs. reflexivity.
Qed.

Lemma forallb_join (P : N -> bool) (sep : str) (parts : list str) :
  forallb P sep = true -> forallb (forallb P) parts = true ->
  forallb P (join sep parts) = true.
Proof.
  intros Hsep. induction parts as [|p parts IH]; [reflexivity|].
  simpl forallb. rewrite andb_true_iff. intros [Hp Hps].
  destruct parts as [|q parts]; [exact Hp|].
  change (join sep (p :: q :: parts)) with (p ++ sep ++ join sep (q :: parts)).
  rewrite !forallb_app, Hp, Hsep, (IH Hps). reflexivity.
Qed.

Lemma encodable_join (sep : str) (parts : list str) :
  encodable sep = true -> forallb encodable parts = true ->
  encodable (join sep parts) = true.
Proof. apply forallb_join. Qed.

Lemma encode_utf8_ascii (s : str) :
  ascii_only s = true -> encode_utf8 s = Ok (List.map byte_of_N s).
Proof.
  induction s as [|c s IH]; [reflexivity|].
  unfold ascii_only. simpl forallb. rewrite andb_true_iff. intros [Hc Hs].
  simpl. unfold utf8_char. rewrite Hc. simpl. rewrite (IH Hs). reflexivity.
Qed.

Lemma encode_utf8_app (a b : str) (ea eb : bytes) :
  encode_utf8 a = Ok ea -> encode_utf8 b = Ok eb ->
  encode_utf8 (a ++ b) = Ok (ea ++ eb).
Proof.
  revert ea. induction a as [|c a IH]; intros ea Ha Hb.
  - injection Ha as <-. exact Hb.
  - simpl in Ha |- *. destruct (utf8_char c) as [bc|]; [|discriminate].
    simpl in Ha |- *. destruct (encode_utf8 a) as [ra|]; [|discriminate].
    simpl in Ha. injection Ha as <-. rewrite (IH ra eq_refl Hb). simpl.
    rewrite app_assoc. reflexivity.
Qed.

Lemma hex_digit_ascii (n : N) : (hex_digit (n mod 16) <? 128)%N = true.
Proof.
  apply N.ltb_lt. unfold hex_digit.
  assert (n mod 16 < 16)%N by (apply N.mod_lt; discriminate).
  destruct (n mod 16 <? 10)%N; lia.
Qed.

Lemma json_escape_ascii (c : N) : ascii_only (json_escape c) = true.
Proof.
  unfold json_escape, ascii_only.
  repeat match goal with
         | |- context [if ?b then _ else _] => destruct b eqn:?
         end; try reflexivity.
  - simpl. rewrite andb_true_r. apply N.ltb_lt.
    match goal with H : (_ && _)%bool = true |- _ =>
      apply andb_true_iff in H as [_ H]; apply N.leb_le in H end. lia.
  - unfold hex4. simpl. rewrite !hex_digit_ascii. reflexivity.
  - unfold hex4. rewrite !forallb_app. simpl. rewrite !hex_digit_ascii. reflexivity.
Qed.

Lemma ascii_only_app (a b : str) :
  ascii_only (a ++ b) = ascii_only a && ascii_only b.
Proof. apply forallb_app. Qed.

Lemma ascii_only_join (sep : str) (parts : list str) :
  ascii_only sep = true -> forallb ascii_only parts = true ->
  ascii_only (join sep parts) = true.
Proof. apply forallb_join. Qed.

Lemma forallb_map_all {A B : Type} (P : B -> bool) (f : A -> B) (l : list A) :
  (forall x, P (f x) = true) -> forallb P (List.map f l) = true.
Proof.
  intros H. induction l as [|x l IH]; [reflexivity|].
  cbn [List.map forallb]. rewrite H, IH. reflexivity.
Qed.

Lemma json_string_ascii (s : str) : ascii_only (json_string s) = true.
Proof.
  unfold json_string. rewrite !ascii_only_app.
  replace (ascii_only (flat_map json_escape s)) with true; [reflexivity|].
  symmetry. induction s as [|c s IH]; [reflexivity|].
  cbn [flat_map]. rewrite ascii_only_app, IH, json_escape_ascii. reflexivity.
Qed.

Lemma json_dumps_value_ascii (v : json_value) :
  ascii_only (json_dumps_value v) = true.
Proof.
  destruct v as [t|ts]; cbn [json_dumps_value]; [apply json_string_ascii|].
  rewrite !ascii_only_app, ascii_only_join; [reflexivity|reflexivity|].
  apply forallb_map_all. apply json_string_ascii.
Qed.

Lemma json_dumps_sorted_ascii (items : list (str * json_value)) :
  ascii_only (json_dumps_sorted items) = true.
Proof.
  unfold json_dumps_sorted.
  rewrite !ascii_only_app, ascii_only_join; [reflexivity|reflexivity|].
  apply forallb_map_all. intros kv.
  rewrite !ascii_only_app, json_string_ascii, json_dumps_value_ascii.
  reflexivity.
Qed.

Lemma ascii_only_encodable (s : str) : ascii_only s = true -> encodable s = true.
Proof.
  unfold ascii_only, encodable. rewrite !forallb_forall. intros H c Hc.
  specialize (H c Hc). apply N.ltb_lt in H. apply negb_true_iff.
  unfold is_surrogate. apply andb_false_iff. left. apply N.leb_gt. lia.
Qed.

Lemma length_ljust_take (w : nat) (b : bytes) : length (ljust w (take w b)) = w.
Proof.
  unfold ljust. rewrite length_app, length_replicate, length_take. lia.
Qed.

Lemma length_set_slice (lo hi : nat) (v buf : bytes) :
  (lo <= hi <= length buf)%nat -> length v = (hi - lo)%nat ->
  length (set_slice lo hi v buf) = length buf.
Proof.
  intros Hr Hv. unfold set_slice.
  rewrite !length_app, length_take, length_drop. lia.
Qed.

Lemma set_item_Ok (i : nat) (v : Z) (buf buf' : bytes) :
  set_item i v buf = Ok buf' ->
  0 <= v < 256 /\ (i < length buf)%nat /\ buf' = <[i := byte_of_Z v]> buf.
Proof.
  unfold set_item. destruct (Z.ltb_spec v 0); [discriminate|].
  destruct (Z.leb_spec 256 v); [discriminate|]. simpl.
  destruct (decide (i < length buf)%nat); [|discriminate].
  intros [= <-]. repeat split; auto; lia.
Qed.

Lemma set_item_in_range (i : nat) (v : Z) (buf : bytes) :
  0 <= v < 256 -> (i < length buf)%nat ->
  set_item i v buf = Ok (<[i := byte_of_Z v]> buf).
Proof.
  intros Hv Hi. unfold set_item. destruct (Z.ltb_spec v 0); [lia|].
  destruct (Z.leb_spec 256 v); [lia|]. simpl.
  destruct (decide (i < length buf)%nat); [reflexivity|lia].
Qed.

Lemma store_items_length (items : list (nat * Z)) (buf buf' : bytes) :
  for_each (fun b it => set_item (12 + fst it) (snd it) b) items buf = Ok buf' ->
  length buf' = length buf.
Proof.
  revert buf. induction items as [|[i v] items IH]; intros buf H.
  - injection H as <-. reflexivity.
  - simpl in H. bind_inv H. apply set_item_Ok in Hv as (_ & _ & ->).
    rewrite (IH _ H). apply length_insert.
Qed.

Lemma store_items_returns (vals : list Z) (start : nat) (buf : bytes) :
  Forall (fun v => 0 <= v < 256) vals ->
  (12 + start + length vals <= length buf)%nat ->
  returns (for_each (fun b it => set_item (12 + fst it) (snd it) b)
             (enumerate_from start vals) buf).
Proof.
  revert start buf. induction vals as [|v vals IH]; intros start buf Hv Hlen.
  - eexists. reflexivity.
  - inversion Hv as [|? ? Hv1 Hv2]; subst. simpl in Hlen |- *.
    rewrite set_item_in_range by (simpl; lia). simpl.
    apply IH; [exact Hv2|]. rewrite length_insert. lia.
Qed.

Lemma Z_of_byte_range (b : byte) : 0 <= Z_of_byte b < 256.
Proof. unfold Z_of_byte. pose proof (Byte.to_N_bounded b). lia. Qed.

Lemma from_bytes_big_take1 (b : bytes) : 0 <= from_bytes_big (take 1 b) < 256.
Proof.
  destruct b as [|x b]; [unfold from_bytes_big; simpl; lia|].
  unfold from_bytes_big. simpl. pose proof (Z_of_byte_range x). lia.
Qed.

(** ** CRC-32: range *)

Lemma Z_lxor_below (n a b : Z) :
  0 <= n -> 0 <= a < 2 ^ n -> 0 <= b < 2 ^ n -> 0 <= Z.lxor a b < 2 ^ n.
Proof.
  intros Hn Ha Hb.
  assert (Hnn : 0 <= Z.lxor a b) by (apply Z.lxor_nonneg; lia).
  split; [exact Hnn|].
  destruct (Z.eq_dec (Z.lxor a b) 0) as [->|Hne]; [lia|].
  assert (Hpos : 0 < n).
  { destruct (Z.eq_dec n 0) as [->|]; [|lia].
    assert (a = 0) by lia. assert (b = 0) by lia. subst.
    exfalso. apply Hne. reflexivity. }
  apply Z.log2_lt_pow2; [lia|].
  apply Z.le_lt_trans with (Z.max (Z.log2 a) (Z.log2 b));
    [apply Z.log2_lxor; lia|].
  apply Z.max_lub_lt.
  - destruct (Z.eq_dec a 0) as [->|]; [exact Hpos|apply Z.log2_lt_pow2; lia].
  - destruct (Z.eq_dec b 0) as [->|]; [exact Hpos|apply Z.log2_lt_pow2; lia].
Qed.

Lemma crc_shift_range (c : Z) : 0 <= c < 2 ^ 32 -> 0 <= crc_shift c < 2 ^ 32.
Proof.
  intros Hc. unfold crc_shift.
  assert (Hs : 0 <= Z.shiftr c 1 < 2 ^ 32)
    by (rewrite Z.shiftr_div_pow2 by lia; change (2 ^ 1) with 2; div_lia).
  destruct (Z.odd c); [|exact Hs].
  apply Z_lxor_below; [lia|exact Hs|]. unfold crc_poly. lia.
Qed.

Lemma crc_byte_range (c : Z) (b : byte) :
  0 <= c < 2 ^ 32 -> 0 <= crc_byte c b < 2 ^ 32.
Proof.
  intros Hc. unfold crc_byte.
  assert (H0 : 0 <= Z.lxor c (Z_of_byte b) < 2 ^ 32).
  { apply Z_lxor_below; [lia|exact Hc|]. pose proof (Z_of_byte_range b). lia. }
  simpl. do 8 apply crc_shift_range. exact H0.
Qed.

Lemma crc_update_range (data : bytes) (c : Z) :
  0 <= c < 2 ^ 32 -> 0 <= crc_update c data < 2 ^ 32.
Proof.
  revert c. induction data as [|b data IH]; intros c Hc; [exact Hc|].
  unfold crc_update. simpl. apply IH. apply crc_byte_range. exact Hc.
Qed.

Lemma crc32_range (data : bytes) : 0 <= crc32 data < 2 ^ 32.
Proof.
  unfold crc32. apply Z_lxor_below; [lia| |lia].
  apply crc_update_range. lia.
Qed.

Lemma crc32_mask (data : bytes) : Z.land (crc32 data) 0xFFFFFFFF = crc32 data.
Proof.
  change 0xFFFFFFFF with (Z.ones 32). rewrite Z.land_ones by lia.
  apply Z.mod_small. apply crc32_range.
Qed.

(** ** CRC-32: a single inverted bit changes the checksum *)

Lemma Z_of_byte_of_N (n : N) : Z_of_byte (byte_of_N n) = Z.of_N (n mod 256).
Proof.
  unfold Z_of_byte, byte_of_N.
  assert (Hlt : (n mod 256 < 256)%N) by (apply N.mod_lt; discriminate).
  destruct (Byte.of_N (n mod 256)) as [b|] eqn:E.
  - apply Byte.to_of_N in E. rewrite E. reflexivity.
  - apply Byte.of_N_None_iff in E. lia.
Qed.

Lemma Z_of_byte_of_Z (z : Z) : Z_of_byte (byte_of_Z z) = z mod 256.
Proof.
  unfold byte_of_Z. rewrite Z_of_byte_of_N.
  assert (0 <= z mod 256 < 256) by (apply Z.mod_pos_bound; lia).
  rewrite N.mod_small by lia. lia.
Qed.

Lemma from_bytes_big_snoc (b : bytes) (x : byte) :
  from_bytes_big (b ++ [x]) = from_bytes_big b * 256 + Z_of_byte x.
Proof. unfold from_bytes_big. rewrite fold_left_app. reflexivity. Qed.

Lemma from_bytes_big_be_bytes (len : nat) (n : Z) :
  0 <= n < 256 ^ Z.of_nat len -> from_bytes_big (be_bytes len n) = n.
Proof.
  revert n. induction len as [|len IH]; intros n Hn.
  - change (256 ^ Z.of_nat 0) with 1 in Hn. unfold from_bytes_big. simpl. lia.
  - cbn [be_bytes]. rewrite from_bytes_big_snoc, Z_of_byte_of_Z, IH; [div_lia|].
    rewrite Nat2Z.inj_succ, Z.pow_succ_r in Hn by lia. div_lia.
Qed.

Lemma crc_shift_lxor (x y : Z) :
  crc_shift (Z.lxor x y) = Z.lxor (crc_shift x) (crc_shift y).
Proof.
  unfold crc_shift. rewrite <- !Z.bit0_odd, Z.lxor_spec, Z.shiftr_lxor.
  destruct (Z.testbit x 0), (Z.testbit y 0); cbn [xorb];
    apply Z.bits_inj'; intros n _; rewrite ?Z.lxor_spec;
    destruct (Z.testbit (Z.shiftr x 1) n), (Z.testbit (Z.shiftr y 1) n),
      (Z.testbit crc_poly n); reflexivity.
Qed.

Lemma iter_crc_shift_lxor (n : nat) (x y : Z) :
  Nat.iter n crc_shift (Z.lxor x y)
  = Z.lxor (Nat.iter n crc_shift x) (Nat.iter n crc_shift y).
Proof.
  induction n as [|n IH]; [reflexivity|].
  rewrite !Nat.iter_succ, IH. apply crc_shift_lxor.
Qed.

Lemma crc_update_as_Z (data : bytes) (c : Z) :
  crc_update c data = crc_update_Z c (List.map Z_of_byte data).
Proof.
  revert c. induction data as [|b data IH]; intros c; [reflexivity|].
  unfold crc_update, crc_update_Z. cbn [List.map fold_left]. apply IH.
Qed.

Lemma crc_update_Z_lxor (zs es : list Z) (c d : Z) :
  length zs = length es ->
  crc_update_Z (Z.lxor c d) (zip_with Z.lxor zs es)
  = Z.lxor (crc_update_Z c zs) (crc_update_Z d es).
Proof.
  revert es c d. induction zs as [|z zs IH]; intros [|e es] c d Hlen;
    try discriminate; [reflexivity|].
  unfold crc_update_Z. cbn [zip_with fold_left].
  replace (Z.lxor (Z.lxor c d) (Z.lxor z e))
    with (Z.lxor (Z.lxor c z) (Z.lxor d e)).
  - rewrite iter_crc_shift_lxor. apply IH. simpl in Hlen. lia.
  - apply Z.bits_inj'. intros n _. rewrite !Z.lxor_spec.
    destruct (Z.testbit c n), (Z.testbit d n), (Z.testbit z n), (Z.testbit e n);
      reflexivity.
Qed.

Lemma zip_with_lxor_zeros (zs : list Z) :
  zip_with Z.lxor zs (replicate (length zs) 0) = zs.
Proof.
  induction zs as [|z zs IH]; [reflexivity|].
  cbn [length replicate zip_with]. rewrite Z.lxor_0_r, IH. reflexivity.
Qed.

Lemma flip_bit_cons_S (i : nat) (bit : Z) (b : byte) (data : bytes) :
  flip_bit (S i) bit (b :: data) = b :: flip_bit i bit data.
Proof.
  unfold flip_bit. cbn [lookup list_lookup].
  change ((b :: data) !! S i) with (data !! i).
  destruct (data !! i); reflexivity.
Qed.

Lemma flip_bit_as_Z (i : nat) (bit : Z) (data : bytes) :
  0 <= bit < 8 ->
  List.map Z_of_byte (flip_bit i bit data)
  = zip_with Z.lxor (List.map Z_of_byte data)
      (<[i := 2 ^ bit]> (replicate (length data) 0)).
Proof.
  intros Hbit. revert i. induction data as [|b data IH]; intros i; [reflexivity|].
  destruct i as [|i].
  - unfold flip_bit. cbn [lookup list_lookup]. simpl.
    rewrite Z_of_byte_of_Z, Z.mod_small.
    + f_equal. rewrite <- (length_map Z_of_byte data).
      symmetry. apply zip_with_lxor_zeros.
    + pose proof (Z_of_byte_range b).
      assert (0 <= 2 ^ bit < 2 ^ 8)
        by (split; [apply Z.pow_nonneg; lia|apply Z.pow_lt_mono_r; lia]).
      change 256 with (2 ^ 8). apply Z_lxor_below; lia.
  - rewrite flip_bit_cons_S. cbn [List.map length replicate].
    change (<[S i := 2 ^ bit]> (0 :: replicate (length data) 0))
      with (0 :: <[i := 2 ^ bit]> (replicate (length data) 0)).
    cbn [zip_with]. rewrite Z.lxor_0_r, IH. reflexivity.
Qed.

Lemma crc_syndromes_nonzero :
  forallb (fun i => forallb (fun bit => negb (crc_syndrome i bit =? 0)) (seq 0 8))
    (seq 0 28) = true.
Proof. vm_compute. reflexivity. Qed.

Lemma crc_syndrome_nonzero (i : nat) (bit : Z) :
  (i < 28)%nat -> 0 <= bit < 8 ->
  crc_update_Z 0 (<[i := 2 ^ bit]> (replicate 28 0)) <> 0.
Proof.
  intros Hi Hbit. pose proof crc_syndromes_nonzero as H.
  rewrite forallb_forall in H. specialize (H i).
  rewrite forallb_forall in H.
  specialize (H ltac:(apply in_seq; lia) (Z.to_nat bit) ltac:(apply in_seq; lia)).
  apply negb_true_iff, Z.eqb_neq in H. unfold crc_syndrome in H.
  rewrite Z2Nat.id in H by lia. exact H.
Qed.

Lemma crc32_flip_bit (i : nat) (bit : Z) (body : bytes) :
  length body = 28%nat -> (i < 28)%nat -> 0 <= bit < 8 ->
  crc32 (flip_bit i bit body) <> crc32 body.
Proof.
  intros Hlen Hi Hbit. unfold crc32.
  rewrite !crc_update_as_Z, (flip_bit_as_Z i bit body Hbit), Hlen.
  replace 0xFFFFFFFF with (Z.lxor 0xFFFFFFFF 0) at 1 by reflexivity.
  rewrite crc_update_Z_lxor
    by (rewrite length_map, length_insert, length_replicate; exact Hlen).
  intros Heq. apply (crc_syndrome_nonzero i bit Hi Hbit).
  set (s := crc_update_Z 0 _) in *. set (r := crc_update_Z 0xFFFFFFFF _) in *.
  apply (f_equal (Z.lxor (Z.lxor r 0xFFFFFFFF))) in Heq.
  rewrite Z.lxor_nilpotent in Heq. rewrite <- Heq.
  apply Z.bits_inj'. intros n _. rewrite !Z.lxor_spec.
  destruct (Z.testbit r n), (Z.testbit s n), (Z.testbit 0xFFFFFFFF n); reflexivity.
Qed.

(** ** Slot packing *)

Section PackFacts.

Variable keccak : bytes -> bytes.
Variable lower : str -> str.

(** The digest has 32 bytes. *)
Hypothesis keccak_len : forall b : bytes, length (keccak b) = 32%nat.

Lemma keccak_text_encodable (s : str) :
  encodable s = true ->
  exists b, encode_utf8 s = Ok b /\ keccak_text keccak s = Ok (keccak b).
Proof.
  intros He. destruct (encode_utf8_returns s He) as [b Hb].
  exists b. split; [exact Hb|]. unfold keccak_text. rewrite Hb. reflexivity.
Qed.

Lemma keccak_text_length (s : str) (digest : bytes) :
  keccak_text keccak s = Ok digest -> length digest = 32%nat.
Proof.
  unfold keccak_text. intros H. bind_inv H. injection H as <-. apply keccak_len.
Qed.

Lemma generate_seed_returns (self : PlantData) :
  encodable (scientific_name self) = true -> encodable (ncbi_code self) = true ->
  returns (generate_seed keccak self).
Proof.
  intros Hn Hc. unfold generate_seed.
  destruct (keccak_text_encodable
              (scientific_name self ++ py ":" ++ ncbi_code self
               ++ py ":ANDE:Genesis:2024:Block0")) as (b & _ & Hk).
  - rewrite !encodable_app. repeat split; auto.
  - eexists. exact Hk.
Qed.

Lemma generate_traits_Ok (self : PlantData) (traits : list Z) :
  generate_traits keccak self = Ok traits ->
  Forall (fun v => 0 <= v < 256) traits /\ length traits = 8%nat.
Proof.
  unfold generate_traits. intros H. bind_inv H. injection H as <-.
  split; [|reflexivity].
  apply Forall_forall. intros t Ht. apply list_elem_of_In in Ht. simpl in Ht.
  repeat (destruct Ht as [<-|Ht]; [apply from_bytes_big_take1|]). contradiction.
Qed.

Lemma length_header_fields (encoded digest : bytes) :
  length digest = 32%nat ->
  length (set_slice 8 12 (take 4 digest)
            (set_slice 0 8 (ljust 8 (take 8 encoded)) (replicate 32 x00)))
  = 32%nat.
Proof.
  intros Hd.
  assert (H0 : length (set_slice 0 8 (ljust 8 (take 8 encoded)) (replicate 32 x00))
               = 32%nat).
  { rewrite length_set_slice;
      [apply length_replicate|rewrite length_replicate; lia
      |apply length_ljust_take]. }
  rewrite length_set_slice; [exact H0|rewrite H0; lia|rewrite length_take; lia].
Qed.

Lemma length_tail_fields (bits tier status : Z) (packed : bytes) :
  length packed = 32%nat ->
  length (set_slice 26 28 [x00; x00]
            (<[25%nat := byte_of_Z status]>
               (<[24%nat := byte_of_Z tier]>
                  (set_slice 20 24 (be_bytes 4 bits) packed))))
  = 32%nat.
Proof.
  intros Hp.
  assert (H0 : length (set_slice 20 24 (be_bytes 4 bits) packed) = 32%nat).
  { rewrite length_set_slice; [exact Hp|lia|apply length_be_bytes]. }
  rewrite length_set_slice; rewrite ?length_insert; [exact H0|lia|reflexivity].
Qed.

(** What [pack_slot3] returns: 28 bytes of fields, then the 4 bytes of their
    checksum. *)
Lemma pack_slot3_shape (self : PlantData) (slot : bytes) :
  pack_slot3 keccak lower self = Ok slot ->
  exists body : bytes,
    length body = 28%nat /\ slot = body ++ be_bytes 4 (crc32 body).
Proof.
  unfold pack_slot3. intros H.
  bind_inv H. rename v into encoded.
  bind_inv H. rename v into digest. apply keccak_text_length in Hv0.
  bind_inv H. rename v into traits.
  bind_inv H. rename v into packed1. apply store_items_length in Hv2.
  rewrite (length_header_fields encoded digest Hv0) in Hv2.
  bind_inv H. rename v into field.
  unfold to_bytes_big in Hv3.
  destruct (_ || _) in Hv3; [discriminate|]. apply Ok_inj in Hv3 as <-.
  bind_inv H. rename v into packed2. apply set_item_Ok in Hv3 as (_ & _ & ->).
  bind_inv H. rename v into packed3. apply set_item_Ok in Hv3 as (_ & _ & ->).
  bind_inv H. rename v into cks. rewrite crc32_mask in Hv3.
  rewrite to_bytes_big_in_range in Hv3 by (apply crc32_range).
  apply Ok_inj in Hv3 as <-. apply Ok_inj in H as <-.
  pose proof (length_tail_fields (_encode_properties lower self)
                (rarity_tier self) (_encode_conservation self) packed1 Hv2) as Hlen.
  match goal with |- context [take 28 ?p] => set (packed := p) in * end.
  exists (take 28 packed).
  split; [rewrite length_take; lia|].
  unfold set_slice at 1. rewrite (drop_ge _ 32) by lia.
  rewrite app_nil_r. reflexivity.
Qed.

Lemma pack_slot3_returns (self : PlantData) :
  0 <= rarity_tier self < 256 ->
  encodable (scientific_name self) = true -> encodable (ncbi_code self) = true ->
  forallb encodable (common_names self) = true ->
  returns (pack_slot3 keccak lower self).
Proof.
  intros Htier Hname Hncbi Hcommon. unfold pack_slot3.
  destruct (encode_utf8_returns _ Hncbi) as [encoded ->]. cbn [bind].
  destruct (keccak_text_encodable (join (py ",") (common_names self)))
    as (b & _ & ->); [apply encodable_join; [reflexivity|exact Hcommon]|].
  cbn [bind].
  destruct (generate_seed_returns self Hname Hncbi) as [seed Hseed].
  assert (Htraits : exists traits, generate_traits keccak self = Ok traits)
    by (unfold generate_traits; rewrite Hseed; eexists; reflexivity).
  destruct Htraits as [traits Htraits]. rewrite Htraits. cbn [bind].
  destruct (generate_traits_Ok _ _ Htraits) as [Hrange Hcount].
  pose proof (length_header_fields encoded (keccak b) (keccak_len b)) as Hlen0.
  match goal with |- context [for_each _ _ ?p] => set (packed0 := p) in * end.
  destruct (store_items_returns traits 0 packed0 Hrange) as [packed1 Hstore];
    [lia|].
  unfold enumerate. rewrite Hstore. cbn [bind].
  apply store_items_length in Hstore. rewrite Hlen0 in Hstore.
  rewrite encode_properties_fits. cbn [bind].
  assert (Hlen1 : length (set_slice 20 24 (be_bytes 4 (_encode_properties lower self))
                            packed1) = 32%nat).
  { rewrite length_set_slice; [lia|lia|apply length_be_bytes]. }
  rewrite set_item_in_range by (rewrite ?Hlen1; lia). cbn [bind].
  rewrite set_item_in_range.
  - cbn [bind]. rewrite crc32_mask.
    rewrite to_bytes_big_in_range by (apply crc32_range).
    eexists. reflexivity.
  - unfold _encode_conservation.
    destruct (dict_get status_map (conservation_status self)) as [code|] eqn:Hget;
      [apply status_map_range in Hget|]; lia.
  - rewrite length_insert, Hlen1. lia.
Qed.

Lemma pack_slot2_returns (self : PlantData) :
  encodable (scientific_name self) = true ->
  exists slot, pack_slot2 self = Ok slot /\ length slot = 32%nat.
Proof.
  intros Hname. unfold pack_slot2.
  destruct (encode_utf8_returns _ Hname) as [encoded ->]. cbn [bind].
  eexists. split; [reflexivity|apply length_ljust_take].
Qed.

Lemma get_template_id_range (self : PlantData) : 0 <= _get_template_id self < 256.
Proof.
  unfold _get_template_id.
  destruct (dict_get template_map (genus self)) as [t|] eqn:Hget;
    [apply template_map_range in Hget|]; lia.
Qed.

(** What [pack_slot4] returns, for every record: the digest of the JSON text
    with its first byte replaced by the template id. *)
Lemma pack_slot4_shape (self : PlantData) :
  exists text : bytes,
    encode_utf8 (json_dumps_sorted (metadata self)) = Ok text
    /\ pack_slot4 keccak self
       = Ok (<[0%nat := byte_of_Z (_get_template_id self)]> (keccak text)).
Proof.
  destruct (keccak_text_encodable (json_dumps_sorted (metadata self)))
    as (text & Htext & Hk);
    [apply ascii_only_encodable, json_dumps_sorted_ascii|].
  exists text. split; [exact Htext|].
  unfold pack_slot4. rewrite Hk. cbn [bind].
  rewrite set_item_in_range;
    [reflexivity|apply get_template_id_range|rewrite keccak_len; lia].
Qed.

End PackFacts.

(** ** The packed slots *)

Lemma keccak256_length (b : bytes) : length (Keccak.keccak256 b) = 32%nat.
Proof. unfold Keccak.keccak256. rewrite length_map, length_seq. reflexivity. Qed.

Lemma flip_bit_app_l (i : nat) (bit : Z) (body rest : bytes) :
  (i < length body)%nat ->
  flip_bit i bit (body ++ rest) = flip_bit i bit body ++ rest.
Proof.
  intros Hi. unfold flip_bit. rewrite lookup_app_l by exact Hi.
  destruct (body !! i) as [b|] eqn:Hb; [|reflexivity].
  rewrite insert_app_l by exact Hi. reflexivity.
Qed.

Lemma length_flip_bit (i : nat) (bit : Z) (buf : bytes) :
  length (flip_bit i bit buf) = length buf.
Proof. unfold flip_bit. destruct (buf !! i); [apply length_insert|reflexivity]. Qed.

Section PackTheorems.

Variable keccak : bytes -> bytes.
Variable lower : str -> str.
Hypothesis keccak_len : forall b : bytes, length (keccak b) = 32%nat.

(** C4: in a packed data slot, bytes 28 to 31 are the big-endian CRC-32 of bytes
    0 to 27 of the same slot, so the recomputed checksum matches the stored one;
    after any single bit of bytes 0 to 27 is inverted, the recomputed checksum
    differs from the stored one. *)
Theorem pack_slot3_checksum (self : PlantData) (slot : bytes) :
  pack_slot3 keccak lower self = Ok slot ->
  length slot = 32%nat
  /\ drop 28 slot = be_bytes 4 (crc32 (take 28 slot))
  /\ from_bytes_big (drop 28 slot) = crc32 (take 28 slot)
  /\ (forall (i : nat) (bit : Z), (i < 28)%nat -> 0 <= bit < 8 ->
        crc32 (take 28 (flip_bit i bit slot))
        <> from_bytes_big (drop 28 (flip_bit i bit slot))).
Proof.
  intros H. destruct (pack_slot3_shape keccak lower keccak_len self slot H)
    as (body & Hlen & ->).
  assert (Htake : take 28 (body ++ be_bytes 4 (crc32 body)) = body)
    by (rewrite <- Hlen; apply take_app_length).
  assert (Hdrop : drop 28 (body ++ be_bytes 4 (crc32 body)) = be_bytes 4 (crc32 body))
    by (rewrite <- Hlen; apply drop_app_length).
  assert (Hstored : from_bytes_big (be_bytes 4 (crc32 body)) = crc32 body)
    by (apply from_bytes_big_be_bytes, crc32_range).
  split; [rewrite length_app, length_be_bytes; lia|].
  rewrite Htake, Hdrop. split; [reflexivity|]. split; [exact Hstored|].
  intros i bit Hi Hbit. rewrite flip_bit_app_l by lia.
  assert (Hflen : length (flip_bit i bit body) = 28%nat)
    by (rewrite length_flip_bit; exact Hlen).
  rewrite <- Hflen at 1 2. rewrite take_app_length, drop_app_length, Hstored.
  apply crc32_flip_bit; assumption.
Qed.

(** C5, as the code has it: the metadata slot is the digest of the JSON text of
    the metadata object, keys sorted, with byte 0 replaced by the template id
    of the genus (9 when the genus is not in the table); bytes 1 to 31 are
    bytes 1 to 31 of the digest. *)
Theorem pack_slot4_layout (self : PlantData) :
  exists (text slot : bytes),
    encode_utf8 (json_dumps_sorted (metadata self)) = Ok text
    /\ List.map fst (sort_items (metadata self))
       = [py "commonNames"; py "family"; py "genus"; py "properties";
          py "scientificName"]
    /\ pack_slot4 keccak self = Ok slot
    /\ length slot = 32%nat
    /\ slot !! 0%nat = Some (byte_of_Z (_get_template_id self))
    /\ _get_template_id self
       = match dict_get template_map (genus self) with
         | Some template => template
         | None => 9
         end
    /\ drop 1 slot = drop 1 (keccak text).
Proof.
  destruct (pack_slot4_shape keccak keccak_len self) as (text & Htext & Hslot).
  exists text, (<[0%nat := byte_of_Z (_get_template_id self)]> (keccak text)).
  split; [exact Htext|]. split; [reflexivity|]. split; [exact Hslot|].
  split; [rewrite length_insert; apply keccak_len|].
  split; [apply list_lookup_insert_eq; rewrite keccak_len; lia|].
  split; [reflexivity|].
  pose proof (keccak_len text) as Hl.
  destruct (keccak text) as [|b0 digest]; [discriminate|reflexivity].
Qed.

(** C6, as the code has it: for a record whose tier is a byte value and whose
    name, NCBI code and common names have no surrogate code point, the four
    slots are returned and have 32 bytes each; long strings are cut, unknown
    tags, status and genus fall back to their defaults. *)
Theorem pack_slots_return (self : PlantData) :
  0 <= rarity_tier self < 256 ->
  encodable (scientific_name self) = true ->
  encodable (ncbi_code self) = true ->
  forallb encodable (common_names self) = true ->
  exists s1 s2 s3 s4 : bytes,
    pack_slot1 keccak self = Ok s1 /\ length s1 = 32%nat
    /\ pack_slot2 self = Ok s2 /\ length s2 = 32%nat
    /\ pack_slot3 keccak lower self = Ok s3 /\ length s3 = 32%nat
    /\ pack_slot4 keccak self = Ok s4 /\ length s4 = 32%nat.
Proof.
  intros Htier Hname Hncbi Hcommon.
  destruct (generate_seed_returns keccak self Hname Hncbi) as [s1 H1].
  destruct (pack_slot2_returns self Hname) as (s2 & H2 & L2).
  destruct (pack_slot3_returns keccak lower keccak_len self Htier Hname Hncbi Hcommon)
    as [s3 H3].
  destruct (pack_slot4_shape keccak keccak_len self) as (text & _ & H4).
  exists s1, s2, s3, (<[0%nat := byte_of_Z (_get_template_id self)]> (keccak text)).
  split; [exact H1|]. split; [exact (keccak_text_length keccak keccak_len _ _ H1)|].
  split; [exact H2|]. split; [exact L2|].
  split; [exact H3|]. split.
  - destruct (pack_slot3_shape keccak lower keccak_len self s3 H3)
      as (body & Hlen & ->).
    rewrite length_app, length_be_bytes. lia.
  - split; [exact H4|]. rewrite length_insert. apply keccak_len.
Qed.

End PackTheorems.

(** ** Numerals as text *)

Lemma py_inj (a b : string) : py a = py b -> a = b.
Proof.
  unfold py. intros H. apply (f_equal (List.map ascii_of_N)) in H.
  rewrite !List.map_map in H.
  rewrite !(List.map_ext _ (fun a => a) ascii_N_embedding), !List.map_id in H.
  rewrite <- (string_of_list_ascii_of_string a),
    <- (string_of_list_ascii_of_string b), H. reflexivity.
Qed.

Lemma py_ascii_range (s : string) : Forall (fun c => (c < 256)%N) (py s).
Proof.
  unfold py. apply Forall_forall. intros c Hc.
  apply list_elem_of_In, in_map_iff in Hc. destruct Hc as (a & <- & _).
  apply N_ascii_bounded.
Qed.

Lemma to_int_not_nil (z : Z) :
  Z.to_int z <> Decimal.Pos Decimal.Nil /\ Z.to_int z <> Decimal.Neg Decimal.Nil.
Proof.
  destruct z as [|p|p]; simpl; split; try discriminate;
    intros [= H]; exact (DecimalPos.Unsigned.to_uint_nonnil p H).
Qed.

Lemma str_of_int_inj (a b : Z) : str_of_int a = str_of_int b -> a = b.
Proof.
  unfold str_of_int. intros H. apply py_inj in H.
  apply (f_equal DecimalString.NilZero.int_of_string) in H.
  destruct (to_int_not_nil a) as [Ha1 Ha2]. destruct (to_int_not_nil b) as [Hb1 Hb2].
  rewrite !DecimalString.NilZero.isi in H by assumption.
  apply DecimalZ.to_int_inj. congruence.
Qed.

Lemma to_hex_int_digits (z : Z) (d : Hexadecimal.uint) :
  Z.to_hex_int z = Hexadecimal.Pos d \/ Z.to_hex_int z = Hexadecimal.Neg d ->
  d <> Hexadecimal.Nil.
Proof.
  destruct z as [|p|p]; simpl; intros [[= <-]|[= <-]]; try discriminate;
    apply HexadecimalPos.Unsigned.to_uint_nonnil.
Qed.

Lemma hex_inj (a b : Z) : hex a = hex b -> a = b.
Proof.
  intros H. apply HexadecimalZ.to_int_inj. unfold hex in H.
  destruct (Z.to_hex_int a) as [da|da] eqn:Ea, (Z.to_hex_int b) as [db|db] eqn:Eb.
  - apply app_inv_head, py_inj in H.
    apply (f_equal HexadecimalString.NilZero.uint_of_string) in H.
    rewrite !HexadecimalString.NilZero.usu in H
      by (eapply to_hex_int_digits; eauto).
    congruence.
  - discriminate H.
  - discriminate H.
  - apply app_inv_head, py_inj in H.
    apply (f_equal HexadecimalString.NilZero.uint_of_string) in H.
    rewrite !HexadecimalString.NilZero.usu in H
      by (eapply to_hex_int_digits; eauto).
    congruence.
Qed.

Lemma byte_of_N_inj (a b : N) :
  (a < 256)%N -> (b < 256)%N -> byte_of_N a = byte_of_N b -> a = b.
Proof.
  intros Ha Hb H. apply (f_equal Z_of_byte) in H.
  rewrite !Z_of_byte_of_N, !N.mod_small in H by assumption. lia.
Qed.

Lemma map_byte_of_N_inj (a b : str) :
  Forall (fun c => (c < 256)%N) a -> Forall (fun c => (c < 256)%N) b ->
  List.map byte_of_N a = List.map byte_of_N b -> a = b.
Proof.
  intros Ha. revert b. induction Ha as [|x a Hx Ha IH]; intros b Hb H.
  - destruct b; [reflexivity|discriminate].
  - destruct Hb as [|y b Hy Hb]; [discriminate|].
    cbn [List.map] in H. injection H as H1 H2.
    f_equal; [apply byte_of_N_inj; assumption|apply IH; assumption].
Qed.

Lemma encode_utf8_app_inv (a b : str) (e : bytes) :
  encode_utf8 (a ++ b) = Ok e ->
  exists ea eb, encode_utf8 a = Ok ea /\ encode_utf8 b = Ok eb /\ e = ea ++ eb.
Proof.
  revert e. induction a as [|c a IH]; intros e H.
  - exists [], e. auto.
  - cbn [app encode_utf8] in H. bind_inv H. bind_inv H. apply Ok_inj in H as <-.
    destruct (IH _ Hv0) as (ea & eb & Ha & Hb & ->).
    exists (v ++ ea), eb. cbn [encode_utf8]. rewrite Hv. cbn [bind].
    rewrite Ha. cbn [bind]. rewrite app_assoc. auto.
Qed.

Lemma str_of_int_ascii (z : Z) : ascii_only (str_of_int z) = true.
Proof.
  unfold str_of_int, DecimalString.NilZero.string_of_int.
  assert (Hu : forall d, ascii_only (py (DecimalString.NilEmpty.string_of_uint d)) = true).
  { induction d; try reflexivity; cbn [DecimalString.NilEmpty.string_of_uint];
      unfold py in *; cbn [list_ascii_of_string List.map]; unfold ascii_only in *;
      cbn [forallb]; rewrite IHd; reflexivity. }
  destruct (Z.to_int z) as [d|d].
  - unfold DecimalString.NilZero.string_of_uint.
    destruct d; try reflexivity; apply Hu.
  - unfold DecimalString.NilZero.string_of_uint.
    destruct d; try reflexivity;
      unfold py; cbn [list_ascii_of_string List.map]; unfold ascii_only;
      cbn [forallb]; apply (Hu _).
Qed.

(** ** Seeds and the record id *)

Lemma seed_input_prefix (plant : Seeds.plant_dict) (plant_id : Z) :
  Seeds.seed_input plant plant_id = Seeds.seed_prefix plant ++ str_of_int plant_id.
Proof. unfold Seeds.seed_input, Seeds.seed_prefix. rewrite <- !app_assoc. reflexivity. Qed.

Lemma seed_input_bytes_inj (plant : Seeds.plant_dict) (id1 id2 : Z) (b1 b2 : bytes) :
  encode_utf8 (Seeds.seed_input plant id1) = Ok b1 ->
  encode_utf8 (Seeds.seed_input plant id2) = Ok b2 ->
  b1 = b2 -> id1 = id2.
Proof.
  rewrite !seed_input_prefix. intros H1 H2 Heq.
  apply encode_utf8_app_inv in H1 as (p1 & s1 & Hp1 & Hs1 & ->).
  apply encode_utf8_app_inv in H2 as (p2 & s2 & Hp2 & Hs2 & ->).
  assert (p1 = p2) by congruence. subst p2. apply app_inv_head in Heq.
  rewrite encode_utf8_ascii in Hs1, Hs2 by apply str_of_int_ascii.
  apply str_of_int_inj, map_byte_of_N_inj; [apply py_ascii_range..|congruence].
Qed.

(** C3, as the code has it: the string hashed by [generate_seed] of the seeds
    script ends with the id, so two ids give different strings and different
    UTF-8 bytes, and the two seeds are equal only if [keccak] collides on them;
    the string hashed by [PlantData.generate_seed] has no id, so a record with
    another [plant_id] has the same seed. *)
Theorem seed_and_plant_id (keccak : bytes -> bytes) (plant : Seeds.plant_dict)
  (id1 id2 : Z) (self : PlantData) :
  id1 <> id2 ->
  Seeds.seed_input plant id1 = Seeds.seed_prefix plant ++ str_of_int id1
  /\ Seeds.seed_input plant id1 <> Seeds.seed_input plant id2
  /\ (forall s1 s2 : str,
        Seeds.generate_seed keccak plant id1 = Ok s1 ->
        Seeds.generate_seed keccak plant id2 = Ok s2 ->
        s1 = s2 ->
        exists b1 b2 : bytes, b1 <> b2 /\ keccak b1 = keccak b2)
  /\ generate_seed keccak (with_plant_id id2 self)
     = generate_seed keccak (with_plant_id id1 self).
Proof.
  intros Hne. split; [apply seed_input_prefix|]. split; [|split].
  - rewrite !seed_input_prefix. intros H. apply app_inv_head in H.
    apply Hne, str_of_int_inj, H.
  - unfold Seeds.generate_seed, keccak_text. intros s1 s2 H1 H2 Heq.
    bind_inv H1. bind_inv Hv. apply Ok_inj in Hv as <-. apply Ok_inj in H1 as <-.
    bind_inv H2. bind_inv Hv. apply Ok_inj in Hv as <-. apply Ok_inj in H2 as <-.
    apply to_hex_inj in Heq. exists v0, v1. split; [|exact Heq].
    intros Hb. apply Hne. eapply seed_input_bytes_inj; eauto.
  - reflexivity.
Qed.

(** ** Storage layout *)

Lemma record_slots_elem (x : Z) (plants : list PlantData) :
  In x (concat (List.map record_slots plants)) <->
  exists p, In p plants /\ base_slot p <= x <= base_slot p + 3.
Proof.
  induction plants as [|q plants IH]; cbn [List.map concat].
  - split; [intros []|intros (p & [] & _)].
  - rewrite in_app_iff, IH. split.
    + intros [Hx|(p & Hp & Hx)].
      * exists q. split; [left; reflexivity|].
        unfold record_slots in Hx. simpl in Hx.
        destruct Hx as [<-|[<-|[<-|[<-|[]]]]]; lia.
      * exists p. split; [right; exact Hp|exact Hx].
    + intros (p & [->|Hp] & Hx).
      * left. unfold record_slots. simpl.
        destruct (Z.eq_dec x (base_slot p + 0)); [auto|].
        destruct (Z.eq_dec x (base_slot p + 1)); [auto|].
        destruct (Z.eq_dec x (base_slot p + 2)); [auto|].
        right; right; right; left. lia.
      * right. exists p. auto.
Qed.

Lemma record_slots_NoDup (plants : list PlantData) :
  List.NoDup (List.map plant_id plants) ->
  List.NoDup (concat (List.map record_slots plants)).
Proof.
  induction plants as [|q plants IH]; cbn [List.map concat]; intros Hnd.
  - constructor.
  - inversion Hnd as [|? ? Hfresh Hrest]; subst.
    apply NoDup_ListNoDup, NoDup_app. split; [|split].
    + unfold record_slots. apply NoDup_ListNoDup.
      repeat (constructor; [simpl; lia|]). constructor.
    + intros x Hx Hx'. apply list_elem_of_In in Hx, Hx'.
      apply record_slots_elem in Hx' as (p & Hp & Hr).
      assert (Hid : plant_id p <> plant_id q).
      { intros Heq. apply Hfresh. rewrite <- Heq. apply in_map. exact Hp. }
      unfold record_slots in Hx. simpl in Hx. unfold base_slot in *.
      destruct Hx as [<-|[<-|[<-|[<-|[]]]]]; lia.
    + apply NoDup_ListNoDup, IH, Hrest.
Qed.

Lemma storage_slots_NoDup (plants : list PlantData) :
  List.NoDup (List.map plant_id plants) ->
  Forall (fun p => 1 <= plant_id p) plants ->
  List.NoDup (storage_slots plants).
Proof.
  intros Hnd Hids. unfold storage_slots.
  apply NoDup_ListNoDup, NoDup_app. split; [|split].
  - unfold header_slots. apply NoDup_ListNoDup.
    repeat (constructor; [simpl; lia|]). constructor.
  - intros x Hx Hx'. apply list_elem_of_In in Hx, Hx'.
    apply record_slots_elem in Hx' as (p & Hp & Hr).
    rewrite Forall_forall in Hids. specialize (Hids p).
    rewrite list_elem_of_In in Hids. specialize (Hids Hp).
    unfold base_slot in Hr. unfold header_slots in Hx. simpl in Hx.
    destruct Hx as [<-|[<-|[<-|[<-|[<-|[<-|[]]]]]]]; lia.
  - apply NoDup_ListNoDup, record_slots_NoDup, Hnd.
Qed.

Lemma length_storage_slots (plants : list PlantData) :
  length (storage_slots plants) = (6 + 4 * length plants)%nat.
Proof.
  unfold storage_slots. rewrite length_app. cbn [header_slots length].
  induction plants as [|p plants IH]; [reflexivity|].
  cbn [List.map concat]. rewrite length_app. cbn [record_slots length] in *. lia.
Qed.

#[local] Instance hex_Inj : Inj (=) (=) hex.
Proof. intros a b. apply hex_inj. Qed.

Section StorageFacts.

#[local] Set Warnings "-clear-no-such-hyp".

Variable keccak : bytes -> bytes.
Variable lower : str -> str.

Lemma to_storage_slots_dom (self : PlantData) (slots : gmap str str) :
  to_storage_slots keccak lower self = Ok slots ->
  dom slots = list_to_set (hex <$> record_slots self).
Proof.
  unfold to_storage_slots. intros H. do 4 bind_inv H. apply Ok_inj in H as <-.
  rewrite !dom_insert_L, dom_empty_L. unfold record_slots.
  cbn [fmap list_fmap list_to_set]. set_solver.
Qed.

Lemma plant_updates_dom (plants : list PlantData) (storage result : gmap str str) :
  for_each
    (fun storage plant =>
       let* plant_slots := to_storage_slots keccak lower plant in
       Ok (plant_slots ∪ storage)) plants storage = Ok result ->
  dom result
  = dom storage ∪ list_to_set (hex <$> concat (List.map record_slots plants)).
Proof.
  revert storage. induction plants as [|p plants IH]; intros storage H.
  - apply Ok_inj in H as <-. cbn [List.map concat fmap list_fmap list_to_set].
    set_solver.
  - cbn [for_each] in H. bind_inv H. bind_inv Hv. apply Ok_inj in Hv as <-.
    rewrite (IH _ H), dom_union_L, (to_storage_slots_dom _ _ Hv0).
    cbn [List.map concat]. rewrite fmap_app, list_to_set_app_L. set_solver.
Qed.

(** C10: for records with pairwise distinct ids, all at least 1, the storage
    mapping has exactly [6 + 4 * n] entries, at the keys of the six header
    slots 0 to 5 and of the four slots [0x10 + (id - 1) * 4 + k] of each record;
    these slot numbers, and their keys, are pairwise distinct, so no key is
    written twice. *)
Theorem generate_genesis_storage_layout (now : Z) (plants : list PlantData)
  (storage : gmap str str) :
  List.NoDup (List.map plant_id plants) ->
  Forall (fun p => 1 <= plant_id p) plants ->
  generate_genesis_storage keccak lower now plants = Ok storage ->
  size storage = (6 + 4 * length plants)%nat
  /\ dom storage = list_to_set (hex <$> storage_slots plants)
  /\ List.NoDup (storage_slots plants)
  /\ List.NoDup (hex <$> storage_slots plants)
  /\ storage_slots plants
     = [0; 1; 2; 3; 4; 5]
       ++ concat (List.map
                    (fun p => [0x10 + (plant_id p - 1) * 4 + 0;
                               0x10 + (plant_id p - 1) * 4 + 1;
                               0x10 + (plant_id p - 1) * 4 + 2;
                               0x10 + (plant_id p - 1) * 4 + 3]) plants)
  /\ hex <$> [0; 1; 2; 3; 4; 5]
     = [py "0x0"; py "0x1"; py "0x2"; py "0x3"; py "0x4"; py "0x5"].
Proof.
  intros Hnd Hids H.
  pose proof (storage_slots_NoDup plants Hnd Hids) as Hslots.
  assert (Hkeys : NoDup (hex <$> storage_slots plants))
    by (apply (NoDup_fmap_2 hex), NoDup_ListNoDup, Hslots).
  assert (Hdom : dom storage = list_to_set (hex <$> storage_slots plants)).
  { unfold generate_genesis_storage in H. do 5 bind_inv H.
    rewrite (plant_updates_dom _ _ _ H), !dom_insert_L, dom_empty_L.
    unfold storage_slots. rewrite fmap_app, list_to_set_app_L.
    change (hex <$> header_slots)
      with [py "0x0"; py "0x1"; py "0x2"; py "0x3"; py "0x4"; py "0x5"].
    cbn [list_to_set]. set_solver. }
  split; [|split; [exact Hdom|split; [exact Hslots|split]]].
  - rewrite <- size_dom, Hdom, size_list_to_set by exact Hkeys.
    rewrite length_fmap. apply length_storage_slots.
  - apply NoDup_ListNoDup, Hkeys.
  - split; reflexivity.
Qed.

(** The storage is returned for records the packer accepts. *)
Hypothesis keccak_len : forall b : bytes, length (keccak b) = 32%nat.

Lemma to_storage_slots_returns (self : PlantData) :
  packable self -> returns (to_storage_slots keccak lower self).
Proof.
  intros (Htier & Hname & Hncbi & Hcommon). unfold to_storage_slots.
  destruct (generate_seed_returns keccak self Hname Hncbi) as [s1 H1].
  destruct (pack_slot2_returns self Hname) as (s2 & H2 & _).
  destruct (pack_slot3_returns keccak lower keccak_len self Htier Hname Hncbi Hcommon)
    as [s3 H3].
  destruct (pack_slot4_shape keccak keccak_len self) as (text & _ & H4).
  unfold pack_slot1. rewrite H1, H2, H3, H4. cbn [bind]. eexists. reflexivity.
Qed.

Lemma plant_seeds_returns (plants : list PlantData) :
  Forall packable plants -> returns (plant_seeds keccak plants).
Proof.
  induction 1 as [|p plants (_ & Hname & Hncbi & _) _ IH]; [eexists; reflexivity|].
  destruct (generate_seed_returns keccak p Hname Hncbi) as [seed Hseed].
  destruct IH as [seeds Hseeds].
  cbn [plant_seeds]. rewrite Hseed, Hseeds. cbn [bind]. eexists. reflexivity.
Qed.

Lemma plant_updates_return (plants : list PlantData) (storage : gmap str str) :
  Forall packable plants ->
  returns (for_each
             (fun storage plant =>
                let* plant_slots := to_storage_slots keccak lower plant in
                Ok (plant_slots ∪ storage)) plants storage).
Proof.
  intros Hp. revert storage.
  induction Hp as [|p plants Hpack _ IH]; intros storage; [eexists; reflexivity|].
  destruct (to_storage_slots_returns p Hpack) as [slots Hslots].
  cbn [for_each]. rewrite Hslots. cbn [bind]. apply IH.
Qed.

Lemma generate_genesis_storage_returns (now : Z) (plants : list PlantData) :
  Forall packable plants ->
  0 <= now < 2 ^ 256 ->
  Z.of_nat (length plants) < 2 ^ 256 ->
  returns (generate_genesis_storage keccak lower now plants).
Proof.
  intros Hp Hnow Hcount. unfold generate_genesis_storage.
  change (2 ^ 256) with (256 ^ Z.of_nat 32) in Hnow, Hcount.
  rewrite to_bytes_big_in_range by lia. cbn [bind].
  destruct (plant_seeds_returns plants Hp) as [seeds ->]. cbn [bind].
  destruct (calculate_merkle_root_returns keccak seeds) as [root ->]. cbn [bind].
  rewrite to_bytes_big_in_range by lia. cbn [bind].
  rewrite to_bytes_big_in_range by (vm_compute; split; [discriminate|reflexivity]).
  cbn [bind]. apply plant_updates_return, Hp.
Qed.

End StorageFacts.

(** * Test vectors of the library functions *)

Example keccak256_empty :
  to_hex (Keccak.keccak256 [])
  = py "0xc5d2460186f7233c927e7db2dcc703c0e500b653ca82273b7bfad8045d85a470".
Proof. vm_compute. reflexivity. Qed.

Example keccak256_abc :
  to_hex (Keccak.keccak256 (pyb "abc"))
  = py "0x4e03657aea45a94fc7d47ba826c8d667c0d1e6e33a64a036ec44f58fa12d6c45".
Proof. vm_compute. reflexivity. Qed.

Example crc32_check : crc32 (pyb "123456789") = 0xCBF43926.
Proof. vm_compute. reflexivity. Qed.

Example encode_utf8_euro : encode_utf8 [0x20AC%N] = Ok [xe2; x82; xac].
Proof. reflexivity. Qed.

Example hex_of_ints : hex 255 = py "0xff" /\ hex 0 = py "0x0" /\ hex (-16) = py "-0x10".
Proof. repeat split. Qed.

Example str_of_ints : str_of_int 520 = py "520" /\ str_of_int (-7) = py "-7".
Proof. repeat split. Qed.

(** The scenario of the source: 8 plants, and for the plant with id 5 a proof of
    3 siblings. *)
Example legendary_proof_length :
  length legendary_seeds = 8%nat
  /\ length (generate_merkle_proof Keccak.keccak256 legendary_seeds 4) = 3%nat.
Proof. vm_compute. split; reflexivity. Qed.

(** * The theorems on the plants of the source *)

Lemma merkle_proof_verifies_legendary :
  exists root : bytes,
    calculate_merkle_root Keccak.keccak256 legendary_seeds = Ok root
    /\ verify Keccak.keccak256 (nth 4 legendary_seeds []) 4
         (generate_merkle_proof Keccak.keccak256 legendary_seeds 4) root
         (Z.of_nat (length legendary_seeds)) = true.
Proof.
  apply (merkle_proof_verifies Keccak.keccak256 legendary_seeds 4
           (nth 4 legendary_seeds [])).
  - vm_compute. split; [discriminate|reflexivity].
  - vm_compute. reflexivity.
Defined.

Lemma calculate_merkle_root_levels_legendary :
  calculate_merkle_root Keccak.keccak256 (take 3 legendary_seeds)
  = calculate_merkle_root Keccak.keccak256
      (next_level Keccak.keccak256 (take 3 legendary_seeds)).
Proof.
  apply (calculate_merkle_root_levels Keccak.keccak256 (take 3 legendary_seeds)).
  vm_compute. repeat constructor.
Defined.

Lemma generate_merkle_proof_out_of_range_legendary :
  generate_merkle_proof Keccak.keccak256 legendary_seeds 8 = [].
Proof.
  apply (generate_merkle_proof_out_of_range Keccak.keccak256 legendary_seeds 8).
  vm_compute. discriminate.
Defined.

Lemma pack_slot3_checksum_peyote :
  exists slot : bytes,
    pack_slot3 Keccak.keccak256 lower_ascii peyote = Ok slot
    /\ drop 28 slot = be_bytes 4 (crc32 (take 28 slot)).
Proof.
  eexists. split; [vm_compute; reflexivity|].
  apply (pack_slot3_checksum Keccak.keccak256 lower_ascii keccak256_length peyote).
  vm_compute. reflexivity.
Defined.

Lemma pack_slot4_layout_peyote :
  exists (text slot : bytes),
    encode_utf8 (json_dumps_sorted (metadata peyote)) = Ok text
    /\ pack_slot4 Keccak.keccak256 peyote = Ok slot
    /\ slot !! 0%nat = Some x00
    /\ drop 1 slot = drop 1 (Keccak.keccak256 text).
Proof.
  destruct (pack_slot4_layout Keccak.keccak256 keccak256_length peyote)
    as (text & slot & Ht & _ & Hs & _ & H0 & _ & Hd).
  exists text, slot. repeat split; assumption.
Defined.

Lemma pack_slots_return_peyote :
  exists s1 s2 s3 s4 : bytes,
    pack_slot1 Keccak.keccak256 peyote = Ok s1 /\ length s1 = 32%nat
    /\ pack_slot2 peyote = Ok s2 /\ length s2 = 32%nat
    /\ pack_slot3 Keccak.keccak256 lower_ascii peyote = Ok s3 /\ length s3 = 32%nat
    /\ pack_slot4 Keccak.keccak256 peyote = Ok s4 /\ length s4 = 32%nat.
Proof.
  apply (pack_slots_return Keccak.keccak256 lower_ascii keccak256_length peyote).
  - vm_compute. split; [discriminate|reflexivity].
  - reflexivity.
  - reflexivity.
  - reflexivity.
Defined.

Lemma seed_and_plant_id_coca :
  Seeds.seed_input coca 1 <> Seeds.seed_input coca 2
  /\ generate_seed Keccak.keccak256 (with_plant_id 2 peyote)
     = generate_seed Keccak.keccak256 (with_plant_id 1 peyote).
Proof.
  destruct (seed_and_plant_id Keccak.keccak256 coca 1 2 peyote ltac:(discriminate))
    as (_ & Hne & _ & Heq).
  split; assumption.
Defined.

Lemma generate_genesis_storage_legendary_ok :
  is_ok (generate_genesis_storage Keccak.keccak256 lower_ascii 1731628800
           LEGENDARY_PLANTS) = true.
Proof. vm_compute. reflexivity. Qed.

Lemma generate_genesis_storage_layout_legendary :
  exists storage : gmap str str,
    generate_genesis_storage Keccak.keccak256 lower_ascii 1731628800
      LEGENDARY_PLANTS = Ok storage
    /\ size storage = 38%nat.
Proof.
  pose proof generate_genesis_storage_legendary_ok as Hok.
  destruct (generate_genesis_storage Keccak.keccak256 lower_ascii 1731628800
              LEGENDARY_PLANTS) as [storage|e] eqn:E; [|discriminate Hok].
  exists storage. split; [reflexivity|].
  apply (generate_genesis_storage_layout Keccak.keccak256 lower_ascii
           1731628800 LEGENDARY_PLANTS storage).
  - apply NoDup_ListNoDup. apply (bool_decide_unpack (NoDup _)).
    vm_compute. exact I.
  - vm_compute. repeat (constructor; [discriminate|]). constructor.
  - exact E.
Defined.

(** * Where the code differs from the specification *)

(** C3: two records that differ only in [plant_id] have the same seed in
    [PlantData.generate_seed]. *)
Lemma generate_seed_same_for_two_ids :
  plant_id (with_plant_id 2 peyote) <> plant_id (with_plant_id 1 peyote)
  /\ generate_seed Keccak.keccak256 (with_plant_id 2 peyote)
     = generate_seed Keccak.keccak256 (with_plant_id 1 peyote).
Proof. split; [discriminate|reflexivity]. Qed.

(** C5: bytes 1 to 31 of the metadata slot of the first plant are not bytes 0 to
    30 of the digest; they are its bytes 1 to 31. *)
Lemma pack_slot4_not_top_bytes :
  exists (digest slot : bytes),
    keccak_text Keccak.keccak256 (json_dumps_sorted (metadata peyote)) = Ok digest
    /\ pack_slot4 Keccak.keccak256 peyote = Ok slot
    /\ drop 1 slot <> take 31 digest
    /\ drop 1 slot = drop 1 digest.
Proof.
  eexists. eexists. split; [vm_compute; reflexivity|].
  split; [vm_compute; reflexivity|]. split; [|reflexivity].
  vm_compute. discriminate.
Qed.

(** C6: a record with tier 256 cannot be packed: [packed[24] = 256] raises
    [ValueError]. *)
Lemma pack_slot3_tier_256_raises :
  pack_slot3 Keccak.keccak256 lower_ascii (with_rarity_tier 256 peyote)
  = Raise ValueError.
Proof. vm_compute. reflexivity. Qed.

(** A name with a lone surrogate cannot be encoded either. *)
Example pack_slot2_surrogate_raises :
  pack_slot2 (with_scientific_name [0xD800%N] peyote) = Raise UnicodeEncodeError.
Proof. reflexivity. Qed.

(** * Further properties of the scripts *)

(** ** Traits, property bits and status codes *)

Lemma encode_utf8_raises (s : str) :
  encodable s = false -> encode_utf8 s = Raise UnicodeEncodeError.
Proof.
  induction s as [|c s IH]; [discriminate|].
  unfold encodable. cbn [forallb]. rewrite andb_false_iff, negb_false_iff.
  intros Hbad. cbn [encode_utf8].
  destruct (is_surrogate c) eqn:Hc.
  - unfold utf8_char. rewrite Hc.
    unfold is_surrogate in Hc. apply andb_true_iff in Hc as [Hlo Hhi].
    apply N.leb_le in Hlo, Hhi.
    destruct (N.ltb_spec c 0x80); [lia|]. destruct (N.ltb_spec c 0x800); [lia|].
    destruct (N.ltb_spec c 0x10000); [reflexivity|lia].
  - destruct Hbad as [Hbad|Hbad]; [discriminate|].
    destruct (utf8_char_returns c Hc) as [b ->]. cbn [bind].
    rewrite (IH Hbad). reflexivity.
Qed.

Lemma encode_utf8_Ok_encodable (s : str) (b : bytes) :
  encode_utf8 s = Ok b -> encodable s = true.
Proof.
  intros H. destruct (encodable s) eqn:He; [reflexivity|].
  rewrite (encode_utf8_raises s He) in H. discriminate.
Qed.

Section TraitFacts.

Variable keccak : bytes -> bytes.
Variable lower : str -> str.

Lemma generate_seed_Ok_encodable (self : PlantData) (seed : bytes) :
  generate_seed keccak self = Ok seed ->
  encodable (scientific_name self) = true /\ encodable (ncbi_code self) = true.
Proof.
  unfold generate_seed, keccak_text. intros H. bind_inv H.
  apply encode_utf8_Ok_encodable in Hv. rewrite !encodable_app in Hv. tauto.
Qed.

(** X1: the traits of a record, when [generate_traits] returns them: eight byte
    values, trait [i] being the first byte of [keccak(seed + bytes([i]))]; the
    name and the NCBI code of such a record can be encoded. *)
Theorem generate_traits_bytes (self : PlantData) (traits : list Z) :
  generate_traits keccak self = Ok traits ->
  length traits = 8%nat
  /\ Forall (fun v => 0 <= v < 256) traits
  /\ encodable (scientific_name self) = true
  /\ encodable (ncbi_code self) = true
  /\ exists seed : bytes,
       generate_seed keccak self = Ok seed
       /\ forall i : nat, (i < 8)%nat ->
            traits !! i
            = Some (from_bytes_big
                      (take 1 (keccak (seed ++ [byte_of_Z (Z.of_nat i)])))).
Proof.
  intros H. destruct (generate_traits_Ok keccak self traits H) as [Hrange Hlen].
  split; [exact Hlen|]. split; [exact Hrange|].
  unfold generate_traits in H. bind_inv H. rename v into seed.
  destruct (generate_seed_Ok_encodable self seed Hv) as [Hn Hc].
  split; [exact Hn|]. split; [exact Hc|].
  exists seed. split; [exact Hv|]. apply Ok_inj in H as <-.
  intros i Hi. do 8 (destruct i as [|i]; [reflexivity|]). lia.
Qed.

Lemma shiftl_1_testbit (b k : Z) :
  0 <= b -> Z.testbit (Z.shiftl 1 b) k = (b =? k).
Proof. intros Hb. rewrite Z.shiftl_1_l. apply Z.pow2_bits_eqb, Hb. Qed.

Lemma encode_properties_fold_testbit (props : list str) (start k : Z) :
  Z.testbit
    (fold_left
       (fun bitfield prop =>
          match dict_get property_map (lower prop) with
          | Some bit_index => Z.lor bitfield (Z.shiftl 1 bit_index)
          | None => bitfield
          end) props start) k = true
  <-> Z.testbit start k = true
      \/ exists prop, In prop props /\ dict_get property_map (lower prop) = Some k.
Proof.
  revert start. induction props as [|prop props IH]; intros start.
  - cbn [fold_left]. split; [auto|]. intros [H|(p & [] & _)]. exact H.
  - cbn [fold_left]. rewrite IH. clear IH.
    destruct (dict_get property_map (lower prop)) as [b|] eqn:Hget.
    + pose proof (property_map_range _ _ Hget) as Hb.
      rewrite Z.lor_spec, orb_true_iff, shiftl_1_testbit by lia. split.
      * intros [[H|H]|(p & Hp & Hk)].
        -- left. exact H.
        -- right. exists prop. apply Z.eqb_eq in H. subst b.
           split; [left; reflexivity|exact Hget].
        -- right. exists p. split; [right; exact Hp|exact Hk].
      * intros [H|(p & [<-|Hp] & Hk)].
        -- left. left. exact H.
        -- left. right. apply Z.eqb_eq. congruence.
        -- right. exists p. auto.
    + split.
      * intros [H|(p & Hp & Hk)]; [left; exact H|].
        right. exists p. split; [right; exact Hp|exact Hk].
      * intros [H|(p & [<-|Hp] & Hk)]; [left; exact H|congruence|].
        right. exists p. auto.
Qed.

(** X2: bit [k] of the property bitfield is set exactly when some property of the
    record, lowercased, is the tag with bit index [k]: unknown tags add
    nothing, and order and repetition of the properties do not matter. *)
Theorem encode_properties_testbit (self : PlantData) (k : Z) :
  Z.testbit (_encode_properties lower self) k = true
  <-> exists prop : str,
        In prop (properties self)
        /\ dict_get property_map (lower prop) = Some k.
Proof.
  unfold _encode_properties. rewrite encode_properties_fold_testbit.
  rewrite Z.bits_0. split; [intros [H|H]; [discriminate|exact H]|auto].
Qed.

End TraitFacts.

Lemma dict_get_Some_In {V : Type} (d : list (str * V)) (key : str) (v : V) :
  dict_get d key = Some v -> In (key, v) d.
Proof.
  induction d as [|[k w] d IH]; cbn [dict_get]; [discriminate|].
  destruct (decide (k = key)) as [->|]; [intros [= ->]; left; reflexivity|].
  intros H. right. apply IH, H.
Qed.

Lemma status_map_codes_distinct :
  Forall (fun e1 : str * Z =>
            Forall (fun e2 : str * Z => snd e1 = snd e2 -> fst e1 = fst e2)
              status_map) status_map.
Proof. apply (bool_decide_unpack _). vm_compute. exact I. Qed.

(** X3: the status byte: the code of a listed IUCN status, 8 for any other string;
    listed statuses have pairwise different codes, so only the code 8 of [NE]
    is shared with the unknown strings. *)
Theorem encode_conservation_codes (self other : PlantData) :
  0 <= _encode_conservation self <= 8
  /\ (dict_get status_map (conservation_status self) = None ->
      _encode_conservation self = 8)
  /\ (dict_get status_map (conservation_status self) <> None ->
      dict_get status_map (conservation_status other) <> None ->
      _encode_conservation self = _encode_conservation other ->
      conservation_status self = conservation_status other).
Proof.
  unfold _encode_conservation. split; [|split].
  - destruct (dict_get status_map (conservation_status self)) as [c|] eqn:H;
      [apply status_map_range in H|]; lia.
  - intros ->. reflexivity.
  - destruct (dict_get status_map (conservation_status self)) as [c|] eqn:H1;
      [|congruence].
    destruct (dict_get status_map (conservation_status other)) as [d|] eqn:H2;
      [|congruence].
    intros _ _ <-. apply dict_get_Some_In in H1, H2.
    pose proof status_map_codes_distinct as Hd.
    rewrite Forall_forall in Hd. specialize (Hd _ (proj2 (list_elem_of_In _ _) H1)).
    rewrite Forall_forall in Hd. specialize (Hd _ (proj2 (list_elem_of_In _ _) H2)).
    apply Hd. reflexivity.
Qed.

(** ** The name slot and the data slot, field by field *)

(** X4: the name slot: 32 bytes, the UTF-8 encoding of the name cut after 32
    bytes and filled with zero bytes; a name of at most 32 encoded bytes is
    kept whole, and the only failure is a name with a surrogate. *)
Theorem pack_slot2_content (self : PlantData) :
  (encodable (scientific_name self) = false ->
   pack_slot2 self = Raise UnicodeEncodeError)
  /\ (encodable (scientific_name self) = true ->
      exists encoded : bytes,
        encode_utf8 (scientific_name self) = Ok encoded
        /\ pack_slot2 self
           = Ok (take 32 encoded ++ replicate (32 - length encoded) x00)
        /\ length (take 32 encoded ++ replicate (32 - length encoded) x00) = 32%nat
        /\ ((length encoded <= 32)%nat ->
            take (length encoded)
              (take 32 encoded ++ replicate (32 - length encoded) x00) = encoded)).
Proof.
  unfold pack_slot2. split.
  - intros Hbad. rewrite (encode_utf8_raises _ Hbad). reflexivity.
  - intros Hok. destruct (encode_utf8_returns _ Hok) as [encoded Henc].
    exists encoded. rewrite Henc. cbn [bind]. unfold ljust.
    rewrite length_take.
    replace (32 - 32 `min` length encoded)%nat with (32 - length encoded)%nat by lia.
    split; [reflexivity|]. split; [reflexivity|]. split.
    + rewrite length_app, length_take, length_replicate. lia.
    + intros Hlen. rewrite (take_ge encoded 32) by lia.
      rewrite take_app_length. reflexivity.
Qed.

Lemma set_slice_at (pre mid post v : bytes) (lo hi : nat) :
  length pre = lo -> (lo <= hi)%nat -> length mid = (hi - lo)%nat ->
  set_slice lo hi v (pre ++ mid ++ post) = pre ++ v ++ post.
Proof.
  intros Hpre Hle Hmid. unfold set_slice.
  rewrite take_app_length' by (symmetry; exact Hpre).
  rewrite (app_assoc pre mid post), drop_app_length' by (rewrite length_app; lia).
  reflexivity.
Qed.

Lemma insert_at (pre : bytes) (x y : byte) (post : bytes) (i : nat) :
  length pre = i -> <[i := x]> (pre ++ y :: post) = pre ++ x :: post.
Proof.
  intros <-. rewrite (insert_app_r_alt pre _ (length pre)) by lia.
  rewrite Nat.sub_diag. reflexivity.
Qed.

Lemma store_items_at (vals : list Z) (start : nat) (pre mid post : bytes) :
  Forall (fun v => 0 <= v < 256) vals ->
  length pre = (12 + start)%nat -> length mid = length vals ->
  for_each (fun b it => set_item (12 + fst it) (snd it) b)
    (enumerate_from start vals) (pre ++ mid ++ post)
  = Ok (pre ++ List.map byte_of_Z vals ++ post).
Proof.
  intros Hv. revert start pre mid.
  induction Hv as [|v vals Hv1 _ IH]; intros start pre mid Hpre Hmid.
  - destruct mid; [reflexivity|discriminate].
  - destruct mid as [|m mid]; [discriminate|].
    cbn [enumerate_from for_each fst snd].
    rewrite set_item_in_range
      by (try exact Hv1; rewrite length_app; simpl; lia).
    cbn [bind]. rewrite <- Hpre.
    replace (<[length pre := byte_of_Z v]> (pre ++ (m :: mid) ++ post))
      with ((pre ++ [byte_of_Z v]) ++ mid ++ post).
    + rewrite (IH (S start) (pre ++ [byte_of_Z v]) mid)
        by (rewrite ?length_app; simpl in *; lia).
      rewrite <- app_assoc. reflexivity.
    + rewrite <- app_assoc. symmetry.
      rewrite (insert_app_r_alt pre _ (length pre)) by lia.
      rewrite Nat.sub_diag. reflexivity.
Qed.

Section SlotFields.

Variable keccak : bytes -> bytes.
Variable lower : str -> str.
Hypothesis keccak_len : forall b : bytes, length (keccak b) = 32%nat.

(** The 28 bytes of fields of the data slot. *)
Lemma pack_slot3_value (self : PlantData) (encoded digest : bytes)
  (traits : list Z) :
  encode_utf8 (ncbi_code self) = Ok encoded ->
  keccak_text keccak (join (py ",") (common_names self)) = Ok digest ->
  generate_traits keccak self = Ok traits ->
  0 <= rarity_tier self < 256 ->
  let fields :=
    ljust 8 (take 8 encoded) ++ take 4 digest ++ List.map byte_of_Z traits
    ++ be_bytes 4 (_encode_properties lower self)
    ++ [byte_of_Z (rarity_tier self); byte_of_Z (_encode_conservation self);
        x00; x00] in
  length fields = 28%nat
  /\ pack_slot3 keccak lower self = Ok (fields ++ be_bytes 4 (crc32 fields)).
Proof.
  intros Henc Hdig Htraits Htier fields.
  destruct (generate_traits_Ok keccak self traits Htraits) as [Hrange Hcount].
  pose proof (keccak_text_length keccak keccak_len _ _ Hdig) as Hdlen.
  assert (Hn8 : length (ljust 8 (take 8 encoded)) = 8%nat)
    by apply length_ljust_take.
  assert (Hh4 : length (take 4 digest) = 4%nat) by (rewrite length_take; lia).
  assert (Hfields : length fields = 28%nat).
  { unfold fields. rewrite !length_app, Hn8, Hh4, length_map, Hcount,
      length_be_bytes. reflexivity. }
  split; [exact Hfields|].
  unfold pack_slot3. rewrite Henc. cbn [bind]. rewrite Hdig. cbn [bind].
  rewrite Htraits. cbn [bind].
  set (n8 := ljust 8 (take 8 encoded)) in *. set (h4 := take 4 digest) in *.
  change (replicate 32 x00)
    with ([] ++ replicate 8 x00 ++ replicate 4 x00 ++ replicate 8 x00
          ++ replicate 4 x00 ++ [x00] ++ [x00] ++ [x00; x00] ++ replicate 4 x00).
  rewrite (set_slice_at [] (replicate 8 x00) _ n8 0 8) by (reflexivity || lia).
  cbn [app].
  rewrite (set_slice_at n8 (replicate 4 x00) _ h4 8 12)
    by (assumption || reflexivity || lia).
  unfold enumerate.
  rewrite (app_assoc n8 h4).
  rewrite (store_items_at traits 0 (n8 ++ h4) (replicate 8 x00))
    by (try exact Hrange; rewrite ?length_app, ?length_replicate; lia).
  cbn [bind]. rewrite encode_properties_fits. cbn [bind].
  rewrite (app_assoc (n8 ++ h4) (List.map byte_of_Z traits)).
  set (p20 := (n8 ++ h4) ++ List.map byte_of_Z traits).
  assert (Hp20 : length p20 = 20%nat)
    by (unfold p20; rewrite !length_app, length_map; lia).
  rewrite (set_slice_at p20 (replicate 4 x00) _
             (be_bytes 4 (_encode_properties lower self)) 20 24)
    by (assumption || reflexivity || lia).
  set (pb := be_bytes 4 (_encode_properties lower self)).
  assert (Hpb : length pb = 4%nat) by apply length_be_bytes.
  rewrite set_item_in_range by (try exact Htier; rewrite !length_app; simpl; lia).
  cbn [bind].
  assert (Hstatus : 0 <= _encode_conservation self < 256).
  { unfold _encode_conservation.
    destruct (dict_get status_map (conservation_status self)) as [c|] eqn:Hg;
      [apply status_map_range in Hg|]; lia. }
  rewrite set_item_in_range
    by (try exact Hstatus; rewrite length_insert, !length_app; simpl; lia).
  cbn [bind].
  rewrite (app_assoc p20 pb).
  assert (Hp24 : length (p20 ++ pb) = 24%nat) by (rewrite length_app; lia).
  rewrite (insert_at (p20 ++ pb) (byte_of_Z (rarity_tier self)) x00 _ 24 Hp24).
  replace ((p20 ++ pb) ++ byte_of_Z (rarity_tier self)
           :: x00 :: x00 :: x00 :: replicate 4 x00)
    with (((p20 ++ pb) ++ [byte_of_Z (rarity_tier self)])
          ++ x00 :: x00 :: x00 :: replicate 4 x00)
    by (rewrite <- !app_assoc; reflexivity).
  rewrite (insert_at _ (byte_of_Z (_encode_conservation self)) x00
             (x00 :: x00 :: replicate 4 x00) 25)
    by (rewrite !length_app; simpl; lia).
  replace (((p20 ++ pb) ++ [byte_of_Z (rarity_tier self)])
           ++ byte_of_Z (_encode_conservation self)
              :: x00 :: x00 :: replicate 4 x00)
    with ((p20 ++ pb ++ [byte_of_Z (rarity_tier self);
                         byte_of_Z (_encode_conservation self)])
          ++ [x00; x00] ++ replicate 4 x00)
    by (rewrite <- !app_assoc; reflexivity).
  rewrite (set_slice_at _ [x00; x00] (replicate 4 x00) [x00; x00] 26 28)
    by (rewrite ?length_app, ?Hp20, ?Hpb; reflexivity || lia).
  assert (Hsame : (p20 ++ pb ++ [byte_of_Z (rarity_tier self);
                                 byte_of_Z (_encode_conservation self)])
                  ++ [x00; x00] = fields).
  { unfold fields, p20, pb. rewrite <- !app_assoc. reflexivity. }
  rewrite (app_assoc _ [x00; x00] (replicate 4 x00)), Hsame.
  rewrite <- Hfields at 1. rewrite take_app_length, crc32_mask.
  rewrite to_bytes_big_in_range by apply crc32_range. cbn [bind].
  rewrite <- (app_nil_r (replicate 4 x00)).
  rewrite (set_slice_at fields (replicate 4 x00) [] _ 28 32)
    by (assumption || reflexivity || lia).
  rewrite app_nil_r. reflexivity.
Qed.

(** X5: every field of a packed data slot is read back at its documented offset:
    the NCBI code at 0, the digest of the common names at 8, the traits at 12,
    the property bitfield at 20, the tier at 24, the status at 25, two zero
    bytes at 26. *)
Theorem pack_slot3_fields (self : PlantData) (slot : bytes) :
  pack_slot3 keccak lower self = Ok slot ->
  exists (encoded digest : bytes) (traits : list Z),
    encode_utf8 (ncbi_code self) = Ok encoded
    /\ keccak_text keccak (join (py ",") (common_names self)) = Ok digest
    /\ generate_traits keccak self = Ok traits
    /\ take 8 slot = ljust 8 (take 8 encoded)
    /\ take 4 (drop 8 slot) = take 4 digest
    /\ List.map Z_of_byte (take 8 (drop 12 slot)) = traits
    /\ from_bytes_big (take 4 (drop 20 slot)) = _encode_properties lower self
    /\ Z_of_byte <$> slot !! 24%nat = Some (rarity_tier self)
    /\ Z_of_byte <$> slot !! 25%nat = Some (_encode_conservation self)
    /\ slot !! 26%nat = Some x00
    /\ slot !! 27%nat = Some x00.
Proof.
  intros H. pose proof H as H'. unfold pack_slot3 in H'.
  bind_inv H'. rename v into encoded.
  bind_inv H'. rename v into digest.
  bind_inv H'. rename v into traits.
  bind_inv H'. bind_inv H'. bind_inv H'.
  apply set_item_Ok in Hv4 as (Htier & _ & _). clear H' Hv2 Hv3.
  destruct (pack_slot3_value self encoded digest traits Hv Hv0 Hv1 Htier)
    as [_ Hval].
  rewrite Hval in H. apply Ok_inj in H as <-.
  destruct (generate_traits_Ok keccak self traits Hv1) as [Hrange Hcount].
  pose proof (keccak_text_length keccak keccak_len _ _ Hv0) as Hdlen.
  exists encoded, digest, traits.
  split; [exact Hv|]. split; [exact Hv0|]. split; [exact Hv1|].
  set (n8 := ljust 8 (take 8 encoded)). set (h4 := take 4 digest).
  set (tb := List.map byte_of_Z traits).
  set (pb := be_bytes 4 (_encode_properties lower self)).
  set (cks := be_bytes 4 (crc32 _)).
  assert (Hn8 : length n8 = 8%nat) by apply length_ljust_take.
  assert (Hh4 : length h4 = 4%nat) by (unfold h4; rewrite length_take; lia).
  assert (Htb : length tb = 8%nat) by (unfold tb; rewrite length_map; exact Hcount).
  assert (Hpb : length pb = 4%nat) by apply length_be_bytes.
  rewrite <- !app_assoc.
  assert (D8 : drop 8 (n8 ++ h4 ++ tb ++ pb
                       ++ [byte_of_Z (rarity_tier self);
                           byte_of_Z (_encode_conservation self); x00; x00]
                       ++ cks)
               = h4 ++ tb ++ pb
                 ++ [byte_of_Z (rarity_tier self);
                     byte_of_Z (_encode_conservation self); x00; x00] ++ cks)
    by (apply drop_app_length'; lia).
  assert (D12 : drop 12 (n8 ++ h4 ++ tb ++ pb
                       ++ [byte_of_Z (rarity_tier self);
                           byte_of_Z (_encode_conservation self); x00; x00]
                       ++ cks)
               = tb ++ pb
                 ++ [byte_of_Z (rarity_tier self);
                     byte_of_Z (_encode_conservation self); x00; x00] ++ cks).
  { change 12%nat with (8 + 4)%nat. rewrite <- drop_drop, D8.
    apply drop_app_length'. lia. }
  assert (D20 : drop 20 (n8 ++ h4 ++ tb ++ pb
                       ++ [byte_of_Z (rarity_tier self);
                           byte_of_Z (_encode_conservation self); x00; x00]
                       ++ cks)
               = pb
                 ++ [byte_of_Z (rarity_tier self);
                     byte_of_Z (_encode_conservation self); x00; x00] ++ cks).
  { change 20%nat with (12 + 8)%nat. rewrite <- drop_drop, D12.
    apply drop_app_length'. lia. }
  assert (D24 : drop 24 (n8 ++ h4 ++ tb ++ pb
                       ++ [byte_of_Z (rarity_tier self);
                           byte_of_Z (_encode_conservation self); x00; x00]
                       ++ cks)
               = [byte_of_Z (rarity_tier self);
                  byte_of_Z (_encode_conservation self); x00; x00] ++ cks).
  { change 24%nat with (20 + 4)%nat. rewrite <- drop_drop, D20.
    apply drop_app_length'. lia. }
  assert (Hstatus : 0 <= _encode_conservation self < 256).
  { unfold _encode_conservation.
    destruct (dict_get status_map (conservation_status self)) as [c|] eqn:Hg;
      [apply status_map_range in Hg|]; lia. }
  assert (Hat : forall k : nat,
             (n8 ++ h4 ++ tb ++ pb
              ++ [byte_of_Z (rarity_tier self);
                  byte_of_Z (_encode_conservation self); x00; x00] ++ cks)
             !! (24 + k)%nat
             = ([byte_of_Z (rarity_tier self);
                 byte_of_Z (_encode_conservation self); x00; x00] ++ cks) !! k)
    by (intros k; rewrite <- (lookup_drop _ 24 k), D24; reflexivity).
  split; [apply take_app_length'; lia|].
  split; [rewrite D8; apply take_app_length'; lia|].
  split.
  { rewrite D12, take_app_length' by lia. unfold tb.
    rewrite List.map_map. rewrite <- (List.map_id traits) at 2.
    apply map_ext_in. intros t Ht. rewrite Z_of_byte_of_Z.
    rewrite Forall_forall in Hrange.
    specialize (Hrange t (proj2 (list_elem_of_In _ _) Ht)).
    apply Z.mod_small. exact Hrange. }
  split.
  { rewrite D20, take_app_length' by lia. unfold pb.
    apply from_bytes_big_be_bytes.
    pose proof (encode_properties_range lower self).
    change (256 ^ Z.of_nat 4) with 4294967296. lia. }
  pose proof (Hat 0%nat) as H24. pose proof (Hat 1%nat) as H25.
  pose proof (Hat 2%nat) as H26. pose proof (Hat 3%nat) as H27.
  cbn [Nat.add] in H24, H25, H26, H27.
  split; [rewrite H24; cbn [app lookup list_lookup fmap option_fmap option_map];
          rewrite Z_of_byte_of_Z, Z.mod_small by lia; reflexivity|].
  split; [rewrite H25; cbn [app lookup list_lookup fmap option_fmap option_map];
          rewrite Z_of_byte_of_Z, Z.mod_small by lia; reflexivity|].
  split; [exact H26|exact H27].
Qed.

Lemma encodable_join_eq (parts : list str) :
  encodable (join (py ",") parts) = forallb encodable parts.
Proof.
  induction parts as [|p parts IH]; [reflexivity|].
  destruct parts as [|q parts]; [cbn [join forallb]; rewrite andb_true_r; reflexivity|].
  change (join (py ",") (p :: q :: parts))
    with (p ++ py "," ++ join (py ",") (q :: parts)).
  unfold encodable at 1. rewrite !forallb_app. fold (encodable p).
  fold (encodable (join (py ",") (q :: parts))). rewrite IH. reflexivity.
Qed.

Lemma keccak_text_raises (s : str) :
  encodable s = false -> keccak_text keccak s = Raise UnicodeEncodeError.
Proof.
  intros Hbad. unfold keccak_text. rewrite (encode_utf8_raises s Hbad). reflexivity.
Qed.

Lemma generate_traits_raises (self : PlantData) :
  encodable (scientific_name self) = false ->
  generate_traits keccak self = Raise UnicodeEncodeError.
Proof.
  intros Hbad. unfold generate_traits, generate_seed.
  rewrite keccak_text_raises; [reflexivity|].
  unfold encodable. rewrite forallb_app. fold (encodable (scientific_name self)).
  rewrite Hbad. reflexivity.
Qed.

Lemma pack_slot3_unicode_error (self : PlantData) :
  strings_encodable self = false ->
  pack_slot3 keccak lower self = Raise UnicodeEncodeError.
Proof.
  unfold strings_encodable. intros Hbad. unfold pack_slot3.
  destruct (encodable (ncbi_code self)) eqn:Hncbi;
    [|rewrite (encode_utf8_raises _ Hncbi); reflexivity].
  destruct (encode_utf8_returns _ Hncbi) as [encoded ->]. cbn [bind].
  destruct (forallb encodable (common_names self)) eqn:Hcommon.
  - destruct (keccak_text_encodable keccak (join (py ",") (common_names self)))
      as (b & _ & ->); [rewrite encodable_join_eq; exact Hcommon|].
    cbn [bind]. rewrite generate_traits_raises; [reflexivity|].
    rewrite !andb_true_r in Hbad. exact Hbad.
  - rewrite keccak_text_raises; [reflexivity|].
    rewrite encodable_join_eq. exact Hcommon.
Qed.

Lemma pack_slot3_value_error (self : PlantData) :
  strings_encodable self = true -> ~ 0 <= rarity_tier self < 256 ->
  pack_slot3 keccak lower self = Raise ValueError.
Proof.
  unfold strings_encodable. rewrite !andb_true_iff.
  intros [[Hname Hncbi] Hcommon] Htier. unfold pack_slot3.
  destruct (encode_utf8_returns _ Hncbi) as [encoded ->]. cbn [bind].
  destruct (keccak_text_encodable keccak (join (py ",") (common_names self)))
    as (b & _ & ->); [rewrite encodable_join_eq; exact Hcommon|].
  cbn [bind].
  destruct (generate_seed_returns keccak self Hname Hncbi) as [seed Hseed].
  assert (Htraits : exists traits, generate_traits keccak self = Ok traits)
    by (unfold generate_traits; rewrite Hseed; eexists; reflexivity).
  destruct Htraits as [traits Htraits]. rewrite Htraits. cbn [bind].
  destruct (generate_traits_Ok keccak self traits Htraits) as [Hrange Hcount].
  pose proof (length_header_fields encoded (keccak b) (keccak_len b)) as Hlen0.
  match goal with |- context [for_each _ _ ?p] => set (packed0 := p) in * end.
  destruct (store_items_returns traits 0 packed0 Hrange) as [packed1 Hstore];
    [lia|].
  unfold enumerate. rewrite Hstore. cbn [bind].
  rewrite encode_properties_fits. cbn [bind].
  unfold set_item at 1.
  destruct (Z.ltb_spec (rarity_tier self) 0); [reflexivity|].
  destruct (Z.leb_spec 256 (rarity_tier self)); [reflexivity|lia].
Qed.

Lemma pack_slot3_Ok_packable (self : PlantData) :
  returns (pack_slot3 keccak lower self) -> packable self.
Proof.
  intros [slot Hslot]. unfold packable.
  destruct (strings_encodable self) eqn:Hs;
    [|rewrite (pack_slot3_unicode_error self Hs) in Hslot; discriminate].
  destruct (decide (0 <= rarity_tier self < 256)) as [Ht|Ht];
    [|rewrite (pack_slot3_value_error self Hs Ht) in Hslot; discriminate].
  unfold strings_encodable in Hs. rewrite !andb_true_iff in Hs. tauto.
Qed.

(** X6: the outcome of [pack_slot3]: it returns exactly for a record with a tier
    in 0..255 and no surrogate in the name, the NCBI code and the common
    names; it raises [UnicodeEncodeError] on a surrogate in one of them, and
    [ValueError] on another tier when the strings can be encoded. *)
Theorem pack_slot3_outcome (self : PlantData) :
  (returns (pack_slot3 keccak lower self) <-> packable self)
  /\ (strings_encodable self = false ->
      pack_slot3 keccak lower self = Raise UnicodeEncodeError)
  /\ (strings_encodable self = true -> ~ 0 <= rarity_tier self < 256 ->
      pack_slot3 keccak lower self = Raise ValueError).
Proof.
  split; [|split; [apply pack_slot3_unicode_error|apply pack_slot3_value_error]].
  split; [apply pack_slot3_Ok_packable|].
  intros (Htier & Hname & Hncbi & Hcommon).
  apply (pack_slot3_returns keccak lower keccak_len); assumption.
Qed.

End SlotFields.

(** ** Reading the storage back *)

Lemma for_each_app {A S : Type} (body : S -> A -> result S) (xs ys : list A)
  (acc : S) :
  for_each body (xs ++ ys) acc
  = bind (for_each body xs acc) (for_each body ys).
Proof.
  revert acc. induction xs as [|x xs IH]; intros acc; [reflexivity|].
  cbn [app for_each]. destruct (body acc x) as [acc'|e]; [apply IH|reflexivity].
Qed.

Lemma plant_seeds_Forall2 (keccak : bytes -> bytes) (plants : list PlantData)
  (seeds : list bytes) :
  plant_seeds keccak plants = Ok seeds ->
  Forall2 (fun p s => generate_seed keccak p = Ok s) plants seeds.
Proof.
  revert seeds. induction plants as [|p plants IH]; intros seeds H.
  - apply Ok_inj in H as <-. constructor.
  - cbn [plant_seeds] in H. bind_inv H. bind_inv H. apply Ok_inj in H as <-.
    constructor; [exact Hv|apply IH, Hv0].
Qed.

Section StorageReads.

Variable keccak : bytes -> bytes.
Variable lower : str -> str.

(** The four entries of [to_storage_slots]. *)
Lemma to_storage_slots_Ok (self : PlantData) (slots : gmap str str) :
  to_storage_slots keccak lower self = Ok slots ->
  exists s1 s2 s3 s4 : bytes,
    pack_slot1 keccak self = Ok s1 /\ pack_slot2 self = Ok s2
    /\ pack_slot3 keccak lower self = Ok s3 /\ pack_slot4 keccak self = Ok s4
    /\ slots !! hex (base_slot self + 0) = Some (to_hex s1)
    /\ slots !! hex (base_slot self + 1) = Some (to_hex s2)
    /\ slots !! hex (base_slot self + 2) = Some (to_hex s3)
    /\ slots !! hex (base_slot self + 3) = Some (to_hex s4).
Proof.
  unfold to_storage_slots. intros H. bind_inv H. bind_inv H. bind_inv H. bind_inv H.
  apply Ok_inj in H as <-. exists v, v0, v1, v2.
  assert (Hne : forall a b : Z, a <> b -> hex (base_slot self + a) <> hex (base_slot self + b))
    by (intros a b Hab Heq; apply hex_inj in Heq; lia).
  repeat split; try assumption.
  - rewrite !lookup_insert_ne by (apply Hne; lia). apply lookup_insert_eq.
  - rewrite !lookup_insert_ne by (apply Hne; lia). apply lookup_insert_eq.
  - rewrite !lookup_insert_ne by (apply Hne; lia). apply lookup_insert_eq.
  - apply lookup_insert_eq.
Qed.

Lemma plant_updates_untouched (plants : list PlantData)
  (storage result : gmap str str) (key : str) :
  for_each
    (fun storage plant =>
       let* plant_slots := to_storage_slots keccak lower plant in
       Ok (plant_slots ∪ storage)) plants storage = Ok result ->
  key ∉ hex <$> concat (List.map record_slots plants) ->
  result !! key = storage !! key.
Proof.
  revert storage. induction plants as [|p plants IH]; intros storage H Hkey.
  - apply Ok_inj in H as <-. reflexivity.
  - cbn [for_each] in H. bind_inv H. bind_inv Hv. apply Ok_inj in Hv as <-.
    cbn [List.map concat] in Hkey. rewrite fmap_app, elem_of_app in Hkey.
    rewrite (IH _ H) by tauto.
    apply lookup_union_r, not_elem_of_dom.
    rewrite (to_storage_slots_dom keccak lower p v0 Hv0), elem_of_list_to_set.
    tauto.
Qed.

Lemma plant_updates_lookup (plants : list PlantData)
  (storage result : gmap str str) :
  for_each
    (fun storage plant =>
       let* plant_slots := to_storage_slots keccak lower plant in
       Ok (plant_slots ∪ storage)) plants storage = Ok result ->
  NoDup (hex <$> concat (List.map record_slots plants)) ->
  forall (p : PlantData) (slots : gmap str str) (key value : str),
    In p plants -> to_storage_slots keccak lower p = Ok slots ->
    slots !! key = Some value -> result !! key = Some value.
Proof.
  revert storage. induction plants as [|p0 plants IH]; intros storage H Hnd.
  - intros p slots key value [].
  - cbn [for_each] in H. bind_inv H. bind_inv Hv. apply Ok_inj in Hv as <-.
    cbn [List.map concat] in Hnd. rewrite fmap_app in Hnd.
    apply NoDup_app in Hnd as (_ & Hdisj & Hrest).
    intros p slots key value [<-|Hin] Hslots Hkey.
    + assert (slots = v0) by congruence. subst v0.
      rewrite (plant_updates_untouched _ _ _ key H).
      * apply lookup_union_Some_l, Hkey.
      * apply Hdisj. apply (elem_of_list_to_set (C := gset str)).
        rewrite <- (to_storage_slots_dom keccak lower p0 slots Hslots).
        apply elem_of_dom. eauto.
    + eapply IH; eauto.
Qed.

Lemma plant_updates_each_returns (plants : list PlantData)
  (storage result : gmap str str) :
  for_each
    (fun storage plant =>
       let* plant_slots := to_storage_slots keccak lower plant in
       Ok (plant_slots ∪ storage)) plants storage = Ok result ->
  forall p, In p plants -> returns (to_storage_slots keccak lower p).
Proof.
  revert storage. induction plants as [|q plants IH]; intros storage H p Hin.
  - destruct Hin.
  - cbn [for_each] in H. bind_inv H. bind_inv Hv.
    destruct Hin as [<-|Hin]; [eexists; exact Hv0|exact (IH _ H p Hin)].
Qed.

Lemma header_key_untouched (plants : list PlantData) (n : Z) :
  Forall (fun p => 1 <= plant_id p) plants -> 0 <= n <= 5 ->
  hex n ∉ hex <$> concat (List.map record_slots plants).
Proof.
  intros Hids Hn Hin. apply list_elem_of_fmap in Hin as (x & Hx & Hin).
  apply hex_inj in Hx as <-.
  apply list_elem_of_In, record_slots_elem in Hin as (p & Hp & Hr).
  rewrite Forall_forall in Hids.
  specialize (Hids p (proj2 (list_elem_of_In _ _) Hp)).
  unfold base_slot in Hr. lia.
Qed.

(** X7: the header of the storage, when no record id is below 1: slot 2 holds the
    number of plants, slot 3 the Merkle root of the seeds of the plants in list
    order, slot 4 the time, slot 5 the version word [0x100], each as the hex
    text of 32 big-endian bytes. *)
Theorem generate_genesis_storage_header (now : Z) (plants : list PlantData)
  (storage : gmap str str) :
  Forall (fun p => 1 <= plant_id p) plants ->
  generate_genesis_storage keccak lower now plants = Ok storage ->
  exists (seeds : list bytes) (root : bytes),
    Forall2 (fun p s => generate_seed keccak p = Ok s) plants seeds
    /\ calculate_merkle_root keccak seeds = Ok root
    /\ 0 <= now < 2 ^ 256
    /\ storage !! py "0x0" = Some (to_hex (ljust 32 (pyb "Sonk'o wachary")))
    /\ storage !! py "0x1" = Some (to_hex (ljust 32 (pyb "NCBI.nlm.nih.gov")))
    /\ storage !! py "0x2" = Some (to_hex (be_bytes 32 (Z.of_nat (length plants))))
    /\ storage !! py "0x3" = Some (to_hex root)
    /\ storage !! py "0x4" = Some (to_hex (be_bytes 32 now))
    /\ storage !! py "0x5" = Some (to_hex (be_bytes 32 0x100)).
Proof.
  intros Hids H. unfold generate_genesis_storage in H.
  bind_inv H. rename v into count. bind_inv H. rename v into seeds.
  bind_inv H. rename v into root. bind_inv H. rename v into stamp.
  bind_inv H. rename v into vbytes.
  assert (Hcount : count = be_bytes 32 (Z.of_nat (length plants))).
  { unfold to_bytes_big in Hv.
    match type of Hv with (if ?c then _ else _) = _ => destruct c end;
      [discriminate|].
    apply Ok_inj in Hv. symmetry. exact Hv. }
  assert (Hnow : 0 <= now < 2 ^ 256 /\ stamp = be_bytes 32 now).
  { unfold to_bytes_big in Hv2.
    destruct (Z.ltb_spec now 0); [discriminate|].
    destruct (Z.leb_spec (256 ^ Z.of_nat 32) now); [discriminate|].
    apply Ok_inj in Hv2. split; [|symmetry; exact Hv2].
    change (2 ^ 256) with (256 ^ Z.of_nat 32). lia. }
  assert (Hversion : vbytes = be_bytes 32 0x100)
    by (apply Ok_inj in Hv3; symmetry; exact Hv3).
  destruct Hnow as [Hnow ->]. subst count vbytes.
  exists seeds, root.
  split; [apply plant_seeds_Forall2, Hv0|]. split; [exact Hv1|].
  split; [exact Hnow|].
  assert (Hkey : forall n : Z, 0 <= n <= 5 ->
            storage !! hex n
            = (<[py "0x5" := to_hex (be_bytes 32 0x100)]>
                 (<[py "0x4" := to_hex (be_bytes 32 now)]>
                    (<[py "0x3" := to_hex root]>
                       (<[py "0x2" := to_hex (be_bytes 32 (Z.of_nat (length plants)))]>
                          (<[py "0x1" := to_hex (ljust 32 (pyb "NCBI.nlm.nih.gov"))]>
                             (<[py "0x0" := to_hex (ljust 32 (pyb "Sonk'o wachary"))]>
                                (∅ : gmap str str))))))) !! hex n).
  { intros n Hn. apply (plant_updates_untouched _ _ _ _ H).
    apply header_key_untouched; assumption. }
  pose proof (Hkey 0 ltac:(lia)) as H0. pose proof (Hkey 1 ltac:(lia)) as H1.
  pose proof (Hkey 2 ltac:(lia)) as H2. pose proof (Hkey 3 ltac:(lia)) as H3.
  pose proof (Hkey 4 ltac:(lia)) as H4. pose proof (Hkey 5 ltac:(lia)) as H5.
  change (hex 0) with (py "0x0") in H0. change (hex 1) with (py "0x1") in H1.
  change (hex 2) with (py "0x2") in H2. change (hex 3) with (py "0x3") in H3.
  change (hex 4) with (py "0x4") in H4. change (hex 5) with (py "0x5") in H5.
  rewrite H0, H1, H2, H3, H4, H5.
  repeat split;
    repeat first [apply lookup_insert_eq
                 |rewrite lookup_insert_ne by discriminate].
Qed.

(** X8: with pairwise distinct ids, all at least 1, every record is read back from
    the storage: the four slots of a plant hold the hex text of its four packed
    slots, whatever comes before or after it in the list. *)
Theorem generate_genesis_storage_records (now : Z) (plants : list PlantData)
  (storage : gmap str str) (p : PlantData) :
  List.NoDup (List.map plant_id plants) ->
  Forall (fun p => 1 <= plant_id p) plants ->
  generate_genesis_storage keccak lower now plants = Ok storage ->
  In p plants ->
  exists s1 s2 s3 s4 : bytes,
    pack_slot1 keccak p = Ok s1 /\ pack_slot2 p = Ok s2
    /\ pack_slot3 keccak lower p = Ok s3 /\ pack_slot4 keccak p = Ok s4
    /\ storage !! hex (base_slot p + 0) = Some (to_hex s1)
    /\ storage !! hex (base_slot p + 1) = Some (to_hex s2)
    /\ storage !! hex (base_slot p + 2) = Some (to_hex s3)
    /\ storage !! hex (base_slot p + 3) = Some (to_hex s4).
Proof.
  intros Hnd Hids H Hin. unfold generate_genesis_storage in H. do 5 bind_inv H.
  assert (Hkeys : NoDup (hex <$> concat (List.map record_slots plants))).
  { apply (NoDup_fmap_2 hex), NoDup_ListNoDup, record_slots_NoDup, Hnd. }
  destruct (to_storage_slots keccak lower p) as [slots|e] eqn:Hslots.
  - destruct (to_storage_slots_Ok p slots Hslots)
      as (s1 & s2 & s3 & s4 & P1 & P2 & P3 & P4 & L1 & L2 & L3 & L4).
    exists s1, s2, s3, s4.
    split; [exact P1|]. split; [exact P2|]. split; [exact P3|]. split; [exact P4|].
    split; [exact (plant_updates_lookup _ _ _ H Hkeys p slots _ _ Hin Hslots L1)|].
    split; [exact (plant_updates_lookup _ _ _ H Hkeys p slots _ _ Hin Hslots L2)|].
    split; [exact (plant_updates_lookup _ _ _ H Hkeys p slots _ _ Hin Hslots L3)|].
    exact (plant_updates_lookup _ _ _ H Hkeys p slots _ _ Hin Hslots L4).
  - destruct (plant_updates_each_returns _ _ _ H p Hin) as [slots Hok].
    congruence.
Qed.

(** X9: without any condition on the ids, the last record of the list is always
    read back: whatever an earlier record or the header wrote at its slot
    numbers is overwritten. *)
Theorem generate_genesis_storage_last (now : Z) (plants : list PlantData)
  (q : PlantData) (storage : gmap str str) :
  generate_genesis_storage keccak lower now (plants ++ [q]) = Ok storage ->
  exists s1 s2 s3 s4 : bytes,
    pack_slot1 keccak q = Ok s1 /\ pack_slot2 q = Ok s2
    /\ pack_slot3 keccak lower q = Ok s3 /\ pack_slot4 keccak q = Ok s4
    /\ storage !! hex (base_slot q + 0) = Some (to_hex s1)
    /\ storage !! hex (base_slot q + 1) = Some (to_hex s2)
    /\ storage !! hex (base_slot q + 2) = Some (to_hex s3)
    /\ storage !! hex (base_slot q + 3) = Some (to_hex s4).
Proof.
  intros H. unfold generate_genesis_storage in H. do 5 bind_inv H.
  rewrite for_each_app in H. bind_inv H. rename v4 into before.
  cbn [for_each] in H. bind_inv H. bind_inv Hv5. rename v5 into slots.
  apply Ok_inj in Hv5 as <-. apply Ok_inj in H as <-.
  destruct (to_storage_slots_Ok q slots Hv6)
    as (s1 & s2 & s3 & s4 & P1 & P2 & P3 & P4 & L1 & L2 & L3 & L4).
  exists s1, s2, s3, s4.
  repeat split; try assumption; apply lookup_union_Some_l; assumption.
Qed.

Hypothesis keccak_len : forall b : bytes, length (keccak b) = 32%nat.

(** X10: the storage is returned exactly when every plant can be packed and the time
    fits 32 bytes (for a list of fewer than [2^256] plants); otherwise the
    function raises and no storage is produced. *)
Theorem generate_genesis_storage_outcome (now : Z) (plants : list PlantData) :
  Z.of_nat (length plants) < 2 ^ 256 ->
  returns (generate_genesis_storage keccak lower now plants)
  <-> Forall packable plants /\ 0 <= now < 2 ^ 256.
Proof.
  intros Hcount. split.
  - intros [storage H]. unfold generate_genesis_storage in H.
    bind_inv H. bind_inv H. bind_inv H. bind_inv H. bind_inv H. split.
    + apply Forall_forall. intros p Hp. apply list_elem_of_In in Hp.
      destruct (plant_updates_each_returns _ _ _ H p Hp) as [slots Hslots].
      unfold to_storage_slots in Hslots. do 3 bind_inv Hslots.
      apply (pack_slot3_Ok_packable keccak lower keccak_len). eexists. exact Hv6.
    + unfold to_bytes_big in Hv2.
      destruct (Z.ltb_spec now 0); [discriminate|].
      destruct (Z.leb_spec (256 ^ Z.of_nat 32) now); [discriminate|].
      change (2 ^ 256) with (256 ^ Z.of_nat 32). lia.
  - intros [Hp Hnow].
    apply (generate_genesis_storage_returns keccak lower keccak_len); assumption.
Qed.

End StorageReads.

(** ** More on the Merkle root and proofs *)

Section MerkleMore.

Variable keccak : bytes -> bytes.

Lemma proof_pass_acc (ci i : Z) (l : list bytes) (proof : list str) :
  fst (proof_pass keccak ci i l proof)
  = proof ++ fst (proof_pass keccak ci i l []).
Proof.
  revert i proof.
  induction l as [l IH] using (induction_ltof1 _ (@length _)); unfold ltof in IH.
  intros i proof. destruct l as [|a [|b rest]];
    try (cbn; rewrite app_nil_r; reflexivity).
  rewrite !proof_pass_cons2.
  assert (Hrest : (length rest < length (a :: b :: rest))%nat) by (simpl; lia).
  destruct (ci =? i); [|destruct (ci =? i + 1)].
  - rewrite (IH rest Hrest (i + 2) (proof ++ [to_hex b])).
    rewrite (IH rest Hrest (i + 2) ([] ++ [to_hex b])).
    rewrite <- !app_assoc. reflexivity.
  - rewrite (IH rest Hrest (i + 2) (proof ++ [to_hex a])).
    rewrite (IH rest Hrest (i + 2) ([] ++ [to_hex a])).
    rewrite <- !app_assoc. reflexivity.
  - apply IH. exact Hrest.
Qed.

Lemma proof_loop_step (acc : list str) (ci : Z) (a b : bytes) (rest : list bytes) :
  proof_loop keccak acc ci (a :: b :: rest)
  = proof_loop keccak (fst (proof_pass keccak ci 0 (a :: b :: rest) acc))
      (ci / 2) (next_level keccak (a :: b :: rest)).
Proof. simp proof_loop. rewrite proof_pass_next. reflexivity. Qed.

Lemma proof_loop_acc (n : nat) :
  forall (l : list bytes) (acc : list str) (ci : Z), length l = n ->
  proof_loop keccak acc ci l = acc ++ proof_loop keccak [] ci l.
Proof.
  induction n as [n IH] using lt_wf_ind. intros l acc ci Hn.
  destruct l as [|a [|b rest]]; try (simp proof_loop; rewrite app_nil_r; reflexivity).
  rewrite !proof_loop_step.
  assert (Hshort : (length (next_level keccak (a :: b :: rest)) < n)%nat)
    by (rewrite <- Hn; apply next_level_shorter).
  rewrite (IH _ Hshort _ (fst (proof_pass keccak ci 0 (a :: b :: rest) acc)) _ eq_refl).
  rewrite (IH _ Hshort _ (fst (proof_pass keccak ci 0 (a :: b :: rest) [])) _ eq_refl).
  rewrite proof_pass_acc, <- app_assoc. reflexivity.
Qed.

(** A pass adds nothing, or the hex text of one node of the level. *)
Lemma proof_pass_adds (ci i : Z) (l : list bytes) :
  fst (proof_pass keccak ci i l []) = []
  \/ exists x, In x l /\ fst (proof_pass keccak ci i l []) = [to_hex x].
Proof.
  revert i.
  induction l as [l IH] using (induction_ltof1 _ (@length _)); unfold ltof in IH.
  intros i. destruct l as [|a [|b rest]]; try (left; reflexivity).
  rewrite proof_pass_cons2.
  destruct (Z.eqb_spec ci i); [|destruct (Z.eqb_spec ci (i + 1))].
  - right. exists b. split; [right; left; reflexivity|].
    apply proof_pass_before. lia.
  - right. exists a. split; [left; reflexivity|].
    apply proof_pass_before. lia.
  - destruct (IH rest ltac:(simpl; lia) (i + 2)) as [H|(x & Hx & H)].
    + left. exact H.
    + right. exists x. split; [right; right; exact Hx|exact H].
Qed.

Lemma pow2_half (k n : nat) :
  (n <= 2 ^ S k)%nat -> ((n + 1) / 2 <= 2 ^ k)%nat.
Proof.
  intros H. rewrite Nat.pow_succ_r' in H.
  generalize dependent (2 ^ k)%nat. intros m H.
  pose proof (Nat.div_mod_eq (n + 1) 2) as Hd.
  pose proof (Nat.mod_upper_bound (n + 1) 2 ltac:(lia)) as Hm. lia.
Qed.

Lemma proof_loop_length (k : nat) :
  forall (l : list bytes) (ci : Z), (length l <= 2 ^ k)%nat ->
  (length (proof_loop keccak [] ci l) <= k)%nat.
Proof.
  induction k as [|k IH]; intros l ci Hl.
  - destruct l as [|a [|b rest]]; simp proof_loop; simpl in *; lia.
  - destruct l as [|a [|b rest]]; try (simp proof_loop; simpl; lia).
    rewrite proof_loop_step.
    rewrite (proof_loop_acc _ _ _ _ eq_refl), length_app.
    assert (Hnext : (length (next_level keccak (a :: b :: rest)) <= 2 ^ k)%nat)
      by (rewrite next_level_length; apply pow2_half, Hl).
    specialize (IH _ (ci / 2) Hnext).
    destruct (proof_pass_adds ci 0 (a :: b :: rest)) as [->|(x & _ & ->)];
      [change (length (@nil str)) with 0%nat
      |change (length [to_hex x]) with 1%nat]; lia.
Qed.

(** X11: the proof has at most [k] elements when there are at most [2^k] leaves,
    for every index. *)
Theorem generate_merkle_proof_length (k : nat) (leaves : list bytes) (index : Z) :
  (length leaves <= 2 ^ k)%nat ->
  (length (generate_merkle_proof keccak leaves index) <= k)%nat.
Proof.
  intros Hl. unfold generate_merkle_proof.
  destruct (Z.of_nat (length leaves) <=? index); [simpl; lia|].
  apply proof_loop_length, Hl.
Qed.

Lemma proof_loop_negative (n : nat) :
  forall (l : list bytes) (ci : Z), length l = n -> ci < 0 ->
  proof_loop keccak [] ci l = [].
Proof.
  induction n as [n IH] using lt_wf_ind. intros l ci Hn Hci.
  destruct l as [|a [|b rest]]; try (simp proof_loop; reflexivity).
  rewrite proof_loop_step, proof_pass_before by lia.
  apply (IH (length (next_level keccak (a :: b :: rest)))); [|reflexivity|].
  - rewrite <- Hn. apply next_level_shorter.
  - apply Z.div_lt_upper_bound; lia.
Qed.

(** X12: a negative index is not rejected, and it is not counted from the end as
    in Python indexing: the proof is empty. *)
Theorem generate_merkle_proof_negative (leaves : list bytes) (index : Z) :
  index < 0 -> generate_merkle_proof keccak leaves index = [].
Proof.
  intros Hneg. unfold generate_merkle_proof.
  destruct (Z.of_nat (length leaves) <=? index); [reflexivity|].
  apply (proof_loop_negative _ _ _ eq_refl Hneg).
Qed.

(** The sibling of position [k] in a level, if it has one. *)
Lemma proof_pass_sibling (l : list bytes) (k : nat) (x : bytes) :
  l !! k = Some x ->
  fst (proof_pass keccak (Z.of_nat k) 0 l [])
  = match (if Nat.odd k then l !! (k - 1)%nat else l !! (k + 1)%nat) with
    | Some s => [to_hex s]
    | None => []
    end.
Proof.
  intros Hx. destruct (Nat.Even_or_Odd k) as [[j ->]|[j ->]].
  - replace (Nat.odd (2 * j)) with false
      by (symmetry; rewrite <- Nat.negb_even, Nat.even_mul; reflexivity).
    destruct (l !! (2 * j + 1)%nat) as [y|] eqn:Hy.
    + pose proof (proof_pass_even keccak 0 l j x y [] Hx Hy) as H.
      rewrite Z.add_0_l in H. exact H.
    + pose proof (proof_pass_tail keccak 0 l j x [] Hx Hy) as H.
      rewrite Z.add_0_l in H. exact H.
  - replace (Nat.odd (2 * j + 1)) with true
      by (symmetry; rewrite Nat.odd_add, Nat.odd_mul; reflexivity).
    replace (2 * j + 1 - 1)%nat with (2 * j)%nat by lia.
    destruct (l !! (2 * j)%nat) as [y|] eqn:Hy.
    + pose proof (proof_pass_odd keccak 0 l j x y [] Hy Hx) as H.
      rewrite Z.add_0_l in H. exact H.
    + apply lookup_ge_None in Hy. apply lookup_lt_Some in Hx. lia.
Qed.

Lemma merkle_proof_unfold (leaves : list bytes) (k : nat) :
  (2 <= length leaves)%nat -> (k < length leaves)%nat ->
  generate_merkle_proof keccak leaves (Z.of_nat k)
  = match (if Nat.odd k then leaves !! (k - 1)%nat else leaves !! (k + 1)%nat) with
    | Some s => [to_hex s]
    | None => []
    end
    ++ generate_merkle_proof keccak (next_level keccak leaves) (Z.of_nat (k / 2)).
Proof.
  intros Hlen Hk. unfold generate_merkle_proof.
  destruct (Z.leb_spec (Z.of_nat (length leaves)) (Z.of_nat k)); [lia|].
  assert (Hhalf : (k / 2 < length (next_level keccak leaves))%nat).
  { rewrite next_level_length. apply Nat.Div0.div_lt_upper_bound.
    assert (2 * ((length leaves + 1) / 2) >= length leaves)%nat; [|lia].
    pose proof (Nat.div_mod_eq (length leaves + 1) 2) as Hd.
    pose proof (Nat.mod_upper_bound (length leaves + 1) 2 ltac:(lia)). lia. }
  destruct (Z.leb_spec (Z.of_nat (length (next_level keccak leaves)))
              (Z.of_nat (k / 2))); [lia|].
  destruct (lookup_lt_is_Some_2 leaves k Hk) as [x Hx].
  destruct leaves as [|a [|b rest]]; simpl in Hlen; try lia.
  rewrite proof_loop_step, (proof_loop_acc _ _ _ _ eq_refl).
  rewrite (proof_pass_sibling _ k x Hx).
  replace (Z.of_nat k / 2) with (Z.of_nat (k / 2))
    by (rewrite Nat2Z.inj_div; reflexivity).
  reflexivity.
Qed.

(** X13: the proof, level by level: for two or more leaves and an index in range,
    it is the hex text of the sibling of the leaf (the left neighbour of an
    odd index, the right neighbour of an even one, nothing for the unpaired
    last leaf), followed by the proof of the parent in the next level. *)
Theorem generate_merkle_proof_step (leaves : list bytes) (k : nat) :
  (2 <= length leaves)%nat -> (k < length leaves)%nat ->
  generate_merkle_proof keccak leaves (Z.of_nat k)
  = match (if Nat.odd k then leaves !! (k - 1)%nat else leaves !! (k + 1)%nat) with
    | Some s => [to_hex s]
    | None => []
    end
    ++ generate_merkle_proof keccak (next_level keccak leaves) (Z.of_nat (k / 2)).
Proof. apply merkle_proof_unfold. Qed.

Lemma pow2_even_half (k : nat) : ((2 ^ S k + 1) / 2 = 2 ^ k)%nat.
Proof.
  rewrite Nat.pow_succ_r'. generalize (2 ^ k)%nat. intros m.
  pose proof (Nat.div_mod_eq (2 * m + 1) 2) as Hd.
  pose proof (Nat.mod_upper_bound (2 * m + 1) 2 ltac:(lia)) as Hm. lia.
Qed.

(** X14: with [2^k] leaves the proof of every leaf has exactly [k] elements: no
    node of such a tree is promoted without a sibling. *)
Theorem generate_merkle_proof_perfect (k : nat) (leaves : list bytes) (i : nat) :
  length leaves = (2 ^ k)%nat -> (i < 2 ^ k)%nat ->
  length (generate_merkle_proof keccak leaves (Z.of_nat i)) = k.
Proof.
  revert leaves i. induction k as [|k IH]; intros leaves i Hlen Hi.
  - destruct leaves as [|a [|b rest]]; try discriminate.
    unfold generate_merkle_proof. cbn [length].
    destruct (Z.of_nat 1 <=? Z.of_nat i); [reflexivity|].
    simp proof_loop. reflexivity.
  - assert (Hpos : (1 <= 2 ^ k)%nat).
    { clear. induction k as [|k IHk]; [cbn; lia|]. rewrite Nat.pow_succ_r'. lia. }
    pose proof (Nat.pow_succ_r' 2 k) as Hpow.
    rewrite merkle_proof_unfold by lia.
    rewrite length_app.
    assert (Hhalf : (i / 2 < 2 ^ k)%nat).
    { apply Nat.Div0.div_lt_upper_bound. lia. }
    rewrite (IH (next_level keccak leaves) (i / 2)%nat);
      [|rewrite next_level_length, Hlen; apply pow2_even_half|exact Hhalf].
    destruct (Nat.Even_or_Odd i) as [[j ->]|[j ->]].
    + replace (Nat.odd (2 * j)) with false
        by (symmetry; rewrite <- Nat.negb_even, Nat.even_mul; reflexivity).
      destruct (lookup_lt_is_Some_2 leaves (2 * j + 1)%nat ltac:(lia)) as [s ->].
      reflexivity.
    + replace (Nat.odd (2 * j + 1)) with true
        by (symmetry; rewrite Nat.odd_add, Nat.odd_mul; reflexivity).
      destruct (lookup_lt_is_Some_2 leaves (2 * j + 1 - 1)%nat ltac:(lia)) as [s ->].
      reflexivity.
Qed.


Hypothesis keccak_len : forall b : bytes, length (keccak b) = 32%nat.

Lemma next_level_nodes (l : list bytes) :
  Forall (fun node => length node = 32%nat) l ->
  Forall (fun node => length node = 32%nat) (next_level keccak l).
Proof.
  induction l as [l IH] using (induction_ltof1 _ (@length _)); unfold ltof in IH.
  intros Hl. destruct l as [|a [|b rest]]; try exact Hl.
  cbn [next_level]. constructor; [apply keccak_len|].
  apply IH; [simpl; lia|].
  inversion Hl as [|? ? _ Hl']; subst. inversion Hl' as [|? ? _ Hl'']; subst.
  exact Hl''.
Qed.

Lemma merkle_loop_nodes (n : nat) :
  forall l : list bytes, length l = n ->
  Forall (fun node => length node = 32%nat) l ->
  Forall (fun node => length node = 32%nat) (merkle_loop keccak l).
Proof.
  induction n as [n IH] using lt_wf_ind. intros l Hn Hl.
  destruct l as [|a [|b rest]]; simp merkle_loop.
  apply (IH (length (next_level keccak (a :: b :: rest)))); [|reflexivity|].
  - rewrite <- Hn. apply next_level_shorter.
  - apply next_level_nodes, Hl.
Qed.

(** X15: over 32-byte leaves the root is returned and has 32 bytes, for the
    empty list too: [current_level[0]] does not raise. *)
Theorem calculate_merkle_root_total (leaves : list bytes) :
  Forall (fun leaf => length leaf = 32%nat) leaves ->
  exists root : bytes,
    calculate_merkle_root keccak leaves = Ok root /\ length root = 32%nat.
Proof.
  intros Hl. destruct (calculate_merkle_root_returns keccak leaves) as [root Hroot].
  exists root. split; [exact Hroot|].
  destruct leaves as [|a [|b rest]].
  - apply Ok_inj in Hroot as <-. reflexivity.
  - apply Ok_inj in Hroot as <-. inversion Hl; subst. assumption.
  - rewrite calculate_merkle_root_loop in Hroot by discriminate.
    pose proof (merkle_loop_nodes _ _ eq_refl Hl) as Hnodes.
    destruct (merkle_loop keccak (a :: b :: rest)) as [|r rs]; [discriminate|].
    apply Ok_inj in Hroot as <-. inversion Hnodes; subst. assumption.
Qed.

Lemma length_to_hex (b : bytes) : length (to_hex b) = (2 + 2 * length b)%nat.
Proof.
  unfold to_hex. rewrite length_app. change (length (py "0x")) with 2%nat.
  f_equal. induction b as [|x b IH]; [reflexivity|].
  cbn [flat_map]. rewrite length_app, IH. simpl. lia.
Qed.

Lemma proof_loop_elements (n : nat) :
  forall (l : list bytes) (ci : Z), length l = n ->
  Forall (fun node => length node = 32%nat) l ->
  Forall (fun e => exists node, e = to_hex node /\ length node = 32%nat)
    (proof_loop keccak [] ci l).
Proof.
  induction n as [n IH] using lt_wf_ind. intros l ci Hn Hl.
  destruct l as [|a [|b rest]]; try (simp proof_loop; constructor).
  rewrite proof_loop_step, (proof_loop_acc _ _ _ _ eq_refl).
  apply Forall_app. split.
  - destruct (proof_pass_adds ci 0 (a :: b :: rest)) as [->|(x & Hx & ->)];
      [constructor|].
    constructor; [|constructor]. exists x. split; [reflexivity|].
    rewrite Forall_forall in Hl. apply Hl, list_elem_of_In, Hx.
  - apply (IH (length (next_level keccak (a :: b :: rest)))); [|reflexivity|].
    + rewrite <- Hn. apply next_level_shorter.
    + apply next_level_nodes, Hl.
Qed.

(** X16: over 32-byte leaves, every element of a proof is the hex text of a 32-byte
    node: [0x] and 64 hex digits, 66 characters. *)
Theorem generate_merkle_proof_elements (leaves : list bytes) (index : Z) :
  Forall (fun leaf => length leaf = 32%nat) leaves ->
  Forall (fun e => length e = 66%nat /\ take 2 e = py "0x"
                   /\ exists node, e = to_hex node /\ length node = 32%nat)
    (generate_merkle_proof keccak leaves index).
Proof.
  intros Hl. unfold generate_merkle_proof.
  destruct (Z.of_nat (length leaves) <=? index); [constructor|].
  eapply Forall_impl; [apply (proof_loop_elements _ _ _ eq_refl Hl)|].
  intros e (node & -> & Hnode). cbn beta.
  split; [rewrite length_to_hex, Hnode; reflexivity|].
  split; [reflexivity|]. exists node. auto.
Qed.

End MerkleMore.

(** ** The seed slots of [generate-genesis-seeds.py] *)

Section SeedSlots.

Variable keccak : bytes -> bytes.

#[local] Set Warnings "-clear-no-such-hyp".

Lemma seeds_loop_dom (plants : list Seeds.plant_dict) :
  forall (start : nat) (st : gmap str str) (md : list Seeds.seed_metadata)
         (st' : gmap str str) (md' : list Seeds.seed_metadata),
  for_each (Seeds.generate_all_seeds_body keccak) (enumerate_from start plants)
           (st, md) = Ok (st', md') ->
  dom st' = list_to_set (Seeds.seed_slot_keys start (length plants)) ∪ dom st.
Proof.
  induction plants as [|p plants IH]; intros start st md st' md' H.
  - apply Ok_inj in H. injection H as <- <-. cbn. set_solver.
  - cbn [enumerate_from for_each] in H. bind_inv H.
    unfold Seeds.generate_all_seeds_body in Hv. cbn [fst snd] in Hv.
    bind_inv Hv. apply Ok_inj in Hv as <-.
    apply IH in H. rewrite H, dom_insert_L.
    cbn [length seq Seeds.seed_slot_keys List.map list_to_set].
    unfold Seeds.seed_slot_keys. set_solver.
Qed.

Lemma seeds_loop_untouched (plants : list Seeds.plant_dict) :
  forall (start : nat) (st : gmap str str) (md : list Seeds.seed_metadata)
         (st' : gmap str str) (md' : list Seeds.seed_metadata) (key : str),
  for_each (Seeds.generate_all_seeds_body keccak) (enumerate_from start plants)
           (st, md) = Ok (st', md') ->
  (forall k : nat, (start <= k)%nat ->
     key <> hex (Seeds.SEED_START_SLOT + (Z.of_nat k - 1))) ->
  st' !! key = st !! key.
Proof.
  induction plants as [|p plants IH]; intros start st md st' md' key H Hkey.
  - apply Ok_inj in H. injection H as <- <-. reflexivity.
  - cbn [enumerate_from for_each] in H. bind_inv H.
    unfold Seeds.generate_all_seeds_body in Hv. cbn [fst snd] in Hv.
    bind_inv Hv. apply Ok_inj in Hv as <-.
    rewrite (IH _ _ _ _ _ key H) by (intros k Hk; apply Hkey; lia).
    apply lookup_insert_ne. intros Heq. exact (Hkey start (le_n _) (eq_sym Heq)).
Qed.

Lemma seeds_loop_prefix (plants : list Seeds.plant_dict) :
  forall (start : nat) (st : gmap str str) (md : list Seeds.seed_metadata)
         (st' : gmap str str) (md' : list Seeds.seed_metadata),
  for_each (Seeds.generate_all_seeds_body keccak) (enumerate_from start plants)
           (st, md) = Ok (st', md') ->
  take (length md) md' = md.
Proof.
  induction plants as [|p plants IH]; intros start st md st' md' H.
  - apply Ok_inj in H. injection H as <- <-. apply firstn_all.
  - cbn [enumerate_from for_each] in H. bind_inv H.
    unfold Seeds.generate_all_seeds_body in Hv. cbn [fst snd] in Hv.
    bind_inv Hv. apply Ok_inj in Hv as <-.
    apply IH in H. apply (f_equal (take (length md))) in H.
    rewrite take_take, length_app in H.
    rewrite Nat.min_l in H by lia.
    rewrite H. apply take_app_length.
Qed.

Lemma seeds_loop_entries (plants : list Seeds.plant_dict) :
  forall (start : nat) (st : gmap str str) (md : list Seeds.seed_metadata)
         (st' : gmap str str) (md' : list Seeds.seed_metadata),
  for_each (Seeds.generate_all_seeds_body keccak) (enumerate_from start plants)
           (st, md) = Ok (st', md') ->
  length md' = (length md + length plants)%nat
  /\ forall (k : nat) (plant : Seeds.plant_dict),
       plants !! k = Some plant ->
       exists seed : str,
         Seeds.generate_seed keccak plant (Z.of_nat (start + k)) = Ok seed
         /\ st' !! hex (Seeds.SEED_START_SLOT + (Z.of_nat (start + k) - 1))
            = Some seed
         /\ md' !! (length md + k)%nat
            = Some {| Seeds.meta_id := Z.of_nat (start + k);
                      Seeds.meta_slot :=
                        hex (Seeds.SEED_START_SLOT + (Z.of_nat (start + k) - 1));
                      Seeds.meta_seed := seed;
                      Seeds.meta_scientific_name := Seeds.scientific_name plant;
                      Seeds.meta_common_names := Seeds.common_names plant;
                      Seeds.meta_genus := Seeds.genus plant;
                      Seeds.meta_family := Seeds.family plant |}.
Proof.
  induction plants as [|p plants IH]; intros start st md st' md' H.
  - apply Ok_inj in H. injection H as <- <-. cbn [length]. split; [lia|].
    intros k plant Hk. rewrite lookup_nil in Hk. discriminate.
  - cbn [enumerate_from for_each] in H. bind_inv H.
    unfold Seeds.generate_all_seeds_body in Hv. cbn [fst snd] in Hv.
    bind_inv Hv. apply Ok_inj in Hv as <-.
    pose proof (IH _ _ _ _ _ H) as [Hlen Hent].
    pose proof (seeds_loop_prefix _ _ _ _ _ _ H) as Hpre.
    rewrite length_app in Hlen, Hpre. cbn [length] in Hlen, Hpre |- *.
    split; [lia|]. intros [|k] plant Hk.
    + cbn in Hk. injection Hk as <-. rewrite !Nat.add_0_r.
      exists v0. split; [exact Hv0|]. split.
      * rewrite (seeds_loop_untouched _ _ _ _ _ _ _ H).
        -- apply lookup_insert_eq.
        -- intros k Hk Heq. apply hex_inj in Heq. lia.
      * rewrite <- (lookup_take_lt md' (length md + 1) (length md)) by lia.
        rewrite Hpre. rewrite lookup_app_r by lia.
        rewrite Nat.sub_diag. reflexivity.
    + cbn in Hk. destruct (Hent k plant Hk) as (seed & Hs & Hst & Hmd).
      replace (start + S k)%nat with (S start + k)%nat by lia.
      exists seed. split; [exact Hs|]. split; [exact Hst|].
      rewrite length_app in Hmd. cbn [length] in Hmd.
      replace (length md + S k)%nat with (length md + 1 + k)%nat by lia.
      exact Hmd.
Qed.

Lemma seed_slot_keys_NoDup (start n : nat) :
  NoDup (Seeds.seed_slot_keys start n).
Proof.
  unfold Seeds.seed_slot_keys. apply NoDup_ListNoDup, Finite.Injective_map_NoDup.
  - intros a b Hab. apply hex_inj in Hab. lia.
  - apply List.seq_NoDup.
Qed.

Lemma seed_slot_keys_elem (n : nat) (key : str) :
  key ∈ Seeds.seed_slot_keys 1 n
  <-> exists k : nat, (k < n)%nat
        /\ key = hex (Seeds.SEED_START_SLOT + Z.of_nat k).
Proof.
  unfold Seeds.seed_slot_keys. rewrite list_elem_of_In, in_map_iff. split.
  - intros (k & <- & Hk). apply in_seq in Hk. exists (k - 1)%nat.
    split; [lia|]. f_equal. lia.
  - intros (k & Hk & ->). exists (S k). split; [f_equal; lia|].
    apply in_seq. lia.
Qed.

Lemma generate_all_seeds_reads (plants : list Seeds.plant_dict)
  (storage_slots : gmap str str) (seeds_metadata : list Seeds.seed_metadata) :
  Seeds.generate_all_seeds keccak plants = Ok (storage_slots, seeds_metadata) ->
  size storage_slots = length plants
  /\ length seeds_metadata = length plants
  /\ (forall key : str,
        is_Some (storage_slots !! key)
        <-> exists k : nat, (k < length plants)%nat
              /\ key = hex (Seeds.SEED_START_SLOT + Z.of_nat k))
  /\ forall (k : nat) (plant : Seeds.plant_dict),
       plants !! k = Some plant ->
       exists seed : str,
         Seeds.generate_seed keccak plant (Z.of_nat k + 1) = Ok seed
         /\ storage_slots !! hex (Seeds.SEED_START_SLOT + Z.of_nat k) = Some seed
         /\ seeds_metadata !! k
            = Some {| Seeds.meta_id := Z.of_nat k + 1;
                      Seeds.meta_slot := hex (Seeds.SEED_START_SLOT + Z.of_nat k);
                      Seeds.meta_seed := seed;
                      Seeds.meta_scientific_name := Seeds.scientific_name plant;
                      Seeds.meta_common_names := Seeds.common_names plant;
                      Seeds.meta_genus := Seeds.genus plant;
                      Seeds.meta_family := Seeds.family plant |}.
Proof.
  unfold Seeds.generate_all_seeds. intros H.
  pose proof (seeds_loop_dom _ _ _ _ _ _ H) as Hdom.
  pose proof (seeds_loop_entries _ _ _ _ _ _ H) as [Hlen Hent].
  rewrite dom_empty_L, union_empty_r_L in Hdom.
  split; [|split; [exact Hlen|split]].
  - rewrite <- size_dom, Hdom.
    rewrite size_list_to_set by apply seed_slot_keys_NoDup.
    unfold Seeds.seed_slot_keys. rewrite length_map. apply length_seq.
  - intros key. rewrite <- elem_of_dom, Hdom.
    rewrite (elem_of_list_to_set (C := gset str)).
    apply seed_slot_keys_elem.
  - intros k plant Hk. destruct (Hent k plant Hk) as (seed & Hs & Hst & Hmd).
    change (length (@nil Seeds.seed_metadata) + k)%nat with k in Hmd.
    assert (E1 : Z.of_nat (1 + k) = Z.of_nat k + 1) by lia.
    rewrite E1 in Hs, Hst, Hmd.
    assert (E2 : Z.of_nat k + 1 - 1 = Z.of_nat k) by lia.
    rewrite E2 in Hst, Hmd.
    exists seed. split; [exact Hs|]. split; [exact Hst|exact Hmd].
Qed.

(** X17: [generate_all_seeds] on [n] plants fills exactly the [n] slots
    [hex(0x100)] .. [hex(0x100 + n - 1)]: the slot [hex(0x100 + k)] holds the
    seed of the plant at position [k], computed with the id [k + 1], and the
    metadata entry at position [k] records that id, slot and seed with the
    fields of the plant. *)
Theorem generate_all_seeds_slots (plants : list Seeds.plant_dict)
  (storage_slots : gmap str str) (seeds_metadata : list Seeds.seed_metadata) :
  Seeds.generate_all_seeds keccak plants = Ok (storage_slots, seeds_metadata) ->
  size storage_slots = length plants
  /\ length seeds_metadata = length plants
  /\ (forall key : str,
        is_Some (storage_slots !! key)
        <-> exists k : nat, (k < length plants)%nat
              /\ key = hex (Seeds.SEED_START_SLOT + Z.of_nat k))
  /\ forall (k : nat) (plant : Seeds.plant_dict),
       plants !! k = Some plant ->
       exists seed : str,
         Seeds.generate_seed keccak plant (Z.of_nat k + 1) = Ok seed
         /\ storage_slots !! hex (Seeds.SEED_START_SLOT + Z.of_nat k) = Some seed
         /\ seeds_metadata !! k
            = Some {| Seeds.meta_id := Z.of_nat k + 1;
                      Seeds.meta_slot := hex (Seeds.SEED_START_SLOT + Z.of_nat k);
                      Seeds.meta_seed := seed;
                      Seeds.meta_scientific_name := Seeds.scientific_name plant;
                      Seeds.meta_common_names := Seeds.common_names plant;
                      Seeds.meta_genus := Seeds.genus plant;
                      Seeds.meta_family := Seeds.family plant |}.
Proof. apply generate_all_seeds_reads. Qed.

Lemma py_encodable (s : string) : encodable (py s) = true.
Proof.
  unfold encodable. apply forallb_forall. intros c Hc.
  pose proof (py_ascii_range s) as Hr. rewrite Forall_forall in Hr.
  apply list_elem_of_In, Hr in Hc. unfold is_surrogate.
  destruct (N.leb_spec 0xD800 c); [lia|reflexivity].
Qed.

Lemma seed_input_encodable (plant : Seeds.plant_dict) (plant_id : Z) :
  encodable (Seeds.seed_input plant plant_id)
  = encodable (Seeds.scientific_name plant) && encodable (Seeds.genus plant).
Proof.
  unfold Seeds.seed_input, encodable. rewrite !forallb_app.
  fold (encodable (py ":")). fold (encodable (py "ANDE:Genesis:2025:Block0:")).
  fold (encodable (str_of_int plant_id)).
  rewrite !py_encodable.
  rewrite (ascii_only_encodable _ (str_of_int_ascii plant_id)).
  rewrite !andb_true_r, !andb_true_l. reflexivity.
Qed.

Lemma seeds_generate_seed_outcome (plant : Seeds.plant_dict) (plant_id : Z) :
  (encodable (Seeds.scientific_name plant) && encodable (Seeds.genus plant) = true
   -> returns (Seeds.generate_seed keccak plant plant_id))
  /\ (encodable (Seeds.scientific_name plant) && encodable (Seeds.genus plant) = false
      -> Seeds.generate_seed keccak plant plant_id = Raise UnicodeEncodeError).
Proof.
  unfold Seeds.generate_seed, keccak_text. split; intros He.
  - rewrite <- (seed_input_encodable plant plant_id) in He.
    destruct (encode_utf8_returns _ He) as [b ->]. eexists. reflexivity.
  - rewrite <- (seed_input_encodable plant plant_id) in He.
    rewrite (encode_utf8_raises _ He). reflexivity.
Qed.

Lemma seeds_loop_outcome (plants : list Seeds.plant_dict) :
  forall (start : nat) (state : gmap str str * list Seeds.seed_metadata),
  (forallb (fun p => encodable (Seeds.scientific_name p)
                     && encodable (Seeds.genus p)) plants = true ->
   returns (for_each (Seeds.generate_all_seeds_body keccak)
                     (enumerate_from start plants) state))
  /\ (forallb (fun p => encodable (Seeds.scientific_name p)
                        && encodable (Seeds.genus p)) plants = false ->
      for_each (Seeds.generate_all_seeds_body keccak)
               (enumerate_from start plants) state = Raise UnicodeEncodeError).
Proof.
  induction plants as [|p plants IH]; intros start state.
  - split; [intros _; eexists; reflexivity|discriminate].
  - cbn [forallb enumerate_from for_each].
    unfold Seeds.generate_all_seeds_body at 1 3. cbn [fst snd].
    destruct (seeds_generate_seed_outcome p (Z.of_nat start)) as [Hok Hbad].
    destruct (encodable (Seeds.scientific_name p) && encodable (Seeds.genus p)).
    + destruct (Hok eq_refl) as [seed ->]. cbn [bind andb]. apply IH.
    + rewrite (Hbad eq_refl). cbn [bind andb].
      split; [discriminate|reflexivity].
Qed.

(** X18: [generate_all_seeds] returns exactly when the scientific name and the
    genus of every plant can be encoded in UTF-8; otherwise the hashing of the
    first plant that cannot raises [UnicodeEncodeError]. The common names and
    the family play no part. *)
Theorem generate_all_seeds_outcome (plants : list Seeds.plant_dict) :
  (returns (Seeds.generate_all_seeds keccak plants)
   <-> forallb (fun p => encodable (Seeds.scientific_name p)
                         && encodable (Seeds.genus p)) plants = true)
  /\ (forallb (fun p => encodable (Seeds.scientific_name p)
                        && encodable (Seeds.genus p)) plants = false ->
      Seeds.generate_all_seeds keccak plants = Raise UnicodeEncodeError).
Proof.
  unfold Seeds.generate_all_seeds.
  destruct (seeds_loop_outcome plants 1 (∅, [])) as [Hok Hbad].
  split; [split|exact Hbad].
  - intros [r Hr].
    destruct (forallb _ plants) eqn:E; [reflexivity|].
    rewrite (Hbad eq_refl) in Hr. discriminate.
  - exact Hok.
Qed.

Hypothesis keccak_len : forall b : bytes, length (keccak b) = 32%nat.

(** X19: with a 32-byte hash, every value that [generate_all_seeds] stores
    is the text [0x] followed by 64 hexadecimal digits: 66 characters, the
    format that [verify_genesis] looks for. *)
Theorem generate_all_seeds_format (plants : list Seeds.plant_dict)
  (storage_slots : gmap str str) (seeds_metadata : list Seeds.seed_metadata)
  (key value : str) :
  Seeds.generate_all_seeds keccak plants = Ok (storage_slots, seeds_metadata) ->
  storage_slots !! key = Some value ->
  length value = 66%nat
  /\ take 2 value = py "0x"
  /\ exists digest : bytes,
       length digest = 32%nat /\ value = to_hex digest
       /\ from_hex value = Some digest.
Proof.
  intros H Hkey.
  destruct (generate_all_seeds_reads plants storage_slots seeds_metadata H)
    as (_ & _ & Hdom & Hent).
  destruct (proj1 (Hdom key) (mk_is_Some _ _ Hkey)) as (k & Hk & ->).
  destruct (lookup_lt_is_Some_2 plants k Hk) as [plant Hp].
  destruct (Hent k plant Hp) as (seed & Hs & Hst & _).
  rewrite Hst in Hkey. injection Hkey as <-.
  unfold Seeds.generate_seed in Hs. bind_inv Hs. apply Ok_inj in Hs as <-.
  pose proof (keccak_text_length keccak keccak_len _ _ Hv) as Hlen.
  split; [rewrite length_to_hex; lia|]. split; [reflexivity|].
  exists v. split; [exact Hlen|]. split; [reflexivity|apply from_hex_to_hex].
Qed.

End SeedSlots.

(** ** The proofs file of [generate-genesis-plants.py] *)

#[local] Set Warnings "-clear-no-such-hyp".

Lemma size_list_to_set_le (l : list str) :
  (size (list_to_set l : gset str) <= length l)%nat.
Proof.
  induction l as [|x l IH]; [rewrite list_to_set_nil, size_empty; cbn; lia|].
  rewrite list_to_set_cons. cbn [length].
  pose proof (size_union_alt ({[x]} : gset str) (list_to_set l)) as Hu.
  pose proof (subseteq_size (list_to_set l ∖ {[x]}) (list_to_set l : gset str)
                ltac:(set_solver)) as Hs.
  rewrite size_singleton in Hu. lia.
Qed.

Lemma size_list_to_set_NoDup (l : list str) :
  size (list_to_set l : gset str) = length l <-> NoDup l.
Proof.
  split; [|apply size_list_to_set].
  induction l as [|x l IH]; intros Hsize; [constructor|].
  rewrite list_to_set_cons in Hsize. cbn [length] in Hsize.
  pose proof (size_list_to_set_le l) as Hle.
  destruct (decide (x ∈ l)) as [Hin|Hout].
  - replace ({[x]} ∪ list_to_set l : gset str) with (list_to_set l : gset str)
      in Hsize by set_solver.
    lia.
  - constructor; [exact Hout|]. apply IH.
    rewrite size_union in Hsize by set_solver.
    rewrite size_singleton in Hsize. lia.
Qed.

Section ProofsFile.

Variable keccak : bytes -> bytes.

#[local] Set Warnings "-clear-no-such-hyp".

Lemma proofs_loop_dom (seeds : list bytes) (plants : list PlantData) :
  forall (start : nat) (acc proofs : gmap str proof_entry),
  for_each (export_merkle_proofs_body keccak seeds) (enumerate_from start plants)
           acc = Ok proofs ->
  dom proofs
  = list_to_set (List.map (fun p => str_of_int (plant_id p)) plants) ∪ dom acc.
Proof.
  induction plants as [|p plants IH]; intros start acc proofs H.
  - apply Ok_inj in H as <-. cbn. set_solver.
  - cbn [enumerate_from for_each] in H. bind_inv H.
    unfold export_merkle_proofs_body in Hv. cbn [fst snd] in Hv.
    bind_inv Hv. apply Ok_inj in Hv as <-.
    apply IH in H. rewrite H, dom_insert_L. cbn [List.map list_to_set].
    set_solver.
Qed.

Lemma proofs_loop_untouched (seeds : list bytes) (plants : list PlantData) :
  forall (start : nat) (acc proofs : gmap str proof_entry) (key : str),
  for_each (export_merkle_proofs_body keccak seeds) (enumerate_from start plants)
           acc = Ok proofs ->
  (forall p, In p plants -> key <> str_of_int (plant_id p)) ->
  proofs !! key = acc !! key.
Proof.
  induction plants as [|p plants IH]; intros start acc proofs key H Hkey.
  - apply Ok_inj in H as <-. reflexivity.
  - cbn [enumerate_from for_each] in H. bind_inv H.
    unfold export_merkle_proofs_body in Hv. cbn [fst snd] in Hv.
    bind_inv Hv. apply Ok_inj in Hv as <-.
    rewrite (IH _ _ _ key H) by (intros q Hq; apply Hkey; right; exact Hq).
    apply lookup_insert_ne. intros Heq. apply (Hkey p); [left; reflexivity|].
    symmetry. exact Heq.
Qed.

Lemma proofs_loop_entry (seeds : list bytes) (plants : list PlantData) :
  forall (start : nat) (acc proofs : gmap str proof_entry) (k : nat)
         (p : PlantData),
  for_each (export_merkle_proofs_body keccak seeds) (enumerate_from start plants)
           acc = Ok proofs ->
  plants !! k = Some p ->
  (forall (j : nat) (q : PlantData),
     plants !! j = Some q -> (k < j)%nat -> plant_id q <> plant_id p) ->
  exists seed : bytes,
    generate_seed keccak p = Ok seed
    /\ proofs !! str_of_int (plant_id p)
       = Some {| entry_scientificName := scientific_name p;
                 entry_seed := to_hex seed;
                 entry_proof :=
                   generate_merkle_proof keccak seeds (Z.of_nat (start + k)) |}.
Proof.
  induction plants as [|p0 plants IH]; intros start acc proofs k p H Hk Hlast.
  - rewrite lookup_nil in Hk. discriminate.
  - cbn [enumerate_from for_each] in H. bind_inv H.
    unfold export_merkle_proofs_body in Hv. cbn [fst snd] in Hv.
    bind_inv Hv. apply Ok_inj in Hv as <-.
    destruct k as [|k].
    + cbn in Hk. injection Hk as <-. rewrite Nat.add_0_r.
      exists v0. split; [exact Hv0|].
      rewrite (proofs_loop_untouched _ _ _ _ _ _ H).
      * apply lookup_insert_eq.
      * intros q Hq Heq. apply str_of_int_inj in Heq.
        apply list_elem_of_In, list_elem_of_lookup in Hq as [j Hj].
        apply (Hlast (S j) q); [exact Hj|lia|]. symmetry. exact Heq.
    + cbn in Hk.
      replace (start + S k)%nat with (S start + k)%nat by lia.
      apply (IH _ _ _ _ _ H Hk).
      intros j q Hj Hlt. apply (Hlast (S j) q); [exact Hj|lia].
Qed.

(** X20: in the dict of [export_merkle_proofs] the key [str(plant_id)] of a plant
    that no later plant shares its id with holds the scientific name, the seed
    in hex and the Merkle proof for the position of the plant in the list; the
    proof goes by position, the key by id. With a repeated id the entry of the
    last such plant stays. *)
Theorem export_merkle_proofs_entries (plants : list PlantData)
  (proofs : gmap str proof_entry) (k : nat) (p : PlantData) :
  export_merkle_proofs keccak plants = Ok proofs ->
  plants !! k = Some p ->
  (forall (j : nat) (q : PlantData),
     plants !! j = Some q -> (k < j)%nat -> plant_id q <> plant_id p) ->
  exists (seeds : list bytes) (seed : bytes),
    plant_seeds keccak plants = Ok seeds
    /\ seeds !! k = Some seed
    /\ generate_seed keccak p = Ok seed
    /\ proofs !! str_of_int (plant_id p)
       = Some {| entry_scientificName := scientific_name p;
                 entry_seed := to_hex seed;
                 entry_proof := generate_merkle_proof keccak seeds (Z.of_nat k) |}.
Proof.
  unfold export_merkle_proofs, enumerate. intros H Hk Hlast. bind_inv H.
  destruct (proofs_loop_entry _ _ _ _ _ _ _ H Hk Hlast) as (seed & Hs & Hp).
  exists v, seed. split; [exact Hv|]. split; [|split; [exact Hs|exact Hp]].
  pose proof (plant_seeds_Forall2 keccak plants v Hv) as HF.
  destruct (Forall2_lookup_l _ _ _ _ _ HF Hk) as (s & Hsk & Hgs).
  rewrite Hs in Hgs. apply Ok_inj in Hgs as <-. exact Hsk.
Qed.


(** X21: the keys of the dict of [export_merkle_proofs] are the decimal texts of
    the plant ids, nothing else; it has at most one entry per plant, and one
    entry per plant exactly when the ids are pairwise distinct. *)
Theorem export_merkle_proofs_keys (plants : list PlantData)
  (proofs : gmap str proof_entry) :
  export_merkle_proofs keccak plants = Ok proofs ->
  (forall key : str,
     is_Some (proofs !! key)
     <-> exists p : PlantData, In p plants /\ key = str_of_int (plant_id p))
  /\ (size proofs <= length plants)%nat
  /\ (size proofs = length plants <-> List.NoDup (List.map plant_id plants)).
Proof.
  unfold export_merkle_proofs, enumerate. intros H. bind_inv H.
  apply proofs_loop_dom in H. rewrite dom_empty_L, union_empty_r_L in H.
  split; [|split].
  - intros key. rewrite <- elem_of_dom, H.
    rewrite (elem_of_list_to_set (C := gset str)), list_elem_of_In, in_map_iff.
    split; intros (p & A & B); exists p; split; auto.
  - rewrite <- size_dom, H.
    rewrite <- (length_map (fun p => str_of_int (plant_id p)) plants).
    apply size_list_to_set_le.
  - rewrite <- size_dom, H.
    rewrite <- (length_map (fun p => str_of_int (plant_id p)) plants).
    rewrite size_list_to_set_NoDup, NoDup_ListNoDup.
    rewrite <- (map_map plant_id str_of_int plants). split.
    + apply NoDup_map_inv.
    + apply Finite.Injective_map_NoDup. intros a b. apply str_of_int_inj.
Qed.




End ProofsFile.

(** ** The parser of [generate-genesis-seeds.py] *)

Lemma lstrip_head (s : str) (c : N) :
  head (lstrip s) = Some c -> is_space c = false.
Proof.
  induction s as [|x s IH]; [discriminate|].
  cbn [lstrip]. destruct (is_space x) eqn:Hx; [exact IH|].
  cbn. intros [= <-]. exact Hx.
Qed.

Lemma lstrip_suffix (s : str) : exists pre : str, s = pre ++ lstrip s.
Proof.
  induction s as [|x s [pre IH]]; [exists []; reflexivity|].
  cbn [lstrip]. destruct (is_space x).
  - exists (x :: pre). cbn [app]. f_equal. exact IH.
  - exists []. reflexivity.
Qed.

Lemma strip_infix (s : str) : exists pre post : str, s = pre ++ strip s ++ post.
Proof.
  unfold strip, rstrip.
  destruct (lstrip_suffix s) as [pre Hpre].
  destruct (lstrip_suffix (rev (lstrip s))) as [post Hpost].
  exists pre, (rev post).
  apply (f_equal (@rev N)) in Hpost. rewrite rev_involutive, rev_app_distr in Hpost.
  rewrite <- Hpost. exact Hpre.
Qed.

Lemma head_rev {A : Type} (l : list A) : head (rev l) = last l.
Proof.
  induction l as [|x l IH] using rev_ind; [reflexivity|].
  rewrite rev_app_distr, last_snoc. reflexivity.
Qed.

Lemma last_rev {A : Type} (l : list A) : last (rev l) = head l.
Proof. rewrite <- (rev_involutive l) at 2. rewrite head_rev. reflexivity. Qed.

Lemma head_app_Some {A : Type} (a b : list A) (x : A) :
  head a = Some x -> head (a ++ b) = Some x.
Proof. destruct a; [discriminate|auto]. Qed.

Lemma strip_trimmed (s : str) : trimmed (strip s).
Proof.
  intros c [Hc|Hc].
  - unfold strip, rstrip in Hc.
    destruct (lstrip_suffix (rev (lstrip s))) as [post Hpost].
    apply (f_equal (@rev N)) in Hpost.
    rewrite rev_involutive, rev_app_distr in Hpost.
    apply (lstrip_head s). rewrite Hpost. apply head_app_Some, Hc.
  - unfold strip, rstrip in Hc. rewrite last_rev in Hc.
    exact (lstrip_head _ _ Hc).
Qed.

Lemma strip_Forall (P : N -> Prop) (s : str) : Forall P s -> Forall P (strip s).
Proof.
  intros H. destruct (strip_infix s) as (pre & post & Hs).
  rewrite Hs in H. apply Forall_app in H as [_ H]. apply Forall_app in H as [H _].
  exact H.
Qed.

Lemma split_loop_Forall (P : N -> Prop) (sep s : str) :
  forall (skip : nat) (cur : str),
  Forall P s -> Forall P cur -> Forall (Forall P) (split_loop sep s skip cur).
Proof.
  induction s as [|c s IH]; intros skip cur Hs Hcur; cbn [split_loop].
  - constructor; [exact Hcur|constructor].
  - apply Forall_cons in Hs as [Hc Hs]. destruct skip as [|k]; [|apply IH; auto].
    destruct (startswith (c :: s) sep).
    + constructor; [exact Hcur|]. apply IH; auto.
    + apply IH; [exact Hs|]. apply Forall_app. split; [exact Hcur|].
      constructor; [exact Hc|constructor].
Qed.

Lemma split_Forall (P : N -> Prop) (s sep : str) :
  Forall P s -> Forall (Forall P) (split s sep).
Proof. intros H. apply split_loop_Forall; [exact H|constructor]. Qed.

Lemma split_loop_nonempty (sep s : str) (skip : nat) (cur : str) :
  (1 <= length (split_loop sep s skip cur))%nat.
Proof.
  revert skip cur. induction s as [|c s IH]; intros skip cur; cbn [split_loop].
  - cbn. lia.
  - destruct skip as [|k]; [|apply IH].
    destruct (startswith (c :: s) sep); [cbn; lia|apply IH].
Qed.

Lemma split_contains (s sep : str) :
  sep <> [] -> contains s sep = true -> (2 <= length (split s sep))%nat.
Proof.
  intros Hsep. unfold split. generalize (@nil N) as cur.
  induction s as [|c s IH]; intros cur H.
  - destruct sep; [contradiction|discriminate].
  - cbn [split_loop]. cbn [contains] in H.
    destruct (startswith (c :: s) sep).
    + cbn [length]. pose proof (split_loop_nonempty sep s (length sep - 1) []). lia.
    + apply IH. exact H.
Qed.

Lemma startswith_nil (s : str) : startswith s [] = true.
Proof. destruct s; reflexivity. Qed.

Lemma startswith_char (x : N) (s : str) (c : N) :
  startswith (x :: s) [c] = (x =? c)%N.
Proof. cbn [startswith]. rewrite startswith_nil. apply andb_true_r. Qed.

Lemma split_char_free (c : N) (s : str) :
  forall cur : str, c ∉ cur -> Forall (fun piece => c ∉ piece) (split_loop [c] s 0 cur).
Proof.
  induction s as [|x s IH]; intros cur Hcur; cbn [split_loop].
  - constructor; [exact Hcur|constructor].
  - rewrite startswith_char. cbn [length Nat.sub].
    destruct (N.eqb_spec x c) as [->|Hne].
    + constructor; [exact Hcur|]. apply IH. apply not_elem_of_nil.
    + apply IH. rewrite elem_of_app, list_elem_of_singleton.
      intros [Hin|Heq]; [exact (Hcur Hin)|]. apply Hne. symmetry. exact Heq.
Qed.

Lemma strip_char_free (c : N) (s : str) : c ∉ s -> c ∉ strip s.
Proof.
  intros H Hin. apply H. destruct (strip_infix s) as (pre & post & Hs).
  rewrite Hs, !elem_of_app. right. left. exact Hin.
Qed.

Lemma replace_loop_Forall (P : N -> Prop) (old s : str) (skip : nat) :
  Forall P s -> Forall P (replace_loop old [] s skip).
Proof.
  revert skip. induction s as [|c s IH]; intros skip Hs; cbn [replace_loop].
  - constructor.
  - apply Forall_cons in Hs as [Hc Hs]. destruct skip as [|k]; [|apply IH; auto].
    destruct (startswith (c :: s) old); [apply IH; auto|].
    constructor; [exact Hc|apply IH; auto].
Qed.

Lemma get_item_Ok {A : Type} (l : list A) (i : nat) :
  (i < length l)%nat -> exists x : A, get_item l i = Ok x /\ l !! i = Some x.
Proof.
  intros Hi. destruct (lookup_lt_is_Some_2 l i Hi) as [x Hx].
  exists x. unfold get_item. rewrite Hx. auto.
Qed.

Lemma str_of_int_chars (z : Z) : forallb numeral_char (str_of_int z) = true.
Proof.
  unfold str_of_int, DecimalString.NilZero.string_of_int.
  assert (Hu : forall d,
             forallb numeral_char (py (DecimalString.NilEmpty.string_of_uint d)) = true).
  { induction d; try reflexivity; cbn [DecimalString.NilEmpty.string_of_uint];
      unfold py in *; cbn [list_ascii_of_string List.map];
      cbn [forallb]; rewrite IHd; reflexivity. }
  destruct (Z.to_int z) as [d|d].
  - unfold DecimalString.NilZero.string_of_uint.
    destruct d; try reflexivity; apply Hu.
  - unfold DecimalString.NilZero.string_of_uint.
    destruct d; try reflexivity;
      unfold py; cbn [list_ascii_of_string List.map];
      cbn [forallb]; apply (Hu _).
Qed.

Lemma str_of_int_nonempty (z : Z) : str_of_int z <> [].
Proof.
  unfold str_of_int, DecimalString.NilZero.string_of_int.
  destruct (Z.to_int z) as [d|d];
    unfold DecimalString.NilZero.string_of_uint; destruct d; discriminate.
Qed.

Lemma char_free_Forall (c : N) (s : str) :
  c ∉ s <-> Forall (fun x => x <> c) s.
Proof.
  rewrite Forall_forall. split.
  - intros H x Hx ->. exact (H Hx).
  - intros H Hc. exact (H c Hc eq_refl).
Qed.

Lemma item0_Ok {A : Type} (l : list A) :
  (1 <= length l)%nat -> exists x : A, item0 l = Ok x /\ l !! 0%nat = Some x.
Proof. destruct l as [|x l]; cbn; [lia|]. intros _. exists x. auto. Qed.

Lemma trimmed_unknown : trimmed (py "Unknown").
Proof. intros c [H|H]; vm_compute in H; injection H as <-; reflexivity. Qed.

Section Parser.

Variable P : N -> Prop.
Hypothesis P_unknown : Forall P (py "Unknown").

Lemma or_else_ok (o : option str) :
  (forall g, o = Some g -> trimmed g /\ Forall P g) ->
  or_else o (py "Unknown") <> []
  /\ trimmed (or_else o (py "Unknown"))
  /\ Forall P (or_else o (py "Unknown")).
Proof.
  intros Ho. destruct o as [[|c g]|]; cbn [or_else].
  - split; [discriminate|]. split; [apply trimmed_unknown|exact P_unknown].
  - split; [discriminate|]. apply Ho. reflexivity.
  - split; [discriminate|]. split; [apply trimmed_unknown|exact P_unknown].
Qed.

Lemma common_names_ok (line : str) :
  Forall P line ->
  exists names : list str,
    (if contains line (py "(") && contains line (py ")") then
       let* opened := get_item (split line (py "(")) 1 in
       let* common_part := item0 (split opened (py ")")) in
       Ok (List.map strip (split common_part (py ",")))
     else Ok []) = Ok names
    /\ Forall (fun name : str =>
                 trimmed name /\ (44%N ∉ name) /\ (40%N ∉ name) /\ (41%N ∉ name))
              names
    /\ Forall (Forall P) names.
Proof.
  intros HP.
  destruct (contains line (py "(") && contains line (py ")")) eqn:E;
    [|exists []; split; [reflexivity|split; constructor]].
  apply andb_true_iff in E as [Eo _].
  pose proof (split_contains line (py "(") ltac:(discriminate) Eo) as Hlen.
  destruct (get_item_Ok (split line (py "(")) 1 ltac:(lia)) as (opened & -> & Hopened).
  cbn [bind].
  destruct (item0_Ok (split opened (py ")")) (split_loop_nonempty _ _ _ _))
    as (common_part & -> & Hpart).
  cbn [bind]. eexists. split; [reflexivity|].
  assert (Ho40 : 40%N ∉ opened).
  { pose proof (split_char_free 40 line [] (not_elem_of_nil _)) as Hf.
    rewrite Forall_lookup in Hf. exact (Hf _ _ Hopened). }
  assert (HoP : Forall P opened).
  { pose proof (split_Forall P line (py "(") HP) as Hf.
    rewrite Forall_lookup in Hf. exact (Hf _ _ Hopened). }
  assert (Hp41 : 41%N ∉ common_part).
  { pose proof (split_char_free 41 opened [] (not_elem_of_nil _)) as Hf.
    rewrite Forall_lookup in Hf. exact (Hf _ _ Hpart). }
  assert (Hp40 : 40%N ∉ common_part).
  { apply char_free_Forall in Ho40.
    pose proof (split_Forall _ opened (py ")") Ho40) as Hf.
    rewrite Forall_lookup in Hf. apply char_free_Forall. exact (Hf _ _ Hpart). }
  assert (HpP : Forall P common_part).
  { pose proof (split_Forall P opened (py ")") HoP) as Hf.
    rewrite Forall_lookup in Hf. exact (Hf _ _ Hpart). }
  pose proof (split_char_free 44 common_part [] (not_elem_of_nil _)) as H44.
  apply char_free_Forall in Hp40, Hp41.
  pose proof (split_Forall _ common_part (py ",") Hp40) as H40.
  pose proof (split_Forall _ common_part (py ",") Hp41) as H41.
  pose proof (split_Forall P common_part (py ",") HpP) as HPs.
  change (split_loop [44%N] common_part 0 []) with (split common_part (py ",")) in H44.
  rewrite Forall_forall in H44, H40, H41, HPs.
  split; apply Forall_forall; intros name Hname;
    apply list_elem_of_In, in_map_iff in Hname as (piece & <- & Hpiece);
    apply list_elem_of_In in Hpiece.
  - split; [apply strip_trimmed|].
    split; [apply strip_char_free, H44, Hpiece|].
    split; apply strip_char_free, char_free_Forall; auto.
  - apply strip_Forall, HPs, Hpiece.
Qed.

Lemma parse_line_spec (state : Seeds.parser_state) (line : str) :
  Forall P line -> Seeds.state_ok P state ->
  exists state' : Seeds.parser_state,
    Seeds.parse_line state line = Ok state'
    /\ Seeds.state_ok P state'
    /\ (startswith (strip line) Seeds.bullet = false ->
        Seeds.parsed state' = Seeds.parsed state).
Proof.
  intros HP0 (Hplants & Hgenus & Hfamily). unfold Seeds.parse_line.
  pose proof (strip_Forall P line HP0) as HP.
  generalize dependent (strip line). clear line HP0. intros line HP.
  destruct (startswith line (py "##") && contains line (py "Family:")) eqn:E1.
  { apply andb_true_iff in E1 as [_ E1].
    pose proof (split_contains line (py "Family:") ltac:(discriminate) E1) as Hlen.
    destruct (get_item_Ok (split line (py "Family:")) 1 ltac:(lia))
      as (part & -> & Hpart).
    cbn [bind]. eexists. split; [reflexivity|]. split; [|reflexivity].
    split; [exact Hplants|]. split; [exact Hgenus|].
    cbn. intros f [= <-]. split; [apply strip_trimmed|apply strip_Forall].
    pose proof (split_Forall P line (py "Family:") HP) as Hf.
    rewrite Forall_lookup in Hf. exact (Hf _ _ Hpart). }
  destruct (startswith line (py "###")) eqn:E2.
  { eexists. split; [reflexivity|]. split; [|reflexivity].
    split; [exact Hplants|]. split; [|exact Hfamily].
    cbn. intros g [= <-]. split; [apply strip_trimmed|apply strip_Forall].
    apply replace_loop_Forall, HP. }
  destruct (startswith line Seeds.bullet) eqn:E3;
    [|eexists; split; [reflexivity|]; split; [|reflexivity];
      split; [exact Hplants|]; split; [exact Hgenus|exact Hfamily]].
  destruct (contains line (py "*")) eqn:E4;
    [|eexists; split; [reflexivity|]; split; [|discriminate];
      split; [exact Hplants|]; split; [exact Hgenus|exact Hfamily]].
  destruct (3 <=? length (split line (py "*")))%nat eqn:E5;
    [|eexists; split; [reflexivity|]; split; [|discriminate];
      split; [exact Hplants|]; split; [exact Hgenus|exact Hfamily]].
  apply Nat.leb_le in E5.
  destruct (get_item_Ok (split line (py "*")) 1 ltac:(lia)) as (part & -> & Hpart).
  cbn [bind].
  destruct (common_names_ok line HP) as (names & -> & Hnames & HnamesP).
  cbn [bind]. eexists. split; [reflexivity|]. split; [|discriminate].
  split; [|split; [exact Hgenus|exact Hfamily]].
  cbn [Seeds.parsed]. apply Forall_app. split; [exact Hplants|].
  constructor; [|constructor].
  destruct (or_else_ok _ Hgenus) as (G1 & G2 & G3).
  destruct (or_else_ok _ Hfamily) as (F1 & F2 & F3).
  assert (HpartP : Forall P part).
  { pose proof (split_Forall P line (py "*") HP) as Hf.
    rewrite Forall_lookup in Hf. exact (Hf _ _ Hpart). }
  assert (Hpart42 : 42%N ∉ part).
  { pose proof (split_char_free 42 line [] (not_elem_of_nil _)) as Hf.
    rewrite Forall_lookup in Hf. exact (Hf _ _ Hpart). }
  split.
  - unfold Seeds.well_formed. cbn.
    split; [exact G1|]. split; [exact F1|]. split; [exact G2|].
    split; [exact F2|]. split; [apply strip_trimmed|].
    split; [apply strip_char_free, Hpart42|exact Hnames].
  - unfold Seeds.plant_chars. cbn.
    split; [apply strip_Forall, HpartP|]. split; [exact G3|].
    split; [exact F3|exact HnamesP].
Qed.

Lemma parse_loop_spec (lines : list str) :
  forall state : Seeds.parser_state,
  Forall (Forall P) lines -> Seeds.state_ok P state ->
  exists state' : Seeds.parser_state,
    for_each Seeds.parse_line lines state = Ok state'
    /\ Seeds.state_ok P state'
    /\ (Forall (fun line => startswith (strip line) Seeds.bullet = false) lines ->
        Seeds.parsed state' = Seeds.parsed state).
Proof.
  induction lines as [|line lines IH]; intros state Hlines Hstate.
  - exists state. split; [reflexivity|]. split; [exact Hstate|reflexivity].
  - apply Forall_cons in Hlines as [Hline Hlines].
    destruct (parse_line_spec state line Hline Hstate) as (s1 & H1 & Hs1 & Hb1).
    destruct (IH s1 Hlines Hs1) as (s2 & H2 & Hs2 & Hb2).
    exists s2. cbn [for_each]. rewrite H1. cbn [bind].
    split; [exact H2|]. split; [exact Hs2|].
    intros Hb. apply Forall_cons in Hb as [Hb Hbs].
    rewrite (Hb2 Hbs). apply Hb1, Hb.
Qed.

End Parser.

Lemma numeral_char_cases (c : N) :
  numeral_char c = true -> (c = 45 \/ 48 <= c <= 57)%N.
Proof.
  unfold numeral_char. rewrite orb_true_iff, andb_true_iff, N.eqb_eq, !N.leb_le.
  lia.
Qed.

Lemma numeral_not_space (c : N) : numeral_char c = true -> is_space c = false.
Proof.
  intros H. apply numeral_char_cases in H. unfold is_space.
  repeat match goal with
         | |- context [(?a =? ?b)%N] => destruct (N.eqb_spec a b); [lia|]
         | |- context [(?a <=? ?b)%N] => destruct (N.leb_spec a b)
         end; try reflexivity; lia.
Qed.

Lemma trimmed_numbered (lit : str) (z : Z) :
  (forall c, head lit = Some c -> is_space c = false) -> lit <> [] ->
  trimmed (lit ++ str_of_int z).
Proof.
  intros Hhead Hlit c [Hc|Hc].
  - destruct lit as [|x lit]; [contradiction|]. apply Hhead. exact Hc.
  - pose proof (str_of_int_chars z) as Hchars.
    pose proof (str_of_int_nonempty z) as Hne.
    destruct (str_of_int z) as [|d ds] using rev_ind; [contradiction|].
    rewrite app_assoc, last_snoc in Hc. injection Hc as <-.
    rewrite forallb_app in Hchars. apply andb_true_iff in Hchars as [_ Hd].
    cbn [forallb] in Hd. rewrite andb_true_r in Hd.
    apply numeral_not_space, Hd.
Qed.

Lemma numbered_char_free (c : N) (lit : str) (z : Z) :
  c ∉ lit -> numeral_char c = false -> c ∉ lit ++ str_of_int z.
Proof.
  intros Hlit Hc Hin. apply elem_of_app in Hin as [Hin|Hin]; [exact (Hlit Hin)|].
  pose proof (str_of_int_chars z) as Hchars. rewrite forallb_forall in Hchars.
  apply list_elem_of_In, Hchars in Hin. congruence.
Qed.

Lemma filler_well_formed (i : Z) : Seeds.well_formed (Seeds.filler i).
Proof.
  unfold Seeds.well_formed, Seeds.filler.
  cbn [Seeds.genus Seeds.family Seeds.scientific_name Seeds.common_names].
  split; [discriminate|]. split; [discriminate|].
  split; [intros c [H|H]; vm_compute in H; injection H as <-; reflexivity|].
  split; [intros c [H|H]; vm_compute in H; injection H as <-; reflexivity|].
  split; [apply trimmed_numbered;
          [intros c H; vm_compute in H; injection H as <-; reflexivity
          |discriminate]|].
  split.
  - apply numbered_char_free; [|reflexivity].
    apply (bool_decide_unpack _). vm_compute. exact I.
  - constructor; [|constructor].
    split; [apply trimmed_numbered;
            [intros c H; vm_compute in H; injection H as <-; reflexivity
            |discriminate]|].
    repeat split; (apply numbered_char_free; [|reflexivity]);
      apply (bool_decide_unpack _); vm_compute; exact I.
Qed.

Lemma encodable_Forall (s : str) :
  encodable s = true <-> Forall (fun c => is_surrogate c = false) s.
Proof.
  unfold encodable. rewrite forallb_forall, Forall_forall. split.
  - intros H c Hc. apply negb_true_iff, H, list_elem_of_In, Hc.
  - intros H c Hc. apply negb_true_iff, H, list_elem_of_In, Hc.
Qed.

Lemma filler_encodable (i : Z) :
  encodable (Seeds.scientific_name (Seeds.filler i))
  && encodable (Seeds.genus (Seeds.filler i)) = true.
Proof.
  unfold Seeds.filler. cbn [Seeds.genus Seeds.scientific_name].
  unfold encodable at 1. rewrite forallb_app.
  fold (encodable (py "Planta medicinae sp. ")). fold (encodable (str_of_int (i + 1))).
  rewrite !py_encodable, (ascii_only_encodable _ (str_of_int_ascii _)).
  reflexivity.
Qed.

Lemma state_ok_init (P : N -> Prop) :
  Seeds.state_ok P {| Seeds.parsed := []; Seeds.current_genus := None;
                       Seeds.current_family := None |}.
Proof. split; [constructor|]. split; cbn; discriminate. Qed.

Lemma parse_plantas_md_result (P : N -> Prop) (content : str) :
  Forall P (py "Unknown") -> Forall P content ->
  exists found : list Seeds.plant_dict,
    Forall (fun plant => Seeds.well_formed plant /\ Seeds.plant_chars P plant) found
    /\ (Forall (fun line => startswith (strip line) Seeds.bullet = false)
               (split content [10%N]) -> found = [])
    /\ Seeds.parse_plantas_md content
       = Ok (take 520
               (if Z.of_nat (length found) <? 520
                then found
                     ++ List.map Seeds.filler
                          (seqZ (Z.of_nat (length found))
                                (520 - Z.of_nat (length found)))
                else found)).
Proof.
  intros HPu HP.
  destruct (parse_loop_spec P HPu (split content [10%N]) _
              (split_Forall P content [10%N] HP) (state_ok_init P))
    as (state & Hloop & (Hplants & _) & Hnone).
  exists (Seeds.parsed state). split; [exact Hplants|]. split; [exact Hnone|].
  unfold Seeds.parse_plantas_md. rewrite Hloop. reflexivity.
Qed.

Lemma length_padded (found : list Seeds.plant_dict) :
  length (take 520
            (if Z.of_nat (length found) <? 520
             then found
                  ++ List.map Seeds.filler
                       (seqZ (Z.of_nat (length found))
                             (520 - Z.of_nat (length found)))
             else found)) = 520%nat.
Proof.
  rewrite length_take. destruct (Z.ltb_spec (Z.of_nat (length found)) 520).
  - rewrite length_app, length_map, length_seqZ. lia.
  - lia.
Qed.

(** X23: [parse_plantas_md] never raises, whatever the text of the file: the
    indexings [[1]] and [[0]] of the pieces of a line are guarded by the tests
    before them. It always gives exactly 520 plants: missing ones are filled
    in, surplus ones are cut off. *)
Theorem parse_plantas_md_total (content : str) :
  exists plants : list Seeds.plant_dict,
    Seeds.parse_plantas_md content = Ok plants
    /\ Z.of_nat (length plants) = Seeds.TOTAL_PLANTS.
Proof.
  destruct (parse_plantas_md_result (fun _ => True) content)
    as (found & _ & _ & Hparse).
  - apply Forall_forall. auto.
  - apply Forall_forall. auto.
  - eexists. split; [exact Hparse|]. rewrite length_padded. reflexivity.
Qed.

(** X24: every plant that [parse_plantas_md] gives, read from the file or filled
    in, has a genus and a family that are not empty ([Unknown] stands in for a
    missing or empty heading), a scientific name without a star, common names
    without comma or bracket, and no white space at either end of any of
    them. *)
Theorem parse_plantas_md_well_formed (content : str) :
  exists plants : list Seeds.plant_dict,
    Seeds.parse_plantas_md content = Ok plants
    /\ Forall Seeds.well_formed plants.
Proof.
  destruct (parse_plantas_md_result (fun _ => True) content)
    as (found & Hfound & _ & Hparse).
  - apply Forall_forall. auto.
  - apply Forall_forall. auto.
  - eexists. split; [exact Hparse|]. apply Forall_take.
    assert (Hwf : Forall Seeds.well_formed found).
    { eapply Forall_impl; [exact Hfound|]. cbn. tauto. }
    destruct (Z.of_nat (length found) <? 520); [|exact Hwf].
    apply Forall_app. split; [exact Hwf|].
    apply Forall_forall. intros p Hp.
    apply list_elem_of_In, in_map_iff in Hp as (i & <- & _).
    apply filler_well_formed.
Qed.

Lemma contains_char_free (c : N) (s : str) :
  contains s [c] = false -> Forall (fun x => x <> c) s.
Proof.
  induction s as [|x s IH]; [constructor|].
  cbn [contains]. rewrite startswith_char, orb_false_iff, N.eqb_neq.
  intros [Hx Hs]. constructor; [exact Hx|apply IH, Hs].
Qed.

(** X25: on a file without the bullet U+2022, the empty file among them,
    [parse_plantas_md] gives the 520 filler plants: number [i + 1] at position
    [i], with genus [Planta] and family [Medicinae]. *)
Theorem parse_plantas_md_no_species (content : str) :
  contains content Seeds.bullet = false ->
  Seeds.parse_plantas_md content = Ok (List.map Seeds.filler (seqZ 0 520)).
Proof.
  intros Hnone. apply contains_char_free in Hnone.
  destruct (parse_plantas_md_result (fun x => x <> 8226%N) content)
    as (found & _ & Hempty & Hparse).
  - apply char_free_Forall. apply (bool_decide_unpack _). vm_compute. exact I.
  - exact Hnone.
  - rewrite Hparse, Hempty.
    + cbn [length app]. apply f_equal. apply take_ge.
      rewrite length_map, length_seqZ. lia.
    + pose proof (split_Forall _ content [10%N] Hnone) as Hlines.
      eapply Forall_impl; [exact Hlines|]. cbn. intros line Hline.
      apply (strip_Forall _ line) in Hline.
      destruct (strip line) as [|x rest]; [reflexivity|].
      unfold Seeds.bullet. rewrite startswith_char. apply N.eqb_neq.
      apply Forall_cons in Hline as [Hx _]. exact Hx.
Qed.

(** X26: the two steps of [main] together: on a file whose text can be encoded
    in UTF-8, the plants of [parse_plantas_md] go through [generate_all_seeds]
    without an error, and the seeds fill exactly the 520 slots [hex(0x100)] ..
    [hex(0x307)], with 520 metadata entries. *)
Theorem generate_all_seeds_parsed (keccak : bytes -> bytes) (content : str) :
  encodable content = true ->
  exists (plants : list Seeds.plant_dict) (storage_slots : gmap str str)
         (seeds_metadata : list Seeds.seed_metadata),
    Seeds.parse_plantas_md content = Ok plants
    /\ Seeds.generate_all_seeds keccak plants = Ok (storage_slots, seeds_metadata)
    /\ size storage_slots = 520%nat
    /\ length seeds_metadata = 520%nat
    /\ storage_slots !! py "0x307" <> None
    /\ forall key : str,
         is_Some (storage_slots !! key)
         <-> exists k : nat, (k < 520)%nat /\ key = hex (0x100 + Z.of_nat k).
Proof.
  intros Henc. apply encodable_Forall in Henc.
  destruct (parse_plantas_md_result _ content
              (proj1 (encodable_Forall _) (py_encodable "Unknown")) Henc)
    as (found & Hfound & _ & Hparse).
  match type of Hparse with _ = Ok ?l => set (plants := l) in * end.
  assert (Hlen : length plants = 520%nat) by apply length_padded.
  assert (Hall : forallb (fun p => encodable (Seeds.scientific_name p)
                                   && encodable (Seeds.genus p)) plants = true).
  { apply forallb_forall. intros p Hp. apply list_elem_of_In in Hp.
    apply elem_of_take in Hp as (k & Hp & _).
    apply list_elem_of_lookup_2 in Hp.
    assert (Hsrc : p ∈ found \/ exists i, p = Seeds.filler i).
    { destruct (Z.of_nat (length found) <? 520); [|left; exact Hp].
      apply elem_of_app in Hp as [Hp|Hp]; [left; exact Hp|right].
      apply list_elem_of_In, in_map_iff in Hp as (i & <- & _). exists i. reflexivity. }
    destruct Hsrc as [Hin|[i ->]]; [|apply filler_encodable].
    rewrite Forall_forall in Hfound.
    destruct (Hfound p Hin) as (_ & Hname & Hgenus & _).
    apply encodable_Forall in Hname, Hgenus. rewrite Hname, Hgenus. reflexivity. }
  destruct (proj1 (seeds_loop_outcome keccak plants 1 (∅, [])) Hall)
    as [[storage_slots seeds_metadata] Hgen].
  fold (Seeds.generate_all_seeds keccak plants) in Hgen.
  destruct (generate_all_seeds_reads keccak plants _ _ Hgen)
    as (Hsize & Hmeta & Hkeys & _).
  rewrite Hlen in Hsize, Hmeta, Hkeys.
  exists plants, storage_slots, seeds_metadata.
  split; [exact Hparse|]. split; [exact Hgen|]. split; [exact Hsize|].
  split; [exact Hmeta|]. split; [|exact Hkeys].
  apply not_eq_None_Some, Hkeys. exists 519%nat. split; [lia|reflexivity].
Qed.

(** * The further properties on the plants of the source *)

Lemma generate_traits_bytes_peyote :
  exists traits : list Z,
    generate_traits Keccak.keccak256 peyote = Ok traits
    /\ length traits = 8%nat
    /\ Forall (fun v => 0 <= v < 256) traits.
Proof.
  eexists. split; [vm_compute; reflexivity|].
  match goal with
  | |- length ?t = _ /\ _ =>
      destruct (generate_traits_bytes Keccak.keccak256 peyote t) as (Hlen & Hr & _)
  end.
  - vm_compute. reflexivity.
  - split; [exact Hlen|exact Hr].
Defined.

Lemma encode_conservation_codes_peyote :
  0 <= _encode_conservation peyote <= 8.
Proof.
  destruct (encode_conservation_codes peyote peyote) as (Hrange & _).
  exact Hrange.
Defined.

Lemma pack_slot2_content_peyote :
  exists encoded : bytes,
    encode_utf8 (scientific_name peyote) = Ok encoded
    /\ pack_slot2 peyote
       = Ok (take 32 encoded ++ replicate (32 - length encoded) x00).
Proof.
  destruct (pack_slot2_content peyote) as (_ & Hok).
  destruct (Hok eq_refl) as (encoded & He & Hs & _).
  exists encoded. split; [exact He|exact Hs].
Defined.

Lemma pack_slot3_peyote_ok :
  is_ok (pack_slot3 Keccak.keccak256 lower_ascii peyote) = true.
Proof. vm_compute. reflexivity. Qed.

Lemma pack_slot3_fields_peyote :
  exists slot : bytes,
    pack_slot3 Keccak.keccak256 lower_ascii peyote = Ok slot
    /\ from_bytes_big (take 4 (drop 20 slot))
       = _encode_properties lower_ascii peyote
    /\ Z_of_byte <$> slot !! 24%nat = Some (rarity_tier peyote)
    /\ Z_of_byte <$> slot !! 25%nat = Some (_encode_conservation peyote).
Proof.
  pose proof pack_slot3_peyote_ok as Hok.
  destruct (pack_slot3 Keccak.keccak256 lower_ascii peyote) as [slot|e] eqn:E;
    [|discriminate Hok].
  exists slot. split; [reflexivity|].
  destruct (pack_slot3_fields Keccak.keccak256 lower_ascii keccak256_length
              peyote slot E)
    as (encoded & digest & traits & _ & _ & _ & _ & _ & _ & Hp & Hr & Hc & _).
  split; [exact Hp|]. split; [exact Hr|exact Hc].
Defined.

Lemma pack_slot3_outcome_peyote :
  returns (pack_slot3 Keccak.keccak256 lower_ascii peyote).
Proof.
  apply (pack_slot3_outcome Keccak.keccak256 lower_ascii keccak256_length peyote).
  split; [vm_compute; split; [discriminate|reflexivity]|].
  split; [reflexivity|]. split; reflexivity.
Defined.

Lemma generate_genesis_storage_header_legendary :
  exists storage : gmap str str,
    generate_genesis_storage Keccak.keccak256 lower_ascii 1731628800
      LEGENDARY_PLANTS = Ok storage
    /\ storage !! py "0x2" = Some (to_hex (be_bytes 32 8))
    /\ storage !! py "0x4" = Some (to_hex (be_bytes 32 1731628800)).
Proof.
  pose proof generate_genesis_storage_legendary_ok as Hok.
  destruct (generate_genesis_storage Keccak.keccak256 lower_ascii 1731628800
              LEGENDARY_PLANTS) as [storage|e] eqn:E; [|discriminate Hok].
  exists storage. split; [reflexivity|].
  destruct (generate_genesis_storage_header Keccak.keccak256 lower_ascii
              1731628800 LEGENDARY_PLANTS storage)
    as (seeds & root & _ & _ & _ & _ & _ & H2 & _ & H4 & _).
  - vm_compute. repeat (constructor; [discriminate|]). constructor.
  - exact E.
  - split; [exact H2|exact H4].
Defined.

Lemma generate_genesis_storage_records_peyote :
  exists (storage : gmap str str) (s3 : bytes),
    generate_genesis_storage Keccak.keccak256 lower_ascii 1731628800
      LEGENDARY_PLANTS = Ok storage
    /\ pack_slot3 Keccak.keccak256 lower_ascii peyote = Ok s3
    /\ storage !! hex (base_slot peyote + 2) = Some (to_hex s3).
Proof.
  pose proof generate_genesis_storage_legendary_ok as Hok.
  destruct (generate_genesis_storage Keccak.keccak256 lower_ascii 1731628800
              LEGENDARY_PLANTS) as [storage|e] eqn:E; [|discriminate Hok].
  destruct (generate_genesis_storage_records Keccak.keccak256 lower_ascii
              1731628800 LEGENDARY_PLANTS storage peyote)
    as (s1 & s2 & s3 & s4 & _ & _ & H3 & _ & _ & _ & L3 & _).
  - apply NoDup_ListNoDup. apply (bool_decide_unpack (NoDup _)).
    vm_compute. exact I.
  - vm_compute. repeat (constructor; [discriminate|]). constructor.
  - exact E.
  - left. reflexivity.
  - exists storage, s3. split; [reflexivity|]. split; [exact H3|exact L3].
Defined.

Lemma generate_genesis_storage_twice_ok :
  is_ok (generate_genesis_storage Keccak.keccak256 lower_ascii 1731628800
           ([peyote] ++ [with_rarity_tier 5 peyote])) = true.
Proof. vm_compute. reflexivity. Qed.

Lemma generate_genesis_storage_last_peyote :
  exists (storage : gmap str str) (s3 : bytes),
    generate_genesis_storage Keccak.keccak256 lower_ascii 1731628800
      ([peyote] ++ [with_rarity_tier 5 peyote]) = Ok storage
    /\ pack_slot3 Keccak.keccak256 lower_ascii (with_rarity_tier 5 peyote) = Ok s3
    /\ storage !! hex (base_slot peyote + 2) = Some (to_hex s3).
Proof.
  pose proof generate_genesis_storage_twice_ok as Hok.
  destruct (generate_genesis_storage Keccak.keccak256 lower_ascii 1731628800
              ([peyote] ++ [with_rarity_tier 5 peyote])) as [storage|e] eqn:E;
    [|discriminate Hok].
  destruct (generate_genesis_storage_last Keccak.keccak256 lower_ascii
              1731628800 [peyote] (with_rarity_tier 5 peyote) storage E)
    as (s1 & s2 & s3 & s4 & _ & _ & H3 & _ & _ & _ & L3 & _).
  exists storage, s3. split; [reflexivity|]. split; [exact H3|exact L3].
Defined.

Lemma generate_genesis_storage_outcome_legendary :
  returns (generate_genesis_storage Keccak.keccak256 lower_ascii 1731628800
             LEGENDARY_PLANTS).
Proof.
  apply (generate_genesis_storage_outcome Keccak.keccak256 lower_ascii
           keccak256_length 1731628800 LEGENDARY_PLANTS).
  - vm_compute. reflexivity.
  - split; [|vm_compute; split; [discriminate|reflexivity]].
    unfold LEGENDARY_PLANTS.
    repeat (constructor;
            [split; [vm_compute; split; [discriminate|reflexivity]|];
             split; [reflexivity|]; split; reflexivity|]).
    constructor.
Defined.

Lemma generate_merkle_proof_length_legendary :
  (length (generate_merkle_proof Keccak.keccak256 legendary_seeds 5) <= 3)%nat.
Proof.
  apply (generate_merkle_proof_length Keccak.keccak256 3 legendary_seeds 5).
  vm_compute. lia.
Defined.

Lemma generate_merkle_proof_negative_legendary :
  generate_merkle_proof Keccak.keccak256 legendary_seeds (-1) = [].
Proof.
  apply (generate_merkle_proof_negative Keccak.keccak256 legendary_seeds (-1)).
  lia.
Defined.

Lemma generate_merkle_proof_step_legendary :
  generate_merkle_proof Keccak.keccak256 legendary_seeds (Z.of_nat 4)
  = match (if Nat.odd 4 then legendary_seeds !! (4 - 1)%nat
           else legendary_seeds !! (4 + 1)%nat) with
    | Some s => [to_hex s]
    | None => []
    end
    ++ generate_merkle_proof Keccak.keccak256
         (next_level Keccak.keccak256 legendary_seeds) (Z.of_nat (4 / 2)).
Proof.
  apply (generate_merkle_proof_step Keccak.keccak256 legendary_seeds 4).
  - vm_compute. lia.
  - vm_compute. lia.
Defined.

Lemma generate_merkle_proof_perfect_legendary :
  length (generate_merkle_proof Keccak.keccak256 legendary_seeds (Z.of_nat 6))
  = 3%nat.
Proof.
  apply (generate_merkle_proof_perfect Keccak.keccak256 3 legendary_seeds 6).
  - vm_compute. reflexivity.
  - vm_compute. lia.
Defined.

Lemma calculate_merkle_root_total_legendary :
  exists root : bytes,
    calculate_merkle_root Keccak.keccak256 legendary_seeds = Ok root
    /\ length root = 32%nat.
Proof.
  apply (calculate_merkle_root_total Keccak.keccak256 keccak256_length
           legendary_seeds).
  vm_compute. repeat constructor.
Defined.

Lemma generate_merkle_proof_elements_legendary :
  Forall (fun e => length e = 66%nat /\ take 2 e = py "0x"
                   /\ exists node, e = to_hex node /\ length node = 32%nat)
    (generate_merkle_proof Keccak.keccak256 legendary_seeds 4).
Proof.
  apply (generate_merkle_proof_elements Keccak.keccak256 keccak256_length
           legendary_seeds 4).
  vm_compute. repeat constructor.
Defined.

Lemma generate_all_seeds_plants_ok :
  is_ok (Seeds.generate_all_seeds Keccak.keccak256 seed_plants) = true.
Proof. vm_compute. reflexivity. Qed.

Lemma generate_all_seeds_slots_plants :
  exists (storage_slots : gmap str str)
         (seeds_metadata : list Seeds.seed_metadata) (seed : str),
    Seeds.generate_all_seeds Keccak.keccak256 seed_plants
    = Ok (storage_slots, seeds_metadata)
    /\ size storage_slots = 2%nat
    /\ Seeds.generate_seed Keccak.keccak256 coca 1 = Ok seed
    /\ storage_slots !! py "0x100" = Some seed.
Proof.
  pose proof generate_all_seeds_plants_ok as Hok.
  destruct (Seeds.generate_all_seeds Keccak.keccak256 seed_plants)
    as [[storage_slots seeds_metadata]|e] eqn:E; [|discriminate Hok].
  destruct (generate_all_seeds_slots Keccak.keccak256 seed_plants
              storage_slots seeds_metadata E) as (Hsize & _ & _ & Hent).
  destruct (Hent 0%nat coca eq_refl) as (seed & Hseed & Hslot & _).
  exists storage_slots, seeds_metadata, seed.
  split; [reflexivity|]. split; [exact Hsize|]. split; [exact Hseed|exact Hslot].
Defined.

Lemma generate_all_seeds_outcome_plants :
  returns (Seeds.generate_all_seeds Keccak.keccak256 seed_plants).
Proof.
  apply (generate_all_seeds_outcome Keccak.keccak256 seed_plants).
  reflexivity.
Defined.

Lemma generate_all_seeds_format_plants :
  exists (storage_slots : gmap str str)
         (seeds_metadata : list Seeds.seed_metadata) (value : str),
    Seeds.generate_all_seeds Keccak.keccak256 seed_plants
    = Ok (storage_slots, seeds_metadata)
    /\ storage_slots !! py "0x101" = Some value
    /\ length value = 66%nat.
Proof.
  pose proof generate_all_seeds_plants_ok as Hok.
  destruct (Seeds.generate_all_seeds Keccak.keccak256 seed_plants)
    as [[storage_slots seeds_metadata]|e] eqn:E; [|discriminate Hok].
  destruct (generate_all_seeds_reads Keccak.keccak256 seed_plants
              storage_slots seeds_metadata E) as (_ & _ & _ & Hent).
  destruct (Hent 1%nat (Seeds.filler 1) eq_refl) as (value & _ & Hslot & _).
  destruct (generate_all_seeds_format Keccak.keccak256 keccak256_length
              seed_plants storage_slots seeds_metadata (py "0x101") value
              E Hslot) as (Hlen & _).
  exists storage_slots, seeds_metadata, value.
  split; [reflexivity|]. split; [exact Hslot|exact Hlen].
Defined.

Lemma export_merkle_proofs_legendary_ok :
  is_ok (export_merkle_proofs Keccak.keccak256 LEGENDARY_PLANTS) = true.
Proof. vm_compute. reflexivity. Qed.

Lemma export_merkle_proofs_entries_legendary :
  exists (proofs : gmap str proof_entry) (seed : bytes),
    export_merkle_proofs Keccak.keccak256 LEGENDARY_PLANTS = Ok proofs
    /\ legendary_seeds !! 7%nat = Some seed
    /\ proofs !! py "8"
       = Some {| entry_scientificName := py "Anadenanthera peregrina";
                 entry_seed := to_hex seed;
                 entry_proof :=
                   generate_merkle_proof Keccak.keccak256 legendary_seeds 7 |}.
Proof.
  pose proof export_merkle_proofs_legendary_ok as Hok.
  destruct (export_merkle_proofs Keccak.keccak256 LEGENDARY_PLANTS)
    as [proofs|e] eqn:E; [|discriminate Hok].
  destruct (export_merkle_proofs_entries Keccak.keccak256 LEGENDARY_PLANTS
              proofs 7 (nth 7 LEGENDARY_PLANTS peyote) E)
    as (seeds & seed & Hseeds & Hk & _ & Hentry).
  - reflexivity.
  - intros j q Hj Hlt. apply lookup_lt_Some in Hj. vm_compute in Hj. lia.
  - exists proofs, seed. split; [reflexivity|].
    unfold legendary_seeds. rewrite Hseeds. split; [exact Hk|exact Hentry].
Defined.

Lemma export_merkle_proofs_keys_legendary :
  exists proofs : gmap str proof_entry,
    export_merkle_proofs Keccak.keccak256 LEGENDARY_PLANTS = Ok proofs
    /\ size proofs = 8%nat.
Proof.
  pose proof export_merkle_proofs_legendary_ok as Hok.
  destruct (export_merkle_proofs Keccak.keccak256 LEGENDARY_PLANTS)
    as [proofs|e] eqn:E; [|discriminate Hok].
  exists proofs. split; [reflexivity|].
  destruct (export_merkle_proofs_keys Keccak.keccak256 LEGENDARY_PLANTS proofs E)
    as (_ & _ & Hsize).
  apply Hsize. apply NoDup_ListNoDup. apply (bool_decide_unpack (NoDup _)).
  vm_compute. exact I.
Defined.


Lemma parse_plantas_md_no_species_heading :
  Seeds.parse_plantas_md (py "## Family: Erythroxylaceae")
  = Ok (List.map Seeds.filler (seqZ 0 520)).
Proof.
  apply (parse_plantas_md_no_species (py "## Family: Erythroxylaceae")).
  reflexivity.
Defined.

Lemma generate_all_seeds_parsed_line :
  exists (plants : list Seeds.plant_dict) (storage_slots : gmap str str)
         (seeds_metadata : list Seeds.seed_metadata),
    Seeds.parse_plantas_md species_line = Ok plants
    /\ Seeds.generate_all_seeds Keccak.keccak256 plants
       = Ok (storage_slots, seeds_metadata)
    /\ size storage_slots = 520%nat
    /\ length seeds_metadata = 520%nat
    /\ storage_slots !! py "0x307" <> None
    /\ forall key : str,
         is_Some (storage_slots !! key)
         <-> exists k : nat, (k < 520)%nat /\ key = hex (0x100 + Z.of_nat k).
Proof.
  apply (generate_all_seeds_parsed Keccak.keccak256 species_line).
  reflexivity.
Defined.
